(** * sciam: the interactive execution engine of [app.py]

  A shallow embedding of the code-execution part of the collaborative
  editor server ([src/app.py]; the older variant [src/aappp.py] is embedded
  in [Module Legacy]) and the proofs of the properties its specification
  states about it.

  The path normalizer ([Module Norm]), the definition of
  [_copy_session_datasets_to_temp] that is bound at run time
  ([Module Rebound]) and the session, permission and chat handlers
  ([Module Collab]) are embedded as well, with further properties of the
  code after those of the specification.

  Conventions.
  - A Python [str] is a [string]; a character is a code point below 256.
  - The three module-level dictionaries [running_processes],
    [input_queues] and [process_needs_input] are [gmap]s keyed by the
    process id.
  - Python exceptions are values of type [exn]; code that may raise lives
    in the monad [M], which threads the [world] and an outcome. *)

From Stdlib Require Import ZArith Ascii String.
From stdpp Require Import base gmap strings list pretty.

Local Open Scope Z_scope.
Local Open Scope stdpp_scope.

(** ** Characters and strings *)

Module Chars.

Definition dquote : ascii := "034"%char.
Definition squote : ascii := "039"%char.
Definition hash : ascii := "#"%char.
Definition newline : ascii := "010"%char.

Definition code (c : ascii) : N := N_of_ascii c.

Definition between (lo hi : N) (c : ascii) : bool :=
  ((lo <=? code c) && (code c <=? hi))%N.

(** [\w] of a [str] pattern: [str.isalnum] or the underscore. *)
Definition re_word (c : ascii) : bool :=
  between 48 57 c || between 65 90 c || between 97 122 c
  || (code c =? 95)%N
  || (code c =? 170)%N || (code c =? 178)%N || (code c =? 179)%N
  || (code c =? 181)%N || (code c =? 185)%N || (code c =? 186)%N
  || between 188 190 c || between 192 214 c || between 216 246 c
  || between 248 255 c.

(** [\s] of a [str] pattern. *)
Definition re_space (c : ascii) : bool :=
  between 9 13 c || between 28 32 c
  || (code c =? 133)%N || (code c =? 160)%N.

End Chars.

Definition nl : string := String Chars.newline "".

Module Str.

Fixpoint prefix (p s : string) : bool :=
  match p, s with
  | EmptyString, _ => true
  | String a p', String b s' => if Ascii.eqb a b then prefix p' s' else false
  | String _ _, EmptyString => false
  end.

Fixpoint drop (n : nat) (s : string) : string :=
  match n, s with
  | O, _ => s
  | S n', String _ s' => drop n' s'
  | S _, EmptyString => EmptyString
  end.

Fixpoint take (n : nat) (s : string) : string :=
  match n, s with
  | S n', String c s' => String c (take n' s')
  | _, _ => EmptyString
  end.

(** [s.find(p)]: offset of the first occurrence of [p] in [s]. *)
Fixpoint find (p s : string) : option nat :=
  if prefix p s then Some O
  else match s with
       | EmptyString => None
       | String _ s' => S <$> find p s'
       end.

(** [p in s] *)
Definition contains (p s : string) : bool :=
  match find p s with Some _ => true | None => false end.

Fixpoint mem (c : ascii) (s : string) : bool :=
  match s with
  | EmptyString => false
  | String a s' => Ascii.eqb a c || mem c s'
  end.

Definition nonempty (s : string) : bool :=
  match s with EmptyString => false | String _ _ => true end.

Fixpoint join (sep : string) (l : list string) : string :=
  match l with
  | [] => ""
  | [x] => x
  | x :: l' => x +:+ sep +:+ join sep l'
  end.

End Str.

(** ** The regular expressions of [run_code]

  [re.sub(p, '', s)] deletes the leftmost non-overlapping matches of [p].
  A pattern is given by its matcher at the current position: [m s] is the
  length of the match of the pattern that starts at the head of [s]. None
  of the patterns below matches the empty string. *)

Module Re.

Definition matcher := string -> option nat.

Fixpoint sub_empty (m : matcher) (skip : nat) (s : string) : string :=
  match s with
  | EmptyString => EmptyString
  | String c t =>
      match skip with
      | S k => sub_empty m k t
      | O =>
          match m s with
          | Some (S k) => sub_empty m k t
          | _ => String c (sub_empty m O t)
          end
      end
  end.

(** [d.*?d] under [re.S]: the delimiter, then the shortest text up to
    the next delimiter. *)
Definition delimited (d : string) : matcher := fun s =>
  if Str.prefix d s
  then match Str.find d (Str.drop (String.length d) s) with
       | Some k => Some (String.length d + k + String.length d)%nat
       | None => None
       end
  else None.

(** [(p|q)] *)
Definition alt (p q : matcher) : matcher := fun s =>
  match p s with
  | Some n => Some n
  | None => q s
  end.

(** length of the longest prefix without a newline: [.*] without [re.S] *)
Fixpoint line_length (s : string) : nat :=
  match s with
  | EmptyString => O
  | String c t => if Ascii.eqb c Chars.newline then O else S (line_length t)
  end.

(** [#.*] *)
Definition comment : matcher := fun s =>
  match s with
  | String c t => if Ascii.eqb c Chars.hash then Some (S (line_length t)) else None
  | EmptyString => None
  end.

Definition q3 (c : ascii) : string := String c (String c (String c "")).
Definition q1 (c : ascii) : string := String c "".

(** the first pattern of [_strip_strings_and_comments]: a text between
    two runs of three double quotes, or between two runs of three single
    quotes *)
Definition triple_quoted : matcher :=
  alt (delimited (q3 Chars.dquote)) (delimited (q3 Chars.squote)).

(** the second pattern: a text between two double quotes, or between
    two single quotes *)
Definition quoted : matcher :=
  alt (delimited (q1 Chars.dquote)) (delimited (q1 Chars.squote)).

(** [re.search]: a pattern that looks at the character before the match
    (for [\b]) is a test on that character and on the rest of the text. *)
Definition probe := option ascii -> string -> bool.

Fixpoint search_from (p : probe) (prev : option ascii) (s : string) : bool :=
  p prev s ||
  match s with
  | EmptyString => false
  | String c t => search_from p (Some c) t
  end.

Definition search (p : probe) (s : string) : bool := search_from p None s.

Definition is_word (o : option ascii) : bool :=
  match o with Some c => Chars.re_word c | None => false end.

Definition head (s : string) : option ascii :=
  match s with String c _ => Some c | EmptyString => None end.

(** [\b] between the character [prev] and the text [s] *)
Definition boundary (prev : option ascii) (s : string) : bool :=
  xorb (is_word prev) (is_word (head s)).

Fixpoint skip_space (s : string) : string :=
  match s with
  | String c t => if Chars.re_space c then skip_space t else s
  | EmptyString => s
  end.

(** [\binput\s*\(] *)
Definition input_call : probe := fun prev s =>
  boundary prev s && Str.prefix "input" s &&
  match skip_space (Str.drop 5 s) with
  | String c _ => Ascii.eqb c "("%char
  | EmptyString => false
  end.

(** [\bsys\.stdin\b] *)
Definition sys_stdin : probe := fun prev s =>
  boundary prev s && Str.prefix "sys.stdin" s &&
  boundary (Some "n"%char) (Str.drop 9 s).

End Re.

(** ** The interactive-input classifier ([run_code], lines 86-95) *)

Definition _strip_strings_and_comments (s : string) : string :=
  let s := Re.sub_empty Re.triple_quoted O s in
  let s := Re.sub_empty Re.quoted O s in
  let s := Re.sub_empty Re.comment O s in
  s.

(** the test applied to the residual text *)
Definition has_input_construct (cleaned : string) : bool :=
  Re.search Re.input_call cleaned || Re.search Re.sys_stdin cleaned.

Definition code_needs_input (code : string) : bool :=
  let cleaned := _strip_strings_and_comments code in
  has_input_construct cleaned.

Definition dq (body : string) : string :=
  String Chars.dquote (body +:+ String Chars.dquote "").

(** ** Data model *)

(** Exceptions: the class and [str(e)].  Every class below derives from
  Python's [Exception], so [except Exception] catches them all; the
  handlers of the supervisor name [BrokenPipeError], [queue.Empty],
  [KeyError] and [subprocess.TimeoutExpired], and [OSError] stands for the
  other errors of the operating system. *)
Inductive exn_class :=
  | BrokenPipeError | QueueEmpty | KeyError | TimeoutExpired | OSError
  | ValueError | TypeError.

Record exn := Exn { exn_cls : exn_class; exn_str : string }.

Global Instance exn_class_eq_dec : EqDecision exn_class.
Proof. solve_decision. Defined.

(** The [stdin]/[stdout]/[stderr] argument of [subprocess.Popen]:
  [subprocess.PIPE] or [None]. *)
Inductive stdio := PIPE | NoPipe.

Global Instance stdio_eq_dec : EqDecision stdio.
Proof. solve_decision. Defined.

(** A [Popen] object: the arguments it was created with and its mutable
  part ([returncode], the signals sent, the text written to its stdin). *)
Record popen := Popen {
  p_cmd : list string;
  p_stdin : stdio;
  p_stdout : stdio;
  p_stderr : stdio;
  p_cwd : option string;
  p_returncode : option Z;
  p_killed : bool;
  p_written : list string
}.

(** What [socketio.emit] publishes. *)
Inductive event :=
  | code_output (process_id output type : string)
  | input_received (process_id : string)
  | code_complete (process_id status : string).

Global Instance event_eq_dec : EqDecision event.
Proof. solve_decision. Defined.

Record emission := Emit { em_event : event; em_room : string }.

(** The three registries. *)
Record registries := Registries {
  running_processes : gmap string nat;
  input_queues : gmap string (list string);
  process_needs_input : gmap string bool
}.

(** The arguments handed to [threading.Thread(target=run_code_with_input)];
  the last three are [None] when the caller leaves them to their default
  values. *)
Record thread_args := ThreadArgs {
  ta_code : string;
  ta_process_id : string;
  ta_session_id : string;
  ta_code_needs_input : bool;
  ta_timeout_seconds : option Z;
  ta_use_docker : option bool;
  ta_docker_packages : option (list string)
}.

(** The state shared by the request handlers and the supervisor threads.
  [observed] is a ghost log: the registries as they are after each
  statement that adds or removes a key, oldest first.  [clock] is in
  milliseconds; [polls] counts the [waitpid] probes made so far. *)
Record world := World {
  regs : registries;
  observed : list registries;
  emitted : list emission;
  files : gset string;
  dirs : gset string;
  procs : list popen;
  threads : list thread_args;
  clock : Z;
  polls : nat
}.

Definition set_regs (f : registries -> registries) (w : world) : world :=
  World (f (regs w)) (observed w) (emitted w) (files w) (dirs w) (procs w)
        (threads w) (clock w) (polls w).
Definition set_observed (f : list registries -> list registries) (w : world) : world :=
  World (regs w) (f (observed w)) (emitted w) (files w) (dirs w) (procs w)
        (threads w) (clock w) (polls w).
Definition set_emitted (f : list emission -> list emission) (w : world) : world :=
  World (regs w) (observed w) (f (emitted w)) (files w) (dirs w) (procs w)
        (threads w) (clock w) (polls w).
Definition set_files (f : gset string -> gset string) (w : world) : world :=
  World (regs w) (observed w) (emitted w) (f (files w)) (dirs w) (procs w)
        (threads w) (clock w) (polls w).
Definition set_dirs (f : gset string -> gset string) (w : world) : world :=
  World (regs w) (observed w) (emitted w) (files w) (f (dirs w)) (procs w)
        (threads w) (clock w) (polls w).
Definition set_procs (f : list popen -> list popen) (w : world) : world :=
  World (regs w) (observed w) (emitted w) (files w) (dirs w) (f (procs w))
        (threads w) (clock w) (polls w).
Definition set_threads (f : list thread_args -> list thread_args) (w : world) : world :=
  World (regs w) (observed w) (emitted w) (files w) (dirs w) (procs w)
        (f (threads w)) (clock w) (polls w).
Definition set_clock (f : Z -> Z) (w : world) : world :=
  World (regs w) (observed w) (emitted w) (files w) (dirs w) (procs w)
        (threads w) (f (clock w)) (polls w).
Definition set_polls (f : nat -> nat) (w : world) : world :=
  World (regs w) (observed w) (emitted w) (files w) (dirs w) (procs w)
        (threads w) (clock w) (f (polls w)).

Definition set_running_processes (f : gmap string nat -> gmap string nat)
    (r : registries) : registries :=
  Registries (f (running_processes r)) (input_queues r) (process_needs_input r).
Definition set_input_queues
    (f : gmap string (list string) -> gmap string (list string))
    (r : registries) : registries :=
  Registries (running_processes r) (f (input_queues r)) (process_needs_input r).
Definition set_process_needs_input (f : gmap string bool -> gmap string bool)
    (r : registries) : registries :=
  Registries (running_processes r) (input_queues r) (f (process_needs_input r)).

(** a statement that adds or removes a registry key, followed by the ghost
  snapshot *)
Definition mutate_regs (f : registries -> registries) (w : world) : world :=
  let w' := set_regs f w in
  set_observed (fun l => l ++ [regs w']) w'.

Definition empty_world : world :=
  World (Registries ∅ ∅ ∅) [] [] ∅ ∅ [] [] 0 0.

(** ** The request handlers *)

(** The JSON body of a [/run_code] request, after [data.get]:
  [rq_process_id] is [None] when the field is absent or [null],
  [rq_timeout_seconds] is [None] when the field is absent. *)
Record run_request := RunRequest {
  rq_code : string;
  rq_session_id : string;
  rq_user_input : string;
  rq_process_id : option string;
  rq_timeout_seconds : option Z;
  rq_use_docker : bool;
  rq_docker_packages : list string
}.

Inductive json := JStr (s : string) | JBool (b : bool) | JInt (z : Z).

(** The JSON object a handler returns: its [status] and [message] entries
  and the other entries. *)
Record response := Response {
  status : string;
  message : string;
  fields : list (string * json)
}.

Fixpoint assoc (k : string) (l : list (string * json)) : option json :=
  match l with
  | [] => None
  | (k', v) :: l' => if String.eqb k k' then Some v else assoc k l'
  end.

Definition field (k : string) (r : response) : option json := assoc k (fields r).

(** Python truth value of an optional string / of a string *)
Definition truthy_opt (o : option string) : bool :=
  match o with Some s => Str.nonempty s | None => false end.

(** [max(1, min(timeout_seconds, 300))] *)
Definition clamp_timeout (t : Z) : Z := Z.max 1 (Z.min t 300).

(** [int(data.get("timeout_seconds", 120))] followed by the clamp *)
Definition effective_timeout (submitted : option Z) : Z :=
  let timeout_seconds := default 120 submitted in
  clamp_timeout timeout_seconds.

(** [input_queues[process_id].put(line)] *)
Definition queue_put (process_id line : string) (w : world) : world :=
  set_regs (set_input_queues (alter (fun q => q ++ [line]) process_id)) w.

(** [/run_code].  [uuid4] is the value [str(uuid.uuid4())] takes if the
  request starts an execution. *)
Definition run_code (uuid4 : string) (data : run_request) (w : world)
  : response * world :=
  let code := rq_code data in
  let session_id := rq_session_id data in
  let user_input := rq_user_input data in
  let process_id := rq_process_id data in
  let timeout_seconds := effective_timeout (rq_timeout_seconds data) in
  let use_docker := rq_use_docker data in
  let docker_packages := rq_docker_packages data in
  if truthy_opt process_id && Str.nonempty user_input then
    let process_id := default "" process_id in
    match input_queues (regs w) !! process_id with
    | Some _ =>
        (Response "input_sent" "Input sent to process" [],
         queue_put process_id (user_input +:+ nl) w)
    | None =>
        (Response "error" "Process not found or completed" [], w)
    end
  else
    let code_needs_input := code_needs_input code in
    let process_id := uuid4 in
    let w := mutate_regs (set_input_queues (insert process_id [])) w in
    let w := mutate_regs (set_process_needs_input (insert process_id code_needs_input)) w in
    let w := set_threads (fun l => l ++
               [ThreadArgs code process_id session_id code_needs_input
                           (Some timeout_seconds) (Some use_docker)
                           (Some docker_packages)]) w in
    (Response "started" "Code execution started successfully"
       [("process_id", JStr process_id); ("needs_input", JBool code_needs_input);
        ("timeout_seconds", JInt timeout_seconds); ("use_docker", JBool use_docker)],
     w).

(** The JSON body of a [/provide_input] request. *)
Record input_request := InputRequest {
  ir_process_id : option string;
  ir_user_input : string
}.

(** [/provide_input] *)
Definition provide_input (data : input_request) (w : world) : response * world :=
  let process_id := ir_process_id data in
  let user_input := ir_user_input data in
  if negb (truthy_opt process_id) || negb (Str.nonempty user_input) then
    (Response "error" "Process ID and input are required" [], w)
  else
    let process_id := default "" process_id in
    match input_queues (regs w) !! process_id with
    | Some _ =>
        (Response "success" "Input sent to process" [],
         queue_put process_id (user_input +:+ nl) w)
    | None =>
        (Response "error" "Process not found or completed" [], w)
    end.

(** What other threads do to the mailbox of an execution while its
    supervisor runs: they serve [/provide_input] requests for it, one per
    submitted [user_input]. *)
Definition feed_inputs (process_id : string) (inputs : list string) (w : world)
  : world :=
  foldl (fun w user_input =>
           snd (provide_input (InputRequest (Some process_id) user_input) w))
        w inputs.

(** ** The supervisor's monad

  [run_code_with_input] runs in its own thread.  Its local variables that
  the [finally] block reads ([process], [temp_filename], [temp_dir]) form
  the [frame]; a computation threads the world and the frame and ends
  normally, by a raised exception, or by running out of the fuel given to
  the monitoring loop. *)

Record frame := Frame {
  process : option nat;
  temp_filename : option string;
  temp_dir : option string
}.

Record state := State { world_of : world; frame_of : frame }.

Inductive outcome (A : Type) :=
  | Ok (a : A)
  | Raise (e : exn)
  | OutOfFuel.
Arguments Ok {A} a.
Arguments Raise {A} e.
Arguments OutOfFuel {A}.

Definition M (A : Type) : Type := state -> outcome A * state.

Global Instance M_ret : MRet M := fun A a s => (Ok a, s).
Global Instance M_bind : MBind M := fun A B k c s =>
  match c s with
  | (Ok a, s') => k a s'
  | (Raise e, s') => (Raise e, s')
  | (OutOfFuel, s') => (OutOfFuel, s')
  end.

Definition raise {A} (e : exn) : M A := fun s => (Raise e, s).
Definition out_of_fuel {A} : M A := fun s => (OutOfFuel, s).

(** [try: c  except Exception as e: h e] *)
Definition try_except {A} (c : M A) (h : exn -> M A) : M A := fun s =>
  match c s with
  | (Raise e, s') => h e s'
  | r => r
  end.

(** [try: c  except Exception: pass] *)
Definition try_pass (c : M unit) : M unit :=
  try_except c (fun _ => mret tt).

(** [try: c  finally: f] *)
Definition try_finally {A} (c : M A) (f : M unit) : M A := fun s =>
  match c s with
  | (OutOfFuel, s') => (OutOfFuel, s')
  | (r, s') =>
      match f s' with
      | (Ok _, s'') => (r, s'')
      | (Raise e, s'') => (Raise e, s'')
      | (OutOfFuel, s'') => (OutOfFuel, s'')
      end
  end.

Definition get_world : M world := fun s => (Ok (world_of s), s).
Definition get_frame : M frame := fun s => (Ok (frame_of s), s).
Definition modify_world (f : world -> world) : M unit := fun s =>
  (Ok tt, State (f (world_of s)) (frame_of s)).
Definition modify_frame (f : frame -> frame) : M unit := fun s =>
  (Ok tt, State (world_of s) (f (frame_of s))).

Definition assign_process (h : nat) : M unit :=
  modify_frame (fun fr => Frame (Some h) (temp_filename fr) (temp_dir fr)).
Definition assign_temp_filename (p : string) : M unit :=
  modify_frame (fun fr => Frame (process fr) (Some p) (temp_dir fr)).
Definition assign_temp_dir (p : string) : M unit :=
  modify_frame (fun fr => Frame (process fr) (temp_filename fr) (Some p)).

(** ** The environment of one supervisor run

  Everything the operating system decides: whether a call fails, what the
  child process does, what arrives in the mailbox and how long a pass of
  the loop takes. *)

Record tick := Tick {
  tk_arrivals : list string;   (* the [user_input] of the [/provide_input]
                                  requests for this execution served
                                  before this pass reads the mailbox *)
  tk_write : option exn;       (* what [stdin.write]/[flush] raises *)
  tk_extra : N                 (* milliseconds this pass takes beyond the
                                  50 ms sleep *)
}.

Record environment := Env {
  env_mkdtemp : string + exn;        (* [tempfile.mkdtemp] *)
  env_open : option exn;             (* opening [program.py] for writing *)
  env_write : option exn;            (* writing and flushing the code *)
  env_session_files : option (list (string * bool * bool));
      (* [None]: no upload directory for the session; otherwise its files,
         each with whether the copy to [data/] and the copy to
         [datasets/<session>/] succeed *)
  env_docker : bool;                 (* [shutil.which("docker") is not None] *)
  env_popen : option exn;            (* what [subprocess.Popen] raises *)
  env_exit : nat -> option Z;        (* what the k-th [waitpid] probe sees:
                                        [None] while the child runs *)
  env_tick : nat -> tick
}.

(** [os.path.join] of a directory and a relative name *)
Definition path_join (d name : string) : string := d +:+ "/" +:+ name.

Definition sys_executable : string := "python".

Section Supervisor.

Variable env : environment.

(** *** Primitives *)

(** [socketio.emit(..., room=session_id)] *)
Definition emit (ev : event) (room : string) : M unit :=
  modify_world (set_emitted (fun l => l ++ [Emit ev room])).

Definition emit_output (process_id output type session_id : string) : M unit :=
  emit (code_output process_id output type) session_id.

(** [time.time()], in milliseconds *)
Definition time_time : M Z := w ← get_world; mret (clock w).

(** [time.sleep(0.05)] at the end of pass [n] of the loop *)
Definition sleep (n : nat) : M unit :=
  modify_world (set_clock (fun t => t + 50 + Z.of_N (tk_extra (env_tick env n)))).

Definition path_exists (p : string) : M bool :=
  w ← get_world; mret (bool_decide (p ∈ files w ∪ dirs w)).

Definition isdir (p : string) : M bool :=
  w ← get_world; mret (bool_decide (p ∈ dirs w)).

(** [tempfile.mkdtemp(prefix="siren_exec_")] *)
Definition mkdtemp : M string :=
  match env_mkdtemp env with
  | inl d => modify_world (set_dirs (fun ds => {[d]} ∪ ds));; mret d
  | inr e => raise e
  end.

(** [with open(temp_filename, "w") as tmp: tmp.write(safe_code); tmp.flush()].
    The contents of files are not part of the model. *)
Definition write_program (p : string) : M unit :=
  match env_open env with
  | Some e => raise e
  | None =>
      modify_world (set_files (fun fs => {[p]} ∪ fs));;
      match env_write env with
      | Some e => raise e
      | None => mret tt
      end
  end.

(** [os.makedirs(p, exist_ok=True)] for a directory directly below an
    existing one *)
Definition makedirs (p : string) : M unit :=
  modify_world (set_dirs (fun ds => {[p]} ∪ ds)).

(** [shutil.copy2(src, dst)] inside its [try ... except Exception: pass] *)
Definition copy2_or_pass (ok : bool) (dst : string) : M unit :=
  if ok then modify_world (set_files (fun fs => {[dst]} ∪ fs)) else mret tt.

Fixpoint copy_session_files (fs : list (string * bool * bool))
    (target_dir mirror_dir : string) : M unit :=
  match fs with
  | [] => mret tt
  | (f, ok_dst, ok_mirror) :: fs' =>
      copy2_or_pass ok_dst (path_join target_dir f);;
      copy2_or_pass ok_mirror (path_join mirror_dir f);;
      copy_session_files fs' target_dir mirror_dir
  end.

(** [_copy_session_datasets_to_temp], for an upload directory without
    sub-directories *)
Definition _copy_session_datasets_to_temp (session_id temp_dir : string) : M unit :=
  match env_session_files env with
  | None => mret tt
  | Some fs =>
      let dest_root := path_join temp_dir "data" in
      makedirs dest_root;;
      let mirror_root := path_join (path_join temp_dir "datasets") session_id in
      makedirs (path_join temp_dir "datasets");;
      makedirs mirror_root;;
      copy_session_files fs dest_root mirror_root
  end.

(** [subprocess.Popen(cmd, stdin=..., stdout=..., stderr=..., cwd=...)]:
    the new object is the last of [procs] *)
Definition popen_call (cmd : list string) (stdin stdout stderr : stdio)
    (cwd : string) : M nat :=
  match env_popen env with
  | Some e => raise e
  | None =>
      w ← get_world;
      modify_world (set_procs (fun l =>
        l ++ [Popen cmd stdin stdout stderr (Some cwd) None false []]));;
      mret (length (procs w))
  end.

Definition update_proc (h : nat) (f : popen -> popen) : M unit :=
  modify_world (set_procs (fun l =>
    match l !! h with
    | Some p => <[h := f p]> l
    | None => l
    end)).

(** [process.poll()]: the cached [returncode] if there is one, else a
    fresh probe whose answer is cached *)
Definition poll (h : nat) : M (option Z) :=
  w ← get_world;
  match procs w !! h with
  | Some p =>
      match p_returncode p with
      | Some rc => mret (Some rc)
      | None =>
          let seen := env_exit env (polls w) in
          modify_world (set_polls S);;
          update_proc h (fun p =>
            Popen (p_cmd p) (p_stdin p) (p_stdout p) (p_stderr p) (p_cwd p)
                  seen (p_killed p) (p_written p));;
          mret seen
      end
  | None => mret None
  end.

(** [process.kill()] *)
Definition kill (h : nat) : M unit :=
  update_proc h (fun p =>
    Popen (p_cmd p) (p_stdin p) (p_stdout p) (p_stderr p) (p_cwd p)
          (p_returncode p) true (p_written p)).

(** [process.stdin] is an object exactly when a pipe was requested *)
Definition has_stdin (h : nat) : M bool :=
  w ← get_world;
  mret (match procs w !! h with
        | Some p => bool_decide (p_stdin p = PIPE)
        | None => false
        end).

(** [process.stdin.write(user_input); process.stdin.flush()] in pass [n] *)
Definition stdin_write (n : nat) (h : nat) (user_input : string) : M unit :=
  match tk_write (env_tick env n) with
  | Some e => raise e
  | None =>
      update_proc h (fun p =>
        Popen (p_cmd p) (p_stdin p) (p_stdout p) (p_stderr p) (p_cwd p)
              (p_returncode p) (p_killed p) (p_written p ++ [user_input]))
  end.

(** the requests served before pass [n] reads the mailbox *)
Definition arrivals (n : nat) (process_id : string) : M unit :=
  modify_world (feed_inputs process_id (tk_arrivals (env_tick env n))).

(** [input_queues[process_id].get(timeout=0.1)] *)
Definition queue_get (process_id : string) : M string :=
  w ← get_world;
  match input_queues (regs w) !! process_id with
  | None => raise (Exn KeyError process_id)
  | Some [] => raise (Exn QueueEmpty "")
  | Some (x :: q) =>
      modify_world (set_regs (set_input_queues (insert process_id q)));;
      mret x
  end.

(** [del d[k]] for each registry *)
Definition del_running_processes (process_id : string) : M unit :=
  w ← get_world;
  match running_processes (regs w) !! process_id with
  | Some _ => modify_world (mutate_regs (set_running_processes (delete process_id)))
  | None => raise (Exn KeyError process_id)
  end.

Definition del_input_queues (process_id : string) : M unit :=
  w ← get_world;
  match input_queues (regs w) !! process_id with
  | Some _ => modify_world (mutate_regs (set_input_queues (delete process_id)))
  | None => raise (Exn KeyError process_id)
  end.

Definition del_process_needs_input (process_id : string) : M unit :=
  w ← get_world;
  match process_needs_input (regs w) !! process_id with
  | Some _ => modify_world (mutate_regs (set_process_needs_input (delete process_id)))
  | None => raise (Exn KeyError process_id)
  end.

(** [os.unlink] *)
Definition unlink (p : string) : M unit :=
  w ← get_world;
  if bool_decide (p ∈ files w)
  then modify_world (set_files (fun fs => fs ∖ {[p]}))
  else raise (Exn OSError p).

(** [os.rmdir]: only an empty directory can be removed *)
Definition dir_empty (d : string) (paths : gset string) : bool :=
  bool_decide (set_Forall (fun p => Str.prefix (d +:+ "/") p = false) paths).

Definition rmdir (d : string) : M unit :=
  w ← get_world;
  if bool_decide (d ∈ dirs w) && dir_empty d (files w ∪ dirs w)
  then modify_world (set_dirs (fun ds => ds ∖ {[d]}))
  else raise (Exn OSError d).

(** *** [run_code_with_input], block by block *)

Definition datasets_notice : string :=
  "📁 Session datasets were copied into the execution workspace at ./data/ and ./datasets/<session_id>/" +:+ nl.
Definition docker_notice : string :=
  "⚠️ Docker not found on server, falling back to local execution." +:+ nl.
Definition started_notice : string :=
  "🚀 Code execution started..." +:+ nl.
Definition timeout_message (timeout_seconds : Z) : string :=
  nl +:+ "⏰ Error: Code execution timed out (" +:+ pretty timeout_seconds
     +:+ " seconds)" +:+ nl.
Definition error_message (e : exn) : string :=
  nl +:+ "❌ Execution error: " +:+ exn_str e +:+ nl.

(** lines 217-235: the argument vector and the stdin argument *)
Definition build_command (use_docker code_needs_input : bool)
    (docker_packages : list string) (temp_dir temp_filename : string)
  : list string * stdio :=
  if use_docker then
    let pip_cmd :=
      match docker_packages with
      | [] => ""
      | _ => "pip install --no-cache-dir " +:+ Str.join " " docker_packages
               +:+ " >/dev/null 2>&1 && "
      end in
    let container_cmd := pip_cmd +:+ "python /workspace/program.py" in
    let cmd := ["docker"; "run"; "--rm"; "-i";
                "-v"; temp_dir +:+ ":/workspace";
                "-w"; "/workspace";
                "python:3.11-slim";
                "bash"; "-lc"; container_cmd] in
    let stdin_pipe := if code_needs_input then PIPE else NoPipe in
    (cmd, stdin_pipe)
  else
    let cmd := [sys_executable; temp_filename] in
    let stdin_pipe := if code_needs_input then PIPE else NoPipe in
    (cmd, stdin_pipe).

(** lines 182-281: workspace, command, launch, registration.  The two
    [stream_reader] threads started at the end publish the child's output
    concurrently; they are not part of this thread's sequence. *)
Definition prepare (code process_id session_id : string)
    (code_needs_input use_docker : bool) (docker_packages : list string)
  : M nat :=
  temp_dir ← mkdtemp;
  assign_temp_dir temp_dir;;
  let temp_filename := path_join temp_dir "program.py" in
  assign_temp_filename temp_filename;;
  write_program temp_filename;;
  try_pass
    (_copy_session_datasets_to_temp session_id temp_dir;;
     d ← isdir (path_join temp_dir "data");
     if (d : bool) then emit_output process_id datasets_notice "system" session_id
     else mret tt);;
  use_docker ←
    (if use_docker then
       if env_docker env then mret true
       else emit_output process_id docker_notice "system" session_id;;
            mret false
     else mret false);
  let '(cmd, stdin_pipe) :=
    build_command use_docker code_needs_input docker_packages
                  temp_dir temp_filename in
  process ← popen_call cmd stdin_pipe PIPE PIPE temp_dir;
  assign_process process;;
  modify_world (mutate_regs (set_running_processes (insert process_id process)));;
  emit_output process_id started_notice "system" session_id;;
  mret process.

(** which [break] left the monitoring loop *)
Inductive loop_exit := ProcessFinished | TimedOut | QueueRemoved.

(** lines 286-321: one pass of the [while True] loop; [None] when the
    pass reaches [time.sleep] and the loop goes on *)
Definition iteration (n : nat) (process : nat) (process_id session_id : string)
    (timeout_seconds start_time : Z) : M (option loop_exit) :=
  rc ← poll process;
  match (rc : option Z) with
  | Some _ => mret (Some ProcessFinished)
  | None =>
      now ← time_time;
      if timeout_seconds * 1000 <? now - start_time then
        try_pass (kill process);;
        emit_output process_id (timeout_message timeout_seconds) "error" session_id;;
        mret (Some TimedOut)
      else
        arrivals n process_id;;
        brk ← try_except
          (user_input ← queue_get process_id;
           stdin ← has_stdin process;
           (if (stdin : bool) then
              try_except
                (stdin_write n process user_input;;
                 emit (input_received process_id) session_id)
                (fun e => match exn_cls e with
                          | BrokenPipeError => mret tt
                          | _ => raise e
                          end)
            else mret tt);;
           mret false)
          (fun e => match exn_cls e with
                    | QueueEmpty => mret false
                    | KeyError => mret true
                    | _ => raise e
                    end);
        if (brk : bool) then mret (Some QueueRemoved)
        else sleep n;; mret None
  end.

Fixpoint monitor (fuel n : nat) (process : nat) (process_id session_id : string)
    (timeout_seconds start_time : Z) : M loop_exit :=
  match fuel with
  | O => out_of_fuel
  | S fuel' =>
      r ← iteration n process process_id session_id timeout_seconds start_time;
      match (r : option loop_exit) with
      | Some x => mret x
      | None => monitor fuel' (S n) process process_id session_id
                        timeout_seconds start_time
      end
  end.

(** lines 323-334: after the joins on the reader threads, the completion
    signal *)
Definition finish (process : nat) (process_id session_id : string) : M unit :=
  rc ← poll process;
  let status :=
    match (rc : option Z) with
    | Some returncode => if returncode =? 0 then "completed" else "finished"
    | None => "finished"
    end in
  emit (code_complete process_id status) session_id.

(** lines 182-334: the body of the [try] *)
Definition supervise (fuel : nat) (code process_id session_id : string)
    (code_needs_input : bool) (timeout_seconds : Z) (use_docker : bool)
    (docker_packages : list string) : M unit :=
  process ← prepare code process_id session_id code_needs_input
                    use_docker docker_packages;
  start_time ← time_time;
  monitor fuel O process process_id session_id timeout_seconds start_time;;
  finish process process_id session_id.

(** lines 336-341: [except Exception as e] *)
Definition on_error (process_id session_id : string) (e : exn) : M unit :=
  emit_output process_id (error_message e) "error" session_id.

Definition pass_KeyError (c : M unit) : M unit :=
  try_except c (fun e => match exn_cls e with
                         | KeyError => mret tt
                         | _ => raise e
                         end).

(** lines 344-355: the registry entries of the execution *)
Definition unregister (process_id : string) : M unit :=
  w ← get_world;
  (if bool_decide (is_Some (running_processes (regs w) !! process_id))
   then del_running_processes process_id else mret tt);;
  w ← get_world;
  (if bool_decide (is_Some (input_queues (regs w) !! process_id))
   then pass_KeyError (del_input_queues process_id) else mret tt);;
  w ← get_world;
  (if bool_decide (is_Some (process_needs_input (regs w) !! process_id))
   then pass_KeyError (del_process_needs_input process_id) else mret tt).

(** lines 356-361: terminate process if still alive *)
Definition terminate_if_alive : M unit :=
  try_pass
    (fr ← get_frame;
     match process fr with
     | Some h =>
         rc ← poll h;
         match (rc : option Z) with
         | None => kill h
         | Some _ => mret tt
         end
     | None => mret tt
     end).

(** lines 362-369: remove temp files/dir *)
Definition remove_workspace : M unit :=
  try_pass
    (fr ← get_frame;
     match temp_filename fr with
     | Some p => ex ← path_exists p; if (ex : bool) then unlink p else mret tt
     | None => mret tt
     end;;
     match temp_dir fr with
     | Some d => ex ← path_exists d; if (ex : bool) then rmdir d else mret tt
     | None => mret tt
     end).

(** lines 342-369: the [finally] block *)
Definition cleanup (process_id : string) : M unit :=
  unregister process_id;;
  terminate_if_alive;;
  remove_workspace.

Definition run_code_with_input (fuel : nat) (code process_id session_id : string)
    (code_needs_input : bool) (timeout_seconds : Z) (use_docker : bool)
    (docker_packages : list string) : M unit :=
  try_finally
    (try_except
       (supervise fuel code process_id session_id code_needs_input
                  timeout_seconds use_docker docker_packages)
       (on_error process_id session_id))
    (cleanup process_id).

(** the thread started by [run_code]; the defaults are those of the
    signature of [run_code_with_input] *)
Definition run_thread (fuel : nat) (a : thread_args) : M unit :=
  run_code_with_input fuel (ta_code a) (ta_process_id a) (ta_session_id a)
    (ta_code_needs_input a) (default 120 (ta_timeout_seconds a))
    (default false (ta_use_docker a))
    (default [] (ta_docker_packages a)).

End Supervisor.

Definition initial_frame : frame := Frame None None None.


(** ** The older variant, [aappp.py]

  The same handlers and supervisor before the timeout and docker
  parameters were added: the classifier is a substring test, the timeout
  is a constant 30 seconds, the program is written to a named temporary
  file, and a program that needs no input is run with
  [process.communicate]. *)

Module Legacy.

(** what [process.communicate(timeout=...)] does *)
Inductive communicate_result :=
  | Communicated (stdout stderr : string)
  | CommunicateTimeout
  | CommunicateRaises (e : exn).

Record environment := Env {
  env_tempfile : string + exn;       (* [tempfile.NamedTemporaryFile]: the
                                        name of the new file *)
  env_write : option exn;            (* writing and flushing the code *)
  env_popen : option exn;            (* what [subprocess.Popen] raises *)
  env_communicate : communicate_result;        (* line 132 *)
  env_exit : nat -> option Z;
  env_tick : nat -> tick;
  env_communicate_rest : communicate_result    (* line 244 *)
}.

(** line 69: ["input(" in code] *)
Definition code_needs_input (code : string) : bool :=
  Str.contains "input(" code.

(** [/run_code], lines 51-94 *)
Definition run_code (uuid4 : string) (data : run_request) (w : world)
  : response * world :=
  let code := rq_code data in
  let session_id := rq_session_id data in
  let user_input := rq_user_input data in
  let process_id := rq_process_id data in
  if truthy_opt process_id && Str.nonempty user_input then
    let process_id := default "" process_id in
    match input_queues (regs w) !! process_id with
    | Some _ =>
        (Response "input_sent" "Input sent to process" [],
         queue_put process_id (user_input +:+ nl) w)
    | None =>
        (Response "error" "Process not found or completed" [], w)
    end
  else
    let code_needs_input := code_needs_input code in
    let process_id := uuid4 in
    let w := mutate_regs (set_input_queues (insert process_id [])) w in
    let w := mutate_regs (set_process_needs_input (insert process_id code_needs_input)) w in
    let w := set_threads (fun l => l ++
               [ThreadArgs code process_id session_id code_needs_input
                           None None None]) w in
    (Response "started" "Code execution started successfully"
       [("process_id", JStr process_id); ("needs_input", JBool code_needs_input)],
     w).

(** [/provide_input], lines 294-307 *)
Definition provide_input (data : input_request) (w : world) : response * world :=
  let process_id := ir_process_id data in
  let user_input := ir_user_input data in
  if negb (truthy_opt process_id) || negb (Str.nonempty user_input) then
    (Response "error" "Process ID and input are required" [], w)
  else
    let process_id := default "" process_id in
    match input_queues (regs w) !! process_id with
    | Some _ =>
        (Response "success" "Input sent to process" [],
         queue_put process_id (user_input +:+ nl) w)
    | None =>
        (Response "error" "Process not found or completed" [], w)
    end.

Definition feed_inputs (process_id : string) (inputs : list string) (w : world)
  : world :=
  foldl (fun w user_input =>
           snd (provide_input (InputRequest (Some process_id) user_input) w))
        w inputs.

Section Supervisor.

Variable env : environment.

Definition timeout_notice : string :=
  nl +:+ "⏰ Error: Code execution timed out (30 seconds)" +:+ nl.
Definition error_notice (e : exn) : string :=
  nl +:+ "❌ Error: " +:+ exn_str e +:+ nl.

(** lines 102-105: the temporary file; its name is the value of the block *)
Definition write_tempfile : M string :=
  match env_tempfile env with
  | inl name =>
      modify_world (set_files (fun fs => {[name]} ∪ fs));;
      match env_write env with
      | Some e => raise e
      | None => mret name
      end
  | inr e => raise e
  end.

(** lines 108-116 *)
Definition popen_call (cmd : list string) (stdin stdout stderr : stdio) : M nat :=
  match env_popen env with
  | Some e => raise e
  | None =>
      w ← get_world;
      modify_world (set_procs (fun l =>
        l ++ [Popen cmd stdin stdout stderr None None false []]));;
      mret (length (procs w))
  end.

Definition poll (h : nat) : M (option Z) :=
  w ← get_world;
  match procs w !! h with
  | Some p =>
      match p_returncode p with
      | Some rc => mret (Some rc)
      | None =>
          let seen := env_exit env (polls w) in
          modify_world (set_polls S);;
          update_proc h (fun p =>
            Popen (p_cmd p) (p_stdin p) (p_stdout p) (p_stderr p) (p_cwd p)
                  seen (p_killed p) (p_written p));;
          mret seen
      end
  | None => mret None
  end.

(** [process.communicate(timeout=...)] *)
Definition communicate (res : communicate_result) : M (string * string) :=
  match res with
  | Communicated out err => mret (out, err)
  | CommunicateTimeout => raise (Exn TimeoutExpired "timed out")
  | CommunicateRaises e => raise e
  end.

Definition stdin_write (n : nat) (h : nat) (user_input : string) : M unit :=
  match tk_write (env_tick env n) with
  | Some e => raise e
  | None =>
      update_proc h (fun p =>
        Popen (p_cmd p) (p_stdin p) (p_stdout p) (p_stderr p) (p_cwd p)
              (p_returncode p) (p_killed p) (p_written p ++ [user_input]))
  end.

Definition arrivals (n : nat) (process_id : string) : M unit :=
  modify_world (feed_inputs process_id (tk_arrivals (env_tick env n))).

Definition sleep (n : nat) : M unit :=
  modify_world (set_clock (fun t => t + 50 + Z.of_N (tk_extra (env_tick env n)))).

Definition emit_outputs (process_id session_id : string) (out err : string) : M unit :=
  (if Str.nonempty out then emit_output process_id out "stdout" session_id
   else mret tt);;
  (if Str.nonempty err then emit_output process_id err "stderr" session_id
   else mret tt).

(** lines 128-170: a program that needs no input.  Every branch ends in
  [return]. *)
Definition run_without_input (process : nat) (process_id session_id : string)
  : M unit :=
  try_except
    ('(out, err) ← communicate (env_communicate env);
     emit_outputs process_id session_id out err;;
     emit (code_complete process_id "completed") session_id)
    (fun e =>
       match exn_cls e with
       | TimeoutExpired =>
           kill process;;
           emit_output process_id timeout_notice "error" session_id
       | _ => emit_output process_id (error_notice e) "error" session_id
       end).

(** lines 211-240: one pass of [while process.poll() is None]; [true] when
  the loop is left *)
Definition iteration (n : nat) (process : nat) (process_id session_id : string)
    (start_time : Z) : M bool :=
  rc ← poll process;
  match (rc : option Z) with
  | Some _ => mret true
  | None =>
      now ← time_time;
      if 30 * 1000 <? now - start_time then
        kill process;;
        emit_output process_id timeout_notice "error" session_id;;
        mret true
      else
        arrivals n process_id;;
        brk ← try_except
          (user_input ← queue_get process_id;
           stdin_write n process user_input;;
           emit (input_received process_id) session_id;;
           mret false)
          (fun e => match exn_cls e with
                    | QueueEmpty => mret false
                    | BrokenPipeError => mret true
                    | _ => raise e
                    end);
        if (brk : bool) then mret true
        else sleep n;; mret false
  end.

Fixpoint monitor (fuel n : nat) (process : nat) (process_id session_id : string)
    (start_time : Z) : M unit :=
  match fuel with
  | O => out_of_fuel
  | S fuel' =>
      left ← iteration n process process_id session_id start_time;
      if (left : bool) then mret tt
      else monitor fuel' (S n) process process_id session_id start_time
  end.

(** lines 172-264: a program that needs input.  The [read_output] thread
  publishes the child's output concurrently. *)
Definition run_with_input (fuel : nat) (process : nat)
    (process_id session_id : string) : M unit :=
  start_time ← time_time;
  monitor fuel O process process_id session_id start_time;;
  try_except
    ('(out, err) ← communicate (env_communicate_rest env);
     emit_outputs process_id session_id out err)
    (fun e => match exn_cls e with
              | TimeoutExpired => kill process
              | _ => raise e
              end);;
  emit (code_complete process_id "completed") session_id.

(** lines 101-264: the body of the [try] *)
Definition supervise (fuel : nat) (code process_id session_id : string)
    (code_needs_input : bool) : M unit :=
  temp_filename ← write_tempfile;
  assign_temp_filename temp_filename;;
  process ← popen_call [sys_executable; temp_filename]
                       (if code_needs_input then PIPE else NoPipe) PIPE PIPE;
  assign_process process;;
  modify_world (mutate_regs (set_running_processes (insert process_id process)));;
  emit_output process_id started_notice "system" session_id;;
  if negb code_needs_input
  then run_without_input process process_id session_id
  else run_with_input fuel process process_id session_id.

(** lines 266-277 *)
Definition on_error (process_id session_id : string) (e : exn) : M unit :=
  match exn_cls e with
  | TimeoutExpired => emit_output process_id timeout_notice "error" session_id
  | _ => emit_output process_id (error_notice e) "error" session_id
  end.

(** lines 278-291: the [finally] block *)
Definition cleanup (process_id : string) : M unit :=
  w ← get_world;
  (if bool_decide (is_Some (running_processes (regs w) !! process_id))
   then del_running_processes process_id else mret tt);;
  w ← get_world;
  (if bool_decide (is_Some (input_queues (regs w) !! process_id))
   then del_input_queues process_id else mret tt);;
  w ← get_world;
  (if bool_decide (is_Some (process_needs_input (regs w) !! process_id))
   then del_process_needs_input process_id else mret tt);;
  try_pass
    (fr ← get_frame;
     match temp_filename fr with
     | Some p => ex ← path_exists p; if (ex : bool) then unlink p else mret tt
     | None => mret tt
     end).

Definition run_code_with_input (fuel : nat) (code process_id session_id : string)
    (code_needs_input : bool) : M unit :=
  try_finally
    (try_except (supervise fuel code process_id session_id code_needs_input)
                (on_error process_id session_id))
    (cleanup process_id).

End Supervisor.

End Legacy.

(** ** The path normalizer ([_normalize_windows_paths_in_string_literals],
  lines 124-140)

  [run_code_with_input] writes the submitted code to [program.py] after
  this rewriting of its quoted literals. *)

Module Norm.

Definition backslash : ascii := "092"%char.

(** the one-character text of the test [in content] and the
  two-character text that [replace] looks for *)
Definition one_backslash : string := String backslash "".
Definition two_backslashes : string := String backslash (String backslash "").

(** [s.replace(old, new)] for a non-empty [old]: the occurrences of [old]
  from left to right, none overlapping the one before; [skip] characters
  of a replaced occurrence are still to be passed *)
Fixpoint replace_from (old new : string) (skip : nat) (s : string) : string :=
  match s with
  | EmptyString => EmptyString
  | String c t =>
      match skip with
      | S k => replace_from old new k t
      | O =>
          if Str.prefix old s
          then new +:+ replace_from old new (String.length old - 1) t
          else String c (replace_from old new O t)
      end
  end.

Definition replace (old new s : string) : string := replace_from old new O s.

(** [$] without [re.M]: the end of the text, or the place before a newline
  that ends the text *)
Definition at_end (s : string) : bool :=
  match s with
  | EmptyString => true
  | String c EmptyString => Ascii.eqb c Chars.newline
  | _ => false
  end.

(** [(?:$|\W)] *)
Definition end_or_nonword (s : string) : bool :=
  at_end s
  || match s with
     | String c _ => negb (Chars.re_word c)
     | EmptyString => false
     end.

(** [\w{1,k}(?:$|\W)] *)
Fixpoint extension (k : nat) (s : string) : bool :=
  match k, s with
  | S k', String c t => Chars.re_word c && (extension k' t || end_or_nonword t)
  | _, _ => false
  end.

(** [\.\w{1,5}(?:$|\W)] *)
Definition dot_extension : Re.probe := fun _ s =>
  match s with
  | String c t => Ascii.eqb c "."%char && extension 5 t
  | EmptyString => false
  end.

(** [re.sub(p, repl, s)] with a function [repl] of the matched text, for
  a pattern that matches no empty text *)
Fixpoint sub_with (m : Re.matcher) (repl : string -> string) (skip : nat)
    (s : string) : string :=
  match s with
  | EmptyString => EmptyString
  | String c t =>
      match skip with
      | S k => sub_with m repl k t
      | O =>
          match m s with
          | Some (S k) => repl (Str.take (S k) s) +:+ sub_with m repl k t
          | _ => String c (sub_with m repl O t)
          end
      end
  end.

(** [repl(m)] for the matched text [m.group(0)]: the first character is
  [m.group(1)], what lies between it and the last character is
  [m.group(2)] *)
Definition repl (group0 : string) : string :=
  match group0 with
  | String quote rest =>
      let content := Str.take (String.length rest - 1) rest in
      if Str.contains one_backslash content && Re.search dot_extension content
      then
        let new_content := replace two_backslashes "/" content in
        String quote (new_content +:+ String quote "")
      else group0
  | EmptyString => group0
  end.

(** the pattern, under [re.S]: a quote of either kind, the shortest text
  up to the next quote of that kind, and that quote, which is
  [Re.quoted] *)
Definition _normalize_windows_paths_in_string_literals (src : string) : string :=
  sub_with Re.quoted repl O src.

End Norm.

(** ** The second [_copy_session_datasets_to_temp] of [app.py]

  [app.py] defines [_copy_session_datasets_to_temp] twice: at lines
  142-173, the definition embedded above, and again at lines 682-700,
  after the last route.  The whole module is executed before a request is
  served, so when [run_code_with_input] looks the name up it finds the
  second definition, which copies to [data/] only and makes no mirror
  under [datasets/<session_id>/].  This module is the supervisor with
  that definition; everything else is the code above. *)

Module Rebound.

Section Supervisor.

Variable env : environment.

(** lines 694-700: the copies of the files of the upload directory; the
    second flag of a file, the success of the copy to the mirror, is not
    looked at *)
Fixpoint copy_session_files (fs : list (string * bool * bool))
    (target_dir : string) : M unit :=
  match fs with
  | [] => mret tt
  | (f, ok_dst, _) :: fs' =>
      copy2_or_pass ok_dst (path_join target_dir f);;
      copy_session_files fs' target_dir
  end.

(** lines 682-700, for an upload directory without sub-directories *)
Definition _copy_session_datasets_to_temp (session_id temp_dir : string) : M unit :=
  match env_session_files env with
  | None => mret tt
  | Some fs =>
      let dest_root := path_join temp_dir "data" in
      makedirs dest_root;;
      copy_session_files fs dest_root
  end.

(** lines 182-281 of [run_code_with_input], calling the definition above *)
Definition prepare (code process_id session_id : string)
    (code_needs_input use_docker : bool) (docker_packages : list string)
  : M nat :=
  temp_dir ← mkdtemp env;
  assign_temp_dir temp_dir;;
  let temp_filename := path_join temp_dir "program.py" in
  assign_temp_filename temp_filename;;
  write_program env temp_filename;;
  try_pass
    (_copy_session_datasets_to_temp session_id temp_dir;;
     d ← isdir (path_join temp_dir "data");
     if (d : bool) then emit_output process_id datasets_notice "system" session_id
     else mret tt);;
  use_docker ←
    (if use_docker then
       if env_docker env then mret true
       else emit_output process_id docker_notice "system" session_id;;
            mret false
     else mret false);
  let '(cmd, stdin_pipe) :=
    build_command use_docker code_needs_input docker_packages
                  temp_dir temp_filename in
  process ← popen_call env cmd stdin_pipe PIPE PIPE temp_dir;
  assign_process process;;
  modify_world (mutate_regs (set_running_processes (insert process_id process)));;
  emit_output process_id started_notice "system" session_id;;
  mret process.

(** lines 182-334: the body of the [try] *)
Definition supervise (fuel : nat) (code process_id session_id : string)
    (code_needs_input : bool) (timeout_seconds : Z) (use_docker : bool)
    (docker_packages : list string) : M unit :=
  process ← prepare code process_id session_id code_needs_input
                    use_docker docker_packages;
  start_time ← time_time;
  monitor env fuel O process process_id session_id timeout_seconds start_time;;
  finish env process process_id session_id.

Definition run_code_with_input (fuel : nat) (code process_id session_id : string)
    (code_needs_input : bool) (timeout_seconds : Z) (use_docker : bool)
    (docker_packages : list string) : M unit :=
  try_finally
    (try_except
       (supervise fuel code process_id session_id code_needs_input
                  timeout_seconds use_docker docker_packages)
       (on_error process_id session_id))
    (cleanup env process_id).

End Supervisor.

End Rebound.

(** ** The sessions of the collaborative editor

  The handlers of [app.py] that keep the module-level dictionary
  [sessions] (lines 44-61 and 388-618; those of [aappp.py], lines 32-49
  and 309-532, are the same statements).  A Python [dict] is an
  association list in insertion order: [handle_user_leave] takes the
  first session and the first participant in that order.  The Socket.IO
  handlers get [request.sid] as the argument [sid]; the fields of an
  event's [data] are strings, [None] when absent. *)

Module Collab.

Definition odict (V : Type) : Type := list (string * V).

Section Odict.

Context {V : Type}.

(** [d.get(k)] *)
Fixpoint get (k : string) (d : odict V) : option V :=
  match d with
  | [] => None
  | (k', v) :: d' => if decide (k = k') then Some v else get k d'
  end.

(** [k in d] *)
Definition mem (k : string) (d : odict V) : bool :=
  match get k d with Some _ => true | None => false end.

(** [d[k] = v]: a new key goes last, a known key keeps its place *)
Fixpoint set (k : string) (v : V) (d : odict V) : odict V :=
  match d with
  | [] => [(k, v)]
  | (k', v') :: d' =>
      if decide (k = k') then (k, v) :: d' else (k', v') :: set k v d'
  end.

(** [del d[k]] for a key of [d] *)
Fixpoint del (k : string) (d : odict V) : odict V :=
  match d with
  | [] => []
  | (k', v') :: d' => if decide (k = k') then d' else (k', v') :: del k d'
  end.

Definition keys (d : odict V) : list string := d.*1.

End Odict.

(** [l[-n:]] for a positive [n] *)
Definition last_n {A} (n : nat) (l : list A) : list A :=
  drop (length l - n) l.

(** [s.strip()] *)
Fixpoint rstrip (s : string) : string :=
  match s with
  | EmptyString => EmptyString
  | String c t =>
      match rstrip t with
      | EmptyString => if Chars.re_space c then EmptyString else String c EmptyString
      | t' => String c t'
      end
  end.

Definition strip (s : string) : string := rstrip (Re.skip_space s).

(** the value of [session["participants"][sid]] *)
Record participant := Participant {
  name : string;
  sid : string
}.

Record chat_message := ChatMessage {
  id : string;
  sender_sid : string;
  sender_name : string;
  message : string;
  timestamp : Z;             (* [time.time()], in milliseconds *)
  time_display : string
}.

Record session := Session {
  content : string;
  participants : odict participant;
  host_id : option string;
  writer_id : option string;
  chat_messages : list chat_message
}.

(** what [emit] of [flask_socketio] sends *)
Inductive packet :=
  | error (msg : string)
  | code_update (content : string)
  | chat_history (messages : list chat_message)
  | participants_update (participants : odict participant)
                        (writer_id host_id : option string)
  | webrtc_offer (sdp : option json) (sid : string)
  | webrtc_answer (sdp : option json) (sid : string)
  | webrtc_ice_candidate (candidate : option json) (sid : string)
  | new_chat_message (m : chat_message).

(** to whom: without [room] and [to], the client whose event is being
  handled; with [room=r] or [to=r], the clients of the room [r] (every
  client is in the room named by its own sid), the sender left out when
  [include_self] is false *)
Inductive recipient :=
  | to_caller
  | to_room (room : string) (include_self : bool).

Record delivery := Deliver {
  dl_packet : packet;
  dl_caller : string;
  dl_to : recipient
}.

(** the server: the dictionary [sessions], what was sent so far, and the
  [join_room] calls made so far as pairs (sid, room) *)
Record server := Server {
  sessions : odict session;
  sent : list delivery;
  rooms : list (string * string)
}.

Definition empty_server : server := Server [] [] [].

Definition emit (p : packet) (caller : string) (to : recipient) (sv : server)
  : server :=
  Server (sessions sv) (sent sv ++ [Deliver p caller to]) (rooms sv).

Definition join_room (caller room : string) (sv : server) : server :=
  Server (sessions sv) (sent sv) (rooms sv ++ [(caller, room)]).

(** [sessions[session_id] = session], and the writes through the
  reference [session = sessions[session_id]] *)
Definition store (session_id : string) (s : session) (sv : server) : server :=
  Server (set session_id s (sessions sv)) (sent sv) (rooms sv).

(** [sessions[session_id]] when [session_id in sessions]; a missing
  [session_id] is [None], which is no key *)
Definition lookup (session_id : option string) (sv : server)
  : option (string * session) :=
  match session_id with
  | Some k => match get k (sessions sv) with
              | Some s => Some (k, s)
              | None => None
              end
  | None => None
  end.

Definition with_content (c : string) (s : session) : session :=
  Session c (participants s) (host_id s) (writer_id s) (chat_messages s).
Definition with_participants (p : odict participant) (s : session) : session :=
  Session (content s) p (host_id s) (writer_id s) (chat_messages s).
Definition with_host_id (h : option string) (s : session) : session :=
  Session (content s) (participants s) h (writer_id s) (chat_messages s).
Definition with_writer_id (w : option string) (s : session) : session :=
  Session (content s) (participants s) (host_id s) w (chat_messages s).
Definition with_chat_messages (m : list chat_message) (s : session) : session :=
  Session (content s) (participants s) (host_id s) (writer_id s) m.

Definition welcome : string :=
  "# Welcome to SIREN Collaborative Editor" +:+ nl
  +:+ "# Start coding in Python..." +:+ nl
  +:+ "print('Hello, World!')".

(** [/create_session]; [uuid4] is [str(uuid.uuid4())].  The value is the
  [session_id] of the response. *)
Definition create_session (uuid4 : string) (sv : server) : string * server :=
  let session_id := Str.take 8 uuid4 in
  let sv := store session_id (Session welcome [] None None []) sv in
  (session_id, sv).

(** [/editor/<session_id>]: the status code of the response *)
Definition editor (session_id : string) (sv : server) : Z :=
  if mem session_id (sessions sv) then 200 else 404.

(** what a handler's call ends with: it returns, or an exception leaves
  it *)
Inductive result := Returned | Raised (e : exn).

(** [emit_participants_update(session_id)] *)
Definition emit_participants_update (session_id caller : string) (sv : server)
  : server :=
  match get session_id (sessions sv) with
  | Some session =>
      emit (participants_update (participants session) (writer_id session)
                                (host_id session))
           caller (to_room session_id true) sv
  | None => sv
  end.

Record join_data := JoinData {
  jd_session_id : option string;
  jd_name : option string
}.

(** [join_session] *)
Definition handle_join (data : join_data) (sid : string) (sv : server) : server :=
  let session_id := jd_session_id data in
  let name := default "Anonymous" (jd_name data) in
  match lookup session_id sv with
  | None => emit (error "Session not found") sid to_caller sv
  | Some (session_id, session) =>
      let sv := join_room sid session_id sv in
      let session :=
        match participants session with
        | [] => with_writer_id (Some sid) (with_host_id (Some sid) session)
        | _ => session
        end in
      let session :=
        with_participants (set sid (Participant name sid) (participants session))
                          session in
      let sv := store session_id session sv in
      let sv := emit (code_update (content session)) sid to_caller sv in
      let sv :=
        match chat_messages session with
        | [] => sv
        | _ => emit (chat_history (last_n 50 (chat_messages session)))
                    sid to_caller sv
        end in
      emit_participants_update session_id sid sv
  end.

(** the first session, in the order of [sessions.items()], that has [sid]
  among its participants *)
Fixpoint session_of (sid : string) (ss : odict session)
  : option (string * session) :=
  match ss with
  | [] => None
  | (session_id, session) :: ss' =>
      if mem sid (participants session) then Some (session_id, session)
      else session_of sid ss'
  end.

(** [handle_user_leave]: the body of the loop runs for the first session
  that has [sid], then the loop is left *)
Definition handle_user_leave (sid : string) (sv : server) : server :=
  match session_of sid (sessions sv) with
  | None => sv
  | Some (session_id, session) =>
      let session := with_participants (del sid (participants session)) session in
      let session :=
        if decide (host_id session = Some sid) then
          match participants session with
          | (new_host_sid, _) :: _ =>
              with_writer_id (Some new_host_sid)
                (with_host_id (Some new_host_sid) session)
          | [] => with_writer_id None (with_host_id None session)
          end
        else session in
      let sv := store session_id session sv in
      emit_participants_update session_id sid sv
  end.

(** [disconnect] *)
Definition handle_disconnect (sid : string) (sv : server) : server :=
  handle_user_leave sid sv.

(** [get_participants] *)
Definition handle_get_participants (session_id : option string) (sid : string)
    (sv : server) : server :=
  match lookup session_id sv with
  | Some (_, session) =>
      emit (participants_update (participants session) (writer_id session)
                                (host_id session))
           sid to_caller sv
  | None => sv
  end.

(** [session['participants'][k]['name']] in a [print]: a [KeyError] for a
  [k] that is no participant *)
Definition name_of (k : string) (session : session) : result :=
  match get k (participants session) with
  | Some _ => Returned
  | None => Raised (Exn KeyError k)
  end.

Record code_change_data := CodeChangeData {
  cc_session_id : option string;
  cc_content : string           (* [""] when absent *)
}.

(** [code_change] *)
Definition handle_code_change (data : code_change_data) (sid : string)
    (sv : server) : result * server :=
  let session_id := cc_session_id data in
  let content := cc_content data in
  match lookup session_id sv with
  | Some (session_id, session) =>
      if decide (writer_id session = Some sid) then
        let session := with_content content session in
        let sv := store session_id session sv in
        let sv := emit (code_update content) sid (to_room session_id false) sv in
        (name_of sid session, sv)
      else (Returned, sv)
  | None => (Returned, sv)
  end.

Record grant_data := GrantData {
  gd_session_id : option string;
  gd_target_sid : option string
}.

(** [grant_write] *)
Definition handle_grant_write (data : grant_data) (sid : string) (sv : server)
  : result * server :=
  let session_id := gd_session_id data in
  let target_sid := gd_target_sid data in
  match lookup session_id sv with
  | Some (session_id, session) =>
      match target_sid with
      | Some target_sid =>
          if bool_decide (host_id session = Some sid)
             && mem target_sid (participants session) then
            let session := with_writer_id (Some target_sid) session in
            let sv := store session_id session sv in
            let sv := emit_participants_update session_id sid sv in
            (name_of target_sid session, sv)
          else (Returned, sv)
      | None => (Returned, sv)
      end
  | None => (Returned, sv)
  end.

(** [revoke_write] *)
Definition handle_revoke_write (session_id : option string) (sid : string)
    (sv : server) : result * server :=
  match lookup session_id sv with
  | Some (session_id, session) =>
      if decide (host_id session = Some sid) then
        let session := with_writer_id (Some sid) session in
        let sv := store session_id session sv in
        let sv := emit_participants_update session_id sid sv in
        (name_of sid session, sv)
      else (Returned, sv)
  | None => (Returned, sv)
  end.

Record relay_data := RelayData {
  rd_target : option string;
  rd_payload : option json      (* the field [sdp] or [candidate] *)
}.

(** [webrtc_offer], [webrtc_answer], [webrtc_ice_candidate] *)
Definition handle_webrtc_offer (data : relay_data) (sid : string) (sv : server)
  : server :=
  match rd_target data with
  | Some target_sid =>
      if Str.nonempty target_sid
      then emit (webrtc_offer (rd_payload data) sid) sid (to_room target_sid true) sv
      else sv
  | None => sv
  end.

Definition handle_webrtc_answer (data : relay_data) (sid : string) (sv : server)
  : server :=
  match rd_target data with
  | Some target_sid =>
      if Str.nonempty target_sid
      then emit (webrtc_answer (rd_payload data) sid) sid (to_room target_sid true) sv
      else sv
  | None => sv
  end.

Definition handle_webrtc_ice_candidate (data : relay_data) (sid : string)
    (sv : server) : server :=
  match rd_target data with
  | Some target_sid =>
      if Str.nonempty target_sid
      then emit (webrtc_ice_candidate (rd_payload data) sid) sid
                (to_room target_sid true) sv
      else sv
  | None => sv
  end.

Record chat_data := ChatData {
  cd_session_id : option string;
  cd_message : string           (* [""] when absent *)
}.

(** what the handler of a chat message reads from outside: [uuid4] is
  [str(uuid.uuid4())], [now] is [time.time()] and [hhmm] is
  [datetime.now().strftime("%H:%M")] *)
Record chat_stamp := ChatStamp {
  cs_uuid4 : string;
  cs_now : Z;
  cs_hhmm : string
}.

(** [send_chat_message] *)
Definition handle_chat_message (stamp : chat_stamp) (data : chat_data)
    (sid : string) (sv : server) : server :=
  let session_id := cd_session_id data in
  let message_text := strip (cd_message data) in
  if negb (truthy_opt session_id) then sv else
  match lookup session_id sv with
  | None => sv
  | Some (session_id, session) =>
      if negb (Str.nonempty message_text) then sv else
      match get sid (participants session) with
      | None => sv
      | Some sender_info =>
          let sender_name := name sender_info in
          let chat_message :=
            ChatMessage (Str.take 8 (cs_uuid4 stamp)) sid sender_name
                        message_text (cs_now stamp) (cs_hhmm stamp) in
          let session :=
            with_chat_messages (chat_messages session ++ [chat_message]) session in
          let session :=
            if (100 <? length (chat_messages session))%nat
            then with_chat_messages (last_n 100 (chat_messages session)) session
            else session in
          let sv := store session_id session sv in
          emit (new_chat_message chat_message) sid (to_room session_id true) sv
      end
  end.

(** [get_chat_history] *)
Definition handle_get_chat_history (session_id : option string) (sid : string)
    (sv : server) : server :=
  match lookup session_id sv with
  | Some (_, session) =>
      match chat_messages session with
      | [] => sv
      | _ => emit (chat_history (last_n 50 (chat_messages session)))
                  sid to_caller sv
      end
  | None => sv
  end.

(** one request to the server *)
Inductive request :=
  | CreateSession (uuid4 : string)
  | JoinSession (data : join_data) (sid : string)
  | Disconnect (sid : string)
  | GetParticipants (session_id : option string) (sid : string)
  | CodeChange (data : code_change_data) (sid : string)
  | GrantWrite (data : grant_data) (sid : string)
  | RevokeWrite (session_id : option string) (sid : string)
  | WebrtcOffer (data : relay_data) (sid : string)
  | WebrtcAnswer (data : relay_data) (sid : string)
  | WebrtcIceCandidate (data : relay_data) (sid : string)
  | SendChatMessage (stamp : chat_stamp) (data : chat_data) (sid : string)
  | GetChatHistory (session_id : option string) (sid : string).

(** the routes: which handler serves a request *)
Definition serve (rq : request) (sv : server) : result * server :=
  match rq with
  | CreateSession uuid4 => (Returned, snd (create_session uuid4 sv))
  | JoinSession data sid => (Returned, handle_join data sid sv)
  | Disconnect sid => (Returned, handle_disconnect sid sv)
  | GetParticipants session_id sid =>
      (Returned, handle_get_participants session_id sid sv)
  | CodeChange data sid => handle_code_change data sid sv
  | GrantWrite data sid => handle_grant_write data sid sv
  | RevokeWrite session_id sid => handle_revoke_write session_id sid sv
  | WebrtcOffer data sid => (Returned, handle_webrtc_offer data sid sv)
  | WebrtcAnswer data sid => (Returned, handle_webrtc_answer data sid sv)
  | WebrtcIceCandidate data sid =>
      (Returned, handle_webrtc_ice_candidate data sid sv)
  | SendChatMessage stamp data sid =>
      (Returned, handle_chat_message stamp data sid sv)
  | GetChatHistory session_id sid =>
      (Returned, handle_get_chat_history session_id sid sv)
  end.

(** the requests of a list, served one after the other; an exception that
  leaves a handler ends that request only *)
Definition serve_all (rqs : list request) (sv : server) : server :=
  foldl (fun sv rq => snd (serve rq sv)) sv rqs.

End Collab.

(** * Properties *)

(** ** The classifier on small sources *)

Example strip_ex1 :
  _strip_strings_and_comments ("x = input(" +:+ dq "n? " +:+ ")  # read") = "x = input()  ".
Proof. vm_compute. reflexivity. Qed.

Example strip_ex2 :
  _strip_strings_and_comments ("inp" +:+ dq "input(" +:+ "ut(x)") = "input(x)".
Proof. vm_compute. reflexivity. Qed.

Example cls_ex1 : code_needs_input ("print(" +:+ dq "call input() now" +:+ ")") = false.
Proof. vm_compute. reflexivity. Qed.

Example cls_ex2 : code_needs_input ("inp" +:+ dq "input(" +:+ "ut(x)") = true.
Proof. vm_compute. reflexivity. Qed.

Example cls_ex3 : code_needs_input "import sys; x = sys.stdin.read()" = true.
Proof. vm_compute. reflexivity. Qed.

Example cls_ex4 : code_needs_input "my_input(3); sys.stdin2" = false.
Proof. vm_compute. reflexivity. Qed.

(** ** The classifier *)

(** A source text cut into code fragments, quoted literals and line
  comments. *)
Inductive token :=
  | Code (text : string)
  | DQ (body : string)        (* a text between two double quotes *)
  | SQ (body : string)        (* a text between two single quotes *)
  | TDQ (body : string)       (* a text between two runs of three double
                                 quotes *)
  | TSQ (body : string)       (* a text between two runs of three single
                                 quotes *)
  | Comment (body : string).  (* [#] and the rest of the line *)

Definition sq (body : string) : string :=
  String Chars.squote (body +:+ String Chars.squote "").

Definition tq (c : ascii) (body : string) : string :=
  Re.q3 c +:+ body +:+ Re.q3 c.

Definition q2 (c : ascii) : string := String c (String c "").

Definition render_token (t : token) : string :=
  match t with
  | Code s => s
  | DQ b => dq b
  | SQ b => sq b
  | TDQ b => tq Chars.dquote b
  | TSQ b => tq Chars.squote b
  | Comment b => String Chars.hash b
  end.

Fixpoint render (toks : list token) : string :=
  match toks with
  | [] => ""
  | t :: r => render_token t +:+ render r
  end.

(** the code fragments, joined *)
Fixpoint code_of (toks : list token) : string :=
  match toks with
  | [] => ""
  | Code s :: r => s +:+ code_of r
  | _ :: r => code_of r
  end.











Lemma append_assoc (a b c : string) : (a +:+ b) +:+ c = a +:+ (b +:+ c).
Proof.
  induction a as [|x a IH]; [reflexivity |].
  change (String x ((a +:+ b) +:+ c) = String x (a +:+ (b +:+ c))).
  by rewrite IH.
Qed.

Lemma mem_cons_false (c x : ascii) (a : string) :
  Str.mem c (String x a) = false -> x <> c /\ Str.mem c a = false.
Proof.
  simpl. intros [H1 H2]%orb_false_iff. split; [| done].
  by apply Ascii.eqb_neq.
Qed.



Lemma find_char (c : ascii) (body rest : string) :
  Str.mem c body = false ->
  Str.find (String c "") (body +:+ String c rest) = Some (String.length body).
Proof.
  induction body as [|x b IH]; intros Hb; simpl.
  - by rewrite Ascii.eqb_refl.
  - apply mem_cons_false in Hb as [Hx Hb].
    assert (Ascii.eqb c x = false) as -> by (apply Ascii.eqb_neq; congruence).
    by rewrite (IH Hb).
Qed.

Lemma delimited_char (c : ascii) (body rest : string) :
  Str.mem c body = false ->
  Re.delimited (Re.q1 c) (String c (body +:+ String c rest))
  = Some (S (String.length body + 1)).
Proof.
  intros Hb. unfold Re.delimited, Re.q1. simpl.
  rewrite Ascii.eqb_refl. by rewrite (find_char c body rest Hb).
Qed.

Lemma delimited_other (c x : ascii) (t : string) :
  x <> c -> Re.delimited (Re.q1 c) (String x t) = None.
Proof.
  intros Hx. unfold Re.delimited, Re.q1. simpl.
  by assert (Ascii.eqb c x = false) as -> by (apply Ascii.eqb_neq; congruence).
Qed.

Definition not_quote (c : ascii) : bool :=
  negb (Ascii.eqb c Chars.dquote) && negb (Ascii.eqb c Chars.squote).

Lemma quoted_none (c : ascii) (t : string) :
  not_quote c = true -> Re.quoted (String c t) = None.
Proof.
  unfold not_quote. intros [H1%negb_true_iff%Ascii.eqb_neq
                              H2%negb_true_iff%Ascii.eqb_neq]%andb_true_iff.
  unfold Re.quoted, Re.alt. by rewrite !delimited_other.
Qed.


Lemma quote_append (c : ascii) (body rest : string) :
  String c (body +:+ String c "") +:+ rest = String c (body +:+ String c rest).
Proof.
  change (String c ((body +:+ String c "") +:+ rest)
          = String c (body +:+ String c rest)).
  by rewrite append_assoc.
Qed.




(** *** First pattern: the triple-quoted literals go *)













(** *** Second pattern: the quoted literals go *)





(** *** Third pattern: the comments go *)



















(** ** The request handlers *)

Lemma nonempty_true (s : string) : Str.nonempty s = true <-> s <> "".
Proof. destruct s; simpl; split; congruence. Qed.

Lemma truthy_opt_true (o : option string) :
  truthy_opt o = true <-> exists s, o = Some s /\ s <> "".
Proof.
  destruct o as [s|]; simpl.
  - rewrite nonempty_true. split; [eauto | intros (s' & [= <-] & ?); done].
  - split; [done | intros (? & ? & ?); done].
Qed.


Lemma clamp_timeout_id (t : Z) : 1 <= t <= 300 -> clamp_timeout t = t.
Proof. unfold clamp_timeout. lia. Qed.



(** the same request with another [code] field *)
Definition with_code (code : string) (data : run_request) : run_request :=
  RunRequest code (rq_session_id data) (rq_user_input data) (rq_process_id data)
             (rq_timeout_seconds data) (rq_use_docker data) (rq_docker_packages data).

(** [w'] differs from [w] at most in the contents of the mailboxes *)
Definition only_mailboxes_differ (w w' : world) : Prop :=
  w' = set_regs (set_input_queues (fun _ => input_queues (regs w'))) w.

Lemma only_mailboxes_differ_refl (w : world) : only_mailboxes_differ w w.
Proof. unfold only_mailboxes_differ. by destruct w as [[] ]. Qed.

Lemma queue_put_only_mailboxes (pid line : string) (w : world) :
  only_mailboxes_differ w (queue_put pid line w).
Proof. unfold only_mailboxes_differ, queue_put. by destruct w as [[] ]. Qed.

Lemma queue_put_lookup (pid line : string) (w : world) (q : list string) :
  input_queues (regs w) !! pid = Some q ->
  input_queues (regs (queue_put pid line w)) !! pid = Some (q ++ [line]).
Proof. intros H. simpl. rewrite lookup_alter_eq, H. done. Qed.

Lemma queue_put_lookup_ne (pid line k : string) (w : world) :
  k <> pid ->
  input_queues (regs (queue_put pid line w)) !! k = input_queues (regs w) !! k.
Proof. intros H. simpl. by rewrite lookup_alter_ne. Qed.

Lemma queue_put_dom (pid line : string) (w : world) :
  dom (input_queues (regs (queue_put pid line w))) = dom (input_queues (regs w)).
Proof. simpl. apply dom_alter_L. Qed.

(** the feed branch of [/run_code] *)
Lemma run_code_feed (uuid4 : string) (data : run_request) (w : world) (pid : string) :
  rq_process_id data = Some pid -> pid <> "" -> rq_user_input data <> "" ->
  run_code uuid4 data w =
    match input_queues (regs w) !! pid with
    | Some _ => (Response "input_sent" "Input sent to process" [],
                 queue_put pid (rq_user_input data +:+ nl) w)
    | None => (Response "error" "Process not found or completed" [], w)
    end.
Proof.
  intros Hp Hne Hu. unfold run_code. rewrite Hp. simpl.
  apply nonempty_true in Hne, Hu. rewrite Hne, Hu. reflexivity.
Qed.

(** C9: a [/run_code] request with a process id and a non-empty
  [user_input] only feeds input: it starts no thread and no process, adds
  or removes no registry key, leaves every registry entry but the named
  mailbox as it was, and its outcome depends neither on the [code] field
  nor on the id a start would have allocated. *)
Theorem run_code_feed_frame (uuid4 : string) (data : run_request) (w : world)
    (pid : string) (resp : response) (w' : world) :
  rq_process_id data = Some pid -> pid <> "" -> rq_user_input data <> "" ->
  run_code uuid4 data w = (resp, w') ->
  fields resp = [] /\ status resp <> "started"
  /\ threads w' = threads w /\ procs w' = procs w /\ observed w' = observed w
  /\ running_processes (regs w') = running_processes (regs w)
  /\ process_needs_input (regs w') = process_needs_input (regs w)
  /\ dom (input_queues (regs w')) = dom (input_queues (regs w))
  /\ (forall k, k <> pid ->
        input_queues (regs w') !! k = input_queues (regs w) !! k)
  /\ only_mailboxes_differ w w'
  /\ (forall uuid4' code',
        run_code uuid4' (with_code code' data) w = (resp, w')).
Proof.
  intros Hp Hne Hu Hrun.
  assert (Hindep : forall uuid4' code',
             run_code uuid4' (with_code code' data) w = (resp, w')).
  { intros. rewrite <- Hrun.
    rewrite (run_code_feed uuid4 data w pid), (run_code_feed _ _ w pid); done. }
  rewrite (run_code_feed uuid4 data w pid) in Hrun by done.
  destruct (input_queues (regs w) !! pid) as [q|] eqn:Hq;
    injection Hrun as <- <-.
  - split_and!;
      first [ done | apply queue_put_dom | apply queue_put_only_mailboxes
            | intros k Hk; by apply queue_put_lookup_ne ].
  - split_and!; first [ done | apply only_mailboxes_differ_refl ].
Qed.

Lemma run_code_feed_frame_witness :
  let data := RunRequest "print(1)" "room" "42" (Some "p1") None false [] in
  let w := set_regs (set_input_queues (insert "p1" [])) empty_world in
  let r := run_code "fresh" data w in
  status (fst r) = "input_sent"
  /\ input_queues (regs (snd r)) !! "p1" = Some ["42" +:+ nl]
  /\ threads (snd r) = threads w
  /\ only_mailboxes_differ w (snd r).
Proof.
  intros data w r.
  pose proof (run_code_feed_frame "fresh" data w "p1" (fst r) (snd r)
                eq_refl ltac:(discriminate) ltac:(discriminate)
                ltac:(subst r; by destruct (run_code "fresh" data w))) as H.
  split; [reflexivity |]. split; [reflexivity |].
  split; [apply H | apply H].
Defined.

(** a mailbox line as the handlers build it *)
Definition submitted_line (l : string) : Prop :=
  exists user_input, user_input <> "" /\ l = user_input +:+ nl.

Definition mailboxes_ok (w : world) : Prop :=
  forall k q, input_queues (regs w) !! k = Some q -> Forall submitted_line q.

(** what a handler does to the mailboxes: each one is unchanged, or got
  the line [user_input + "\n"] of the request at its end, or is the empty
  mailbox of a new execution *)
Definition mailbox_step (user_input : string) (w w' : world) : Prop :=
  forall k q', input_queues (regs w') !! k = Some q' ->
    (input_queues (regs w) !! k = Some q')
    \/ (exists q, input_queues (regs w) !! k = Some q
                  /\ q' = q ++ [user_input +:+ nl] /\ user_input <> "")
    \/ q' = [].

Lemma queue_put_step (pid user_input : string) (w : world) :
  user_input <> "" ->
  mailbox_step user_input w (queue_put pid (user_input +:+ nl) w).
Proof.
  intros Hu k q' Hk. simpl in Hk.
  destruct (decide (k = pid)) as [->|Hne].
  - rewrite lookup_alter_eq in Hk.
    destruct (input_queues (regs w) !! pid) as [q|] eqn:Hq; [|done].
    injection Hk as <-. right. left. eauto.
  - rewrite lookup_alter_ne in Hk by done. by left.
Qed.

Lemma provide_input_step (data : input_request) (w : world) :
  mailbox_step (ir_user_input data) w (snd (provide_input data w)).
Proof.
  unfold provide_input.
  destruct (truthy_opt (ir_process_id data)) eqn:Hp; simpl;
    [| by intros k q' Hk; left].
  destruct (Str.nonempty (ir_user_input data)) eqn:Hu; simpl;
    [| by intros k q' Hk; left].
  destruct (input_queues (regs w) !! _) eqn:Hq; simpl; [| by intros k q' Hk; left].
  apply queue_put_step. by apply nonempty_true.
Qed.

Lemma run_code_step (uuid4 : string) (data : run_request) (w : world) :
  mailbox_step (rq_user_input data) w (snd (run_code uuid4 data w)).
Proof.
  unfold run_code.
  destruct (truthy_opt (rq_process_id data) && Str.nonempty (rq_user_input data))
    eqn:Hfeed.
  - apply andb_true_iff in Hfeed as [_ Hu].
    destruct (input_queues (regs w) !! _) eqn:Hq; simpl; [| by intros k q' Hk; left].
    apply queue_put_step. by apply nonempty_true.
  - intros k q' Hk. simpl in Hk.
    destruct (decide (k = uuid4)) as [->|Hne].
    + rewrite lookup_insert_eq in Hk. injection Hk as <-. by right; right.
    + rewrite lookup_insert_ne in Hk by done. by left.
Qed.

Lemma mailbox_step_ok (user_input : string) (w w' : world) :
  mailbox_step user_input w w' -> mailboxes_ok w -> mailboxes_ok w'.
Proof.
  intros Hstep Hok k q' Hk.
  destruct (Hstep k q' Hk) as [H | [(q & Hq & -> & Hu) | ->]].
  - by apply (Hok k).
  - apply Forall_app. split; [by apply (Hok k) |].
    apply Forall_singleton. by exists user_input.
  - constructor.
Qed.

(** the input-feed branch of [/provide_input] *)
Lemma provide_input_feed (data : input_request) (w : world) (pid : string) :
  ir_process_id data = Some pid -> pid <> "" -> ir_user_input data <> "" ->
  provide_input data w =
    match input_queues (regs w) !! pid with
    | Some _ => (Response "success" "Input sent to process" [],
                 queue_put pid (ir_user_input data +:+ nl) w)
    | None => (Response "error" "Process not found or completed" [], w)
    end.
Proof.
  intros Hp Hne Hu. unfold provide_input. rewrite Hp. simpl.
  apply nonempty_true in Hne, Hu. rewrite Hne, Hu. reflexivity.
Qed.

(** C7, as stated, fails: fed through [/provide_input], a line for a
  registered mailbox is answered with status [success], not
  [input_sent]. *)
Lemma provide_input_status_not_input_sent :
  let w := set_regs (set_input_queues (insert "p1" [])) empty_world in
  let r := provide_input (InputRequest (Some "p1") "5") w in
  input_queues (regs w) !! "p1" = Some []
  /\ input_queues (regs (snd r)) !! "p1" = Some ["5" +:+ nl]
  /\ status (fst r) = "success"
  /\ status (fst r) <> "input_sent".
Proof. split_and!; [reflexivity | reflexivity | reflexivity | discriminate]. Qed.

(** C7 (amended): an input-feed request naming a process id, with a
  non-empty line: if a mailbox is registered for the id, the line (with a
  newline) is appended to it and the status is [input_sent] on
  [/run_code] and [success] on [/provide_input]; if none is registered,
  both answer with status [error] and the message
  [Process not found or completed] and change nothing. *)
Theorem feed_response (uuid4 : string) (rq : run_request) (ir : input_request)
    (w : world) (pid user_input : string) :
  pid <> "" -> user_input <> "" ->
  rq_process_id rq = Some pid -> rq_user_input rq = user_input ->
  ir_process_id ir = Some pid -> ir_user_input ir = user_input ->
  (forall q, input_queues (regs w) !! pid = Some q ->
     exists w',
       input_queues (regs w') !! pid = Some (q ++ [user_input +:+ nl])
       /\ only_mailboxes_differ w w'
       /\ run_code uuid4 rq w = (Response "input_sent" "Input sent to process" [], w')
       /\ provide_input ir w = (Response "success" "Input sent to process" [], w'))
  /\ (input_queues (regs w) !! pid = None ->
        run_code uuid4 rq w
        = (Response "error" "Process not found or completed" [], w)
        /\ provide_input ir w
           = (Response "error" "Process not found or completed" [], w)).
Proof.
  intros Hne Hu Hrp Hru Hip Hiu.
  rewrite (run_code_feed uuid4 rq w pid), (provide_input_feed ir w pid)
    by (rewrite ?Hru, ?Hiu; done).
  rewrite Hru, Hiu.
  split.
  - intros q Hq. rewrite Hq. eexists. split_and!; [| | reflexivity | reflexivity].
    + by apply queue_put_lookup.
    + apply queue_put_only_mailboxes.
  - intros Hq. by rewrite Hq.
Qed.

Lemma feed_response_witness :
  let w := set_regs (set_input_queues (insert "p1" ["1" +:+ nl])) empty_world in
  let rq := RunRequest "" "room" "5" (Some "p1") None false [] in
  let ir := InputRequest (Some "p1") "5" in
  status (fst (run_code "fresh" rq w)) = "input_sent"
  /\ status (fst (provide_input ir w)) = "success"
  /\ (input_queues (regs empty_world) !! "p1" = None ->
        run_code "fresh" rq empty_world
        = (Response "error" "Process not found or completed" [], empty_world)
        /\ provide_input ir empty_world
           = (Response "error" "Process not found or completed" [], empty_world)).
Proof.
  intros w rq ir.
  destruct (feed_response "fresh" rq ir w "p1" "5") as [Hreg _];
    [discriminate | discriminate | reflexivity | reflexivity | reflexivity
    | reflexivity |].
  destruct (Hreg ["1" +:+ nl] eq_refl) as (w' & _ & _ & Hrun & Hprov).
  rewrite Hrun, Hprov.
  split; [reflexivity |]. split; [reflexivity |].
  apply (feed_response "fresh" rq ir empty_world "p1" "5");
    first [discriminate | reflexivity].
Defined.

(** the lines a series of [/provide_input] requests adds to a mailbox *)
Definition fed_lines (pid : string) (inputs : list string) : list string :=
  if Str.nonempty pid
  then (fun u => u +:+ nl) <$> List.filter Str.nonempty inputs
  else [].

Lemma set_input_queues_alter_id (w : world) (pid : string)
    (f : list string -> list string) :
  (forall q, f q = q) ->
  set_regs (set_input_queues (alter f pid)) w = w.
Proof.
  intros Hf. destruct w as [[rp iq pni] obs em fs ds ps th ck pl].
  unfold set_regs, set_input_queues. cbn. do 2 f_equal.
  apply alter_id. auto.
Qed.

Lemma feed_inputs_eq (pid : string) (inputs : list string) (w : world) :
  feed_inputs pid inputs w
  = set_regs (set_input_queues (alter (fun q => q ++ fed_lines pid inputs) pid)) w.
Proof.
  unfold feed_inputs, fed_lines.
  revert w. induction inputs as [|u us IH]; intros w.
  - cbn [foldl]. symmetry. apply set_input_queues_alter_id.
    intros q. destruct (Str.nonempty pid); cbn; apply app_nil_r.
  - cbn [foldl]. rewrite IH. clear IH.
    unfold provide_input. cbn [ir_process_id ir_user_input truthy_opt].
    destruct (Str.nonempty pid) eqn:Hpid; cbn [negb orb]; [| done].
    cbn [List.filter].
    destruct (Str.nonempty u) eqn:Hu; cbn [negb snd]; [| done].
    cbn [default].
    destruct w as [[rp iq pni] obs em fs ds ps th ck pl].
    unfold set_regs, set_input_queues, queue_put. cbn.
    destruct (iq !! pid) as [q0|] eqn:Hq; cbn.
    + do 2 f_equal. rewrite alter_alter_eq. apply alter_ext.
      intros q _. cbn. by rewrite <- app_assoc.
    + do 2 f_equal. apply alter_ext. intros q Hq'. congruence.
Qed.

(** ** Reasoning about supervisor code

  [preserves R c]: whatever way [c] ends, the states before and after are
  related by [R].  For a reflexive and transitive [R] this follows from the
  same fact about the statements [c] is made of. *)

Definition preserves {A} (R : state -> state -> Prop) (c : M A) : Prop :=
  forall s r s', c s = (r, s') -> R s s'.

Section Preserves.

Context (R : state -> state -> Prop) `{!Reflexive R} `{!Transitive R}.

Lemma preserves_ret {A} (a : A) : preserves R (mret a).
Proof. intros s r s' [= <- <-]. reflexivity. Qed.

Lemma preserves_raise {A} (e : exn) : preserves R (@raise A e).
Proof. intros s r s' [= <- <-]. reflexivity. Qed.

Lemma preserves_out_of_fuel {A} : preserves R (@out_of_fuel A).
Proof. intros s r s' [= <- <-]. reflexivity. Qed.

Lemma preserves_get_world : preserves R get_world.
Proof. intros s r s' [= <- <-]. reflexivity. Qed.

Lemma preserves_get_frame : preserves R get_frame.
Proof. intros s r s' [= <- <-]. reflexivity. Qed.

Lemma preserves_bind {A B} (c : M A) (k : A -> M B) :
  preserves R c -> (forall a, preserves R (k a)) -> preserves R (c ≫= k).
Proof.
  intros Hc Hk s r s'. unfold mbind, M_bind.
  destruct (c s) as [[a|e|] s1] eqn:Hcs; intros H.
  - etrans; [by eapply Hc | by eapply Hk].
  - injection H as <- <-. by eapply Hc.
  - injection H as <- <-. by eapply Hc.
Qed.

Lemma preserves_try_except {A} (c : M A) (h : exn -> M A) :
  preserves R c -> (forall e, preserves R (h e)) -> preserves R (try_except c h).
Proof.
  intros Hc Hh s r s'. unfold try_except.
  destruct (c s) as [[a|e|] s1] eqn:Hcs; intros H.
  - injection H as <- <-. by eapply Hc.
  - etrans; [by eapply Hc | by eapply Hh].
  - injection H as <- <-. by eapply Hc.
Qed.

Lemma preserves_try_pass (c : M unit) :
  preserves R c -> preserves R (try_pass c).
Proof.
  intros Hc. apply preserves_try_except; [done |].
  intros e. apply preserves_ret.
Qed.

Lemma preserves_try_finally {A} (c : M A) (f : M unit) :
  preserves R c -> preserves R f -> preserves R (try_finally c f).
Proof.
  intros Hc Hf s r s'. unfold try_finally.
  destruct (c s) as [[a|e|] s1] eqn:Hcs.
  - destruct (f s1) as [[[]|e'|] s2] eqn:Hfs; intros [= <- <-];
      (etrans; [by eapply Hc | by eapply Hf]).
  - destruct (f s1) as [[[]|e'|] s2] eqn:Hfs; intros [= <- <-];
      (etrans; [by eapply Hc | by eapply Hf]).
  - intros [= <- <-]. by eapply Hc.
Qed.

Lemma preserves_modify_world (f : world -> world) :
  (forall w fr, R (State w fr) (State (f w) fr)) ->
  preserves R (modify_world f).
Proof. intros Hf [w fr] r s' [= <- <-]. apply Hf. Qed.

Lemma preserves_modify_frame (f : frame -> frame) :
  (forall w fr, R (State w fr) (State w (f fr))) ->
  preserves R (modify_frame f).
Proof. intros Hf [w fr] r s' [= <- <-]. apply Hf. Qed.

End Preserves.

(** break a supervisor program down to its [modify_world] and
  [modify_frame] statements *)
Ltac preserves_tc :=
  try lazymatch goal with
      | |- Reflexive _ => typeclasses eauto
      | |- Transitive _ => typeclasses eauto
      end.

Ltac preserves_step :=
  lazymatch goal with
  | |- preserves _ (mret _) => apply preserves_ret; preserves_tc
  | |- preserves _ (raise _) => apply preserves_raise; preserves_tc
  | |- preserves _ out_of_fuel => apply preserves_out_of_fuel; preserves_tc
  | |- preserves _ get_world => apply preserves_get_world; preserves_tc
  | |- preserves _ get_frame => apply preserves_get_frame; preserves_tc
  | |- preserves _ (modify_world _) => apply preserves_modify_world; intros ? ?
  | |- preserves _ (modify_frame _) => apply preserves_modify_frame; intros ? ?
  | |- preserves _ (_ ≫= _) => apply preserves_bind; preserves_tc; [| intros ?]
  | |- preserves _ (try_pass _) => apply preserves_try_pass; preserves_tc
  | |- preserves _ (try_except _ _) =>
      apply preserves_try_except; preserves_tc; [| intros ?]
  | |- preserves _ (try_finally _ _) => apply preserves_try_finally; preserves_tc
  | |- preserves _ (match ?x with _ => _ end) => destruct x eqn:?
  end.

Ltac preserves_prims :=
  unfold emit_output, emit, time_time, sleep, path_exists, isdir, mkdtemp,
    write_program, makedirs, copy2_or_pass, popen_call, update_proc, poll,
    kill, has_stdin, stdin_write, arrivals, queue_get, del_running_processes,
    del_input_queues, del_process_needs_input, unlink, rmdir, pass_KeyError,
    assign_process, assign_temp_filename, assign_temp_dir.

Ltac preserves_go :=
  repeat first [ preserves_step | progress preserves_prims ].

(** [fueled c]: [c] does not run out of fuel; true of all code but the
  monitoring loop, which needs enough of it. *)
Definition fueled {A} (c : M A) : Prop := forall s, fst (c s) <> OutOfFuel.

Lemma fueled_ret {A} (a : A) : fueled (mret a).
Proof. intros s. done. Qed.
Lemma fueled_raise {A} (e : exn) : fueled (@raise A e).
Proof. intros s. done. Qed.
Lemma fueled_get_world : fueled get_world.
Proof. intros s. done. Qed.
Lemma fueled_get_frame : fueled get_frame.
Proof. intros s. done. Qed.
Lemma fueled_modify_world f : fueled (modify_world f).
Proof. intros s. done. Qed.
Lemma fueled_modify_frame f : fueled (modify_frame f).
Proof. intros s. done. Qed.

Lemma fueled_bind {A B} (c : M A) (k : A -> M B) :
  fueled c -> (forall a, fueled (k a)) -> fueled (c ≫= k).
Proof.
  intros Hc Hk s. unfold mbind, M_bind.
  specialize (Hc s). destruct (c s) as [[a|e|] s1]; simpl in *; [apply Hk | done..].
Qed.

Lemma fueled_try_except {A} (c : M A) (h : exn -> M A) :
  fueled c -> (forall e, fueled (h e)) -> fueled (try_except c h).
Proof.
  intros Hc Hh s. unfold try_except.
  specialize (Hc s). destruct (c s) as [[a|e|] s1]; simpl in *; [done | apply Hh | done].
Qed.

Lemma fueled_try_pass (c : M unit) : fueled c -> fueled (try_pass c).
Proof. intros Hc. apply fueled_try_except; [done | intros; apply fueled_ret]. Qed.

Lemma fueled_try_finally {A} (c : M A) (f : M unit) :
  fueled c -> fueled f -> fueled (try_finally c f).
Proof.
  intros Hc Hf s. unfold try_finally.
  specialize (Hc s). destruct (c s) as [[a|e|] s1]; simpl in *; [| | done].
  - specialize (Hf s1). destruct (f s1) as [[[]|e'|] s2]; simpl in *; done.
  - specialize (Hf s1). destruct (f s1) as [[[]|e'|] s2]; simpl in *; done.
Qed.

Ltac fueled_step :=
  lazymatch goal with
  | |- fueled (mret _) => apply fueled_ret
  | |- fueled (raise _) => apply fueled_raise
  | |- fueled get_world => apply fueled_get_world
  | |- fueled get_frame => apply fueled_get_frame
  | |- fueled (modify_world _) => apply fueled_modify_world
  | |- fueled (modify_frame _) => apply fueled_modify_frame
  | |- fueled (_ ≫= _) => apply fueled_bind; [| intros ?]
  | |- fueled (try_pass _) => apply fueled_try_pass
  | |- fueled (try_except _ _) => apply fueled_try_except; [| intros ?]
  | |- fueled (try_finally _ _) => apply fueled_try_finally
  | |- fueled (match ?x with _ => _ end) => destruct x
  end.

Ltac fueled_go := repeat first [ fueled_step | progress preserves_prims ].

(** *** The clock never runs backwards *)

Definition clock_mono (s s' : state) : Prop :=
  clock (world_of s) <= clock (world_of s').

Global Instance clock_mono_refl : Reflexive clock_mono.
Proof. intros s. unfold clock_mono. lia. Qed.
Global Instance clock_mono_trans : Transitive clock_mono.
Proof. intros s1 s2 s3. unfold clock_mono. lia. Qed.

(** *** What is published *)

(** the events published between [s] and [s'] all satisfy [P] *)
Definition emits (P : emission -> Prop) (s s' : state) : Prop :=
  exists new, emitted (world_of s') = emitted (world_of s) ++ new /\ Forall P new.

Global Instance emits_refl P : Reflexive (emits P).
Proof. intros s. exists []. by rewrite app_nil_r. Qed.
Global Instance emits_trans P : Transitive (emits P).
Proof.
  intros s1 s2 s3 (n1 & H1 & F1) (n2 & H2 & F2).
  exists (n1 ++ n2). rewrite H2, H1, app_assoc. split; [done | by apply Forall_app].
Qed.

Definition emits_nothing : state -> state -> Prop := emits (fun _ => False).

Lemma emits_nothing_eq s s' :
  emits_nothing s s' -> emitted (world_of s') = emitted (world_of s).
Proof.
  intros (new & H & F). destruct new as [|x new]; [by rewrite app_nil_r in H |].
  by apply Forall_cons in F as [[] _].
Qed.

Ltac emits_silent :=
  rewrite ?feed_inputs_eq;
  lazymatch goal with
  | |- emits _ (State ?w ?fr) (State _ _) =>
      exists []; split; [simpl; by rewrite app_nil_r | constructor]
  end.

(** *** The launches *)

(** the part of a [Popen] object fixed at creation *)
Definition stdio_of (p : popen) : stdio * stdio * stdio :=
  (p_stdin p, p_stdout p, p_stderr p).

(** the [Popen] objects created between [s] and [s'] all have the stdio
  arguments [P]; those that existed keep theirs *)
Definition launches (P : stdio * stdio * stdio -> Prop) (s s' : state) : Prop :=
  exists new, stdio_of <$> procs (world_of s')
              = (stdio_of <$> procs (world_of s)) ++ new
              /\ Forall P new.

Global Instance launches_refl P : Reflexive (launches P).
Proof. intros s. exists []. by rewrite app_nil_r. Qed.
Global Instance launches_trans P : Transitive (launches P).
Proof.
  intros s1 s2 s3 (n1 & H1 & F1) (n2 & H2 & F2).
  exists (n1 ++ n2). rewrite H2, H1, app_assoc. split; [done | by apply Forall_app].
Qed.

Lemma launches_update P (w : world) (fr : frame) (h : nat) (f : popen -> popen) :
  (forall p, stdio_of (f p) = stdio_of p) ->
  launches P (State w fr)
    (State (set_procs (fun l => match l !! h with
                                | Some p => <[h := f p]> l
                                | None => l
                                end) w) fr).
Proof.
  intros Hf. exists []. rewrite app_nil_r. split; [| constructor]. simpl.
  destruct (procs w !! h) as [p|] eqn:Hp; [| done].
  rewrite list_fmap_insert, Hf. apply list_insert_id.
  by rewrite list_lookup_fmap, Hp.
Qed.

Ltac launches_silent :=
  rewrite ?feed_inputs_eq;
  lazymatch goal with
  | |- launches _ (State ?w ?fr) (State _ _) =>
      first [ apply launches_update; intros []; reflexivity
            | exists []; split; [simpl; by rewrite app_nil_r | constructor] ]
  end.

Section SupervisorFacts.

Variable env : environment.

Lemma copy_session_files_preserves (R : state -> state -> Prop)
    `{!Reflexive R} `{!Transitive R} fs target mirror :
  (forall w fr p, R (State w fr) (State (set_files (fun fs => {[p]} ∪ fs) w) fr)) ->
  preserves R (copy_session_files fs target mirror).
Proof.
  intros HR. induction fs as [|[[f ok1] ok2] fs IH]; simpl.
  - preserves_go.
  - preserves_go; try apply HR. apply IH.
Qed.

(** symbolic execution of straight-line supervisor code *)
Ltac run_unfold :=
  unfold emit_output, emit, time_time, sleep, path_exists, isdir, mkdtemp,
    write_program, makedirs, copy2_or_pass, popen_call, poll,
    kill, has_stdin, stdin_write, arrivals, queue_get, del_running_processes,
    del_input_queues, del_process_needs_input, unlink, rmdir, pass_KeyError,
    assign_process, assign_temp_filename, assign_temp_dir, update_proc,
    try_pass, try_except, try_finally, get_world, get_frame, modify_world,
    modify_frame, raise, out_of_fuel, mbind, M_bind, mret, M_ret in *.

Definition timeout_event (pid sid : string) (T : Z) : emission :=
  Emit (code_output pid (timeout_message T) "error") sid.

Definition returncode_of (s : state) (h : nat) : option Z :=
  match procs (world_of s) !! h with
  | Some p => p_returncode p
  | None => None
  end.

Lemma lookup_insert_same {A} (l : list A) (h : nat) (p x : A) :
  l !! h = Some p -> <[h := x]> l !! h = Some x.
Proof. intros H. apply list_lookup_insert_eq. by eapply lookup_lt_Some. Qed.

Ltac simpl_inserts :=
  match goal with
  | H : ?l !! ?h = Some ?p, H' : context [<[?h := ?x]> ?l !! ?h] |- _ =>
      rewrite (lookup_insert_same l h p x H) in H'
  | H : ?l !! ?h = Some ?p |- context [<[?h := ?x]> ?l !! ?h] =>
      rewrite (lookup_insert_same l h p x H)
  end.

Ltac run_cases :=
  repeat (first [ progress simpl_inserts
                | progress (rewrite feed_inputs_eq in * )
                | case_match ];
          simplify_eq;
          cbn -[timeout_message error_message Z.mul Z.ltb Z.sub Z.add] in * ).

Lemma iteration_spec n h pid sid T start s r s' :
  iteration env n h pid sid T start s = (r, s') ->
  clock (world_of s) <= clock (world_of s')
  /\ (r = Ok None ->
        clock (world_of s) + 50 <= clock (world_of s')
        /\ (T * 1000 <? clock (world_of s) - start) = false)
  /\ (exists new,
        emitted (world_of s') = emitted (world_of s) ++ new
        /\ match r with
           | Ok (Some TimedOut) => new = [timeout_event pid sid T]
           | _ => new = [] \/ new = [Emit (input_received pid) sid]
           end).
Proof.
  destruct s as [w fr]. unfold iteration, timeout_event.
  run_unfold. cbn -[timeout_message Z.mul Z.ltb Z.sub Z.add].
  rewrite ?feed_inputs_eq. intros H. run_cases.
  all: split_and!;
    [ lia
    | intros; simplify_eq; try (split; [lia | done])
    | first [ by (exists []; rewrite app_nil_r; auto)
            | by (eexists; split; [reflexivity | auto]) ] ].
Qed.

Lemma iteration_timed_out n h pid sid T start s s' :
  iteration env n h pid sid T start s = (Ok (Some TimedOut), s') ->
  returncode_of s' h = None.
Proof.
  destruct s as [w fr]. unfold iteration, returncode_of.
  run_unfold. cbn -[timeout_message Z.mul Z.ltb Z.sub Z.add].
  rewrite ?feed_inputs_eq. intros H. run_cases; try done.
  all: by repeat (first [ simpl_inserts | match goal with
                    | H : ?x = _ |- context [?x] => rewrite H end ]; simpl).
Qed.

Definition system_output (pid sid : string) (em : emission) : Prop :=
  exists out, em = Emit (code_output pid out "system") sid.

Lemma prepare_emits code pid sid needs docker pkgs :
  preserves (emits (system_output pid sid))
            (prepare env code pid sid needs docker pkgs).
Proof.
  unfold prepare, _copy_session_datasets_to_temp.
  preserves_go; try emits_silent.
  all: try (apply copy_session_files_preserves; preserves_tc; intros; emits_silent).
  all: eexists; split; [reflexivity |]; apply Forall_singleton; by eexists.
Qed.

Lemma cleanup_emits pid : preserves emits_nothing (cleanup env pid).
Proof.
  unfold cleanup, unregister, terminate_if_alive, remove_workspace, emits_nothing.
  preserves_go; emits_silent.
Qed.

Definition stdio_ok (needs : bool) (c : stdio * stdio * stdio) : Prop :=
  let '(stdin, stdout, stderr) := c in
  (stdin = PIPE <-> needs = true) /\ stdout = PIPE /\ stderr = PIPE.

Lemma build_command_stdin docker needs pkgs d f :
  snd (build_command docker needs pkgs d f) = if needs then PIPE else NoPipe.
Proof. unfold build_command. by destruct docker. Qed.

Lemma prepare_launches code pid sid needs docker pkgs :
  preserves (launches (stdio_ok needs))
            (prepare env code pid sid needs docker pkgs).
Proof.
  unfold prepare, _copy_session_datasets_to_temp.
  preserves_go; try launches_silent.
  all: try (apply copy_session_files_preserves; preserves_tc; intros;
            launches_silent).
  match goal with
  | H : build_command ?d needs ?p ?a ?f = (_, ?s) |- _ =>
      pose proof (build_command_stdin d needs p a f) as Hs;
      rewrite H in Hs; simpl in Hs; subst s
  end.
  eexists. split; [simpl; by rewrite fmap_app |].
  apply Forall_singleton. simpl. by destruct needs.
Qed.

Lemma monitor_preserves (R : state -> state -> Prop)
    `{!Reflexive R} `{!Transitive R} h pid sid T start :
  (forall n, preserves R (iteration env n h pid sid T start)) ->
  forall fuel n, preserves R (monitor env fuel n h pid sid T start).
Proof.
  intros Hit. induction fuel as [|fuel IH]; intros n; simpl.
  - preserves_go.
  - preserves_go; [apply Hit | apply IH].
Qed.

Lemma run_preserves (R : state -> state -> Prop)
    `{!Reflexive R} `{!Transitive R} fuel code pid sid needs T docker pkgs :
  preserves R (prepare env code pid sid needs docker pkgs) ->
  (forall n h start, preserves R (iteration env n h pid sid T start)) ->
  (forall h, preserves R (finish env h pid sid)) ->
  (forall e, preserves R (on_error pid sid e)) ->
  preserves R (cleanup env pid) ->
  preserves R (run_code_with_input env fuel code pid sid needs T docker pkgs).
Proof.
  intros Hprep Hit Hfin Herr Hclean.
  unfold run_code_with_input, supervise.
  preserves_go; try done.
  by apply monitor_preserves.
Qed.

Lemma run_launches fuel code pid sid needs T docker pkgs :
  preserves (launches (stdio_ok needs))
    (run_code_with_input env fuel code pid sid needs T docker pkgs).
Proof.
  apply run_preserves; preserves_tc.
  - apply prepare_launches.
  - intros. unfold iteration. preserves_go; launches_silent.
  - intros. unfold finish. preserves_go; launches_silent.
  - intros. unfold on_error. preserves_go; launches_silent.
  - unfold cleanup, unregister, terminate_if_alive, remove_workspace.
    preserves_go; launches_silent.
Qed.

(** the events of the monitoring loop: acknowledgements of delivered
    input, then the timeout notice if the loop left by the timeout *)
Definition monitor_events (pid sid : string) (T : Z) (k : nat)
    (r : outcome loop_exit) : list emission :=
  repeat (Emit (input_received pid) sid) k ++
  match r with
  | Ok TimedOut => [timeout_event pid sid T]
  | _ => []
  end.

Lemma monitor_spec fuel : forall n h pid sid T start s r s',
  monitor env fuel n h pid sid T start s = (r, s') ->
  clock (world_of s) <= clock (world_of s')
  /\ (exists k, emitted (world_of s')
                = emitted (world_of s) ++ monitor_events pid sid T k r)
  /\ (r = Ok TimedOut -> returncode_of s' h = None).
Proof.
  induction fuel as [|fuel IH]; intros n h pid sid T start s r s'; simpl.
  - intros [= <- <-]. split_and!; [lia | | done].
    exists O. simpl. by rewrite app_nil_r.
  - unfold mbind, M_bind.
    destruct (iteration env n h pid sid T start s) as [[[x|]|e|] s1] eqn:Hit.
    + (* the pass leaves the loop *)
      intros [= <- <-].
      destruct (iteration_spec _ _ _ _ _ _ _ _ _ Hit) as (Hc & _ & new & Hnew & Hx).
      split_and!; [done | |].
      * unfold monitor_events. rewrite Hnew.
        destruct x; [destruct Hx as [-> | ->] | rewrite Hx
                    | destruct Hx as [-> | ->]];
          first [ by exists 0%nat | by exists 1%nat ].
      * intros [= ->]. by eapply iteration_timed_out.
    + (* the pass goes on to the next one *)
      intros Hmon.
      destruct (iteration_spec _ _ _ _ _ _ _ _ _ Hit) as (Hc & _ & new & Hnew & Hx).
      destruct (IH _ _ _ _ _ _ _ _ _ Hmon) as (Hc' & [k Hk] & Hrc).
      split_and!; [lia | | done].
      exists (length new + k)%nat. rewrite Hk, Hnew. unfold monitor_events.
      rewrite repeat_app, <- !app_assoc. do 2 f_equal.
      by destruct Hx as [-> | ->].
    + intros [= <- <-].
      destruct (iteration_spec _ _ _ _ _ _ _ _ _ Hit) as (Hc & _ & new & Hnew & Hx).
      split_and!; [done | | done].
      exists (length new). unfold monitor_events. rewrite Hnew, app_nil_r.
      by destruct Hx as [-> | ->].
    + intros [= <- <-].
      destruct (iteration_spec _ _ _ _ _ _ _ _ _ Hit) as (Hc & _ & new & Hnew & Hx).
      split_and!; [done | | done].
      exists (length new). unfold monitor_events. rewrite Hnew, app_nil_r.
      by destruct Hx as [-> | ->].
Qed.





Lemma on_error_fueled pid sid e : fueled (on_error pid sid e).
Proof. unfold on_error. fueled_go. Qed.

Lemma cleanup_fueled pid : fueled (cleanup env pid).
Proof. unfold cleanup, unregister, terminate_if_alive, remove_workspace. fueled_go. Qed.



Lemma prepare_clock code pid sid needs docker pkgs :
  preserves clock_mono (prepare env code pid sid needs docker pkgs).
Proof.
  unfold prepare, _copy_session_datasets_to_temp.
  preserves_go; try (unfold clock_mono; simpl; lia).
  all: try (apply copy_session_files_preserves; preserves_tc;
            intros; unfold clock_mono; simpl; lia).
Qed.

(** *** The [finally] block *)

Definition has_key {A} (m : gmap string A) (k : string) : bool :=
  bool_decide (is_Some (m !! k)).

(** the registries without the entries of [pid] *)
Definition unregistered (pid : string) (r : registries) : registries :=
  Registries (delete pid (running_processes r)) (delete pid (input_queues r))
             (delete pid (process_needs_input r)).

(** the registries after each [del] that [unregister] executes *)
Definition unregister_snapshots (pid : string) (r : registries) : list registries :=
  (if has_key (running_processes r) pid
   then [Registries (delete pid (running_processes r)) (input_queues r)
                    (process_needs_input r)] else []) ++
  (if has_key (input_queues r) pid
   then [Registries (delete pid (running_processes r)) (delete pid (input_queues r))
                    (process_needs_input r)] else []) ++
  (if has_key (process_needs_input r) pid then [unregistered pid r] else []).

(** the ghost log after [unregister] *)
Definition observed_after (pid : string) (r : registries) (obs : list registries)
  : list registries :=
  let rp := running_processes r in
  let iq := input_queues r in
  let pni := process_needs_input r in
  let o1 := if has_key rp pid then obs ++ [Registries (delete pid rp) iq pni]
            else obs in
  let o2 := if has_key iq pid
            then o1 ++ [Registries (delete pid rp) (delete pid iq) pni] else o1 in
  if has_key pni pid then o2 ++ [unregistered pid r] else o2.

Lemma observed_after_eq pid r obs :
  observed_after pid r obs = obs ++ unregister_snapshots pid r.
Proof.
  unfold observed_after, unregister_snapshots.
  destruct (has_key (running_processes r) pid),
    (has_key (input_queues r) pid), (has_key (process_needs_input r) pid);
    by rewrite <- ?app_assoc, ?app_nil_r.
Qed.

Lemma unregister_spec pid w fr :
  unregister pid (State w fr)
  = (Ok tt,
     State (World (unregistered pid (regs w))
                  (observed w ++ unregister_snapshots pid (regs w))
                  (emitted w) (files w) (dirs w) (procs w) (threads w)
                  (clock w) (polls w)) fr).
Proof.
  rewrite <- observed_after_eq.
  destruct w as [[rp iq pni] obs em fs ds ps th ck pl].
  unfold unregister, observed_after, unregistered, has_key.
  run_unfold. cbn.
  destruct (rp !! pid) as [h|] eqn:Hrp; cbn; rewrite ?Hrp; cbn;
  destruct (iq !! pid) as [q|] eqn:Hiq; cbn; rewrite ?Hiq; cbn;
  destruct (pni !! pid) as [b|] eqn:Hpni; cbn; rewrite ?Hpni; cbn;
  rewrite ?(delete_id rp), ?(delete_id iq), ?(delete_id pni) by done;
  reflexivity.
Qed.

(** [terminate_if_alive] touches only the [Popen] objects and the probe
  counter *)

(** [terminate_if_alive] touches only the [Popen] objects and the probe
  counter *)
Lemma terminate_if_alive_spec w fr :
  exists ps pl,
    terminate_if_alive env (State w fr)
    = (Ok tt,
       State (World (regs w) (observed w) (emitted w) (files w) (dirs w)
                    ps (threads w) (clock w) pl) fr).
Proof.
  destruct w as [rg obs em fs ds ps th ck pl].
  unfold terminate_if_alive. run_unfold. cbn.
  run_cases; eexists _, _; reflexivity.
Qed.

(** the directories [rmdir(temp_dir)] leaves, guarded as in the block *)
Definition rmdir_step (td : option string) (fs1 ds : gset string) : gset string :=
  match td with
  | Some d =>
      if bool_decide (d ∈ fs1 ∪ ds) && bool_decide (d ∈ ds)
         && dir_empty d (fs1 ∪ ds)
      then ds ∖ {[d]} else ds
  | None => ds
  end.

(** the files and directories [remove_workspace] leaves *)
Definition workspace_after (fr : frame) (fs ds : gset string)
  : gset string * gset string :=
  match temp_filename fr with
  | Some p =>
      if bool_decide (p ∈ fs ∪ ds)
      then if bool_decide (p ∈ fs)
           then (fs ∖ {[p]}, rmdir_step (temp_dir fr) (fs ∖ {[p]}) ds)
           else (fs, ds)
      else (fs, rmdir_step (temp_dir fr) fs ds)
  | None => (fs, rmdir_step (temp_dir fr) fs ds)
  end.

Lemma remove_workspace_spec w fr :
  remove_workspace (State w fr)
  = (Ok tt,
     State (World (regs w) (observed w) (emitted w)
                  (fst (workspace_after fr (files w) (dirs w)))
                  (snd (workspace_after fr (files w) (dirs w)))
                  (procs w) (threads w) (clock w) (polls w)) fr).
Proof.
  destruct w as [rg obs em fs ds ps th ck pl].
  destruct fr as [h tf td].
  unfold remove_workspace, workspace_after, rmdir_step. run_unfold. cbn.
  destruct tf as [p|], td as [d|]; cbn;
    repeat (case_bool_decide; cbn); try reflexivity;
    repeat (destruct (dir_empty _ _); cbn); reflexivity.
Qed.

Lemma cleanup_spec pid w fr :
  exists ps pl,
    cleanup env pid (State w fr)
    = (Ok tt,
       State (World (unregistered pid (regs w))
                    (observed w ++ unregister_snapshots pid (regs w))
                    (emitted w)
                    (fst (workspace_after fr (files w) (dirs w)))
                    (snd (workspace_after fr (files w) (dirs w)))
                    ps (threads w) (clock w) pl) fr).
Proof.
  unfold cleanup, mbind, M_bind.
  rewrite unregister_spec.
  destruct (terminate_if_alive_spec
              (World (unregistered pid (regs w))
                     (observed w ++ unregister_snapshots pid (regs w))
                     (emitted w) (files w) (dirs w) (procs w) (threads w)
                     (clock w) (polls w)) fr) as (ps & pl & ->).
  rewrite remove_workspace_spec. cbn. eauto.
Qed.

Lemma unregistered_idem pid r : unregistered pid (unregistered pid r) = unregistered pid r.
Proof. unfold unregistered. cbn. by rewrite !delete_delete_eq. Qed.

Lemma unregister_snapshots_done pid r :
  unregister_snapshots pid (unregistered pid r) = [].
Proof.
  unfold unregister_snapshots, unregistered, has_key. cbn.
  rewrite !lookup_delete_eq.
  rewrite !bool_decide_eq_false_2 by (by intros [? ?]). done.
Qed.

Lemma rmdir_step_subseteq td fs1 ds : rmdir_step td fs1 ds ⊆ ds.
Proof.
  unfold rmdir_step. destruct td as [d|]; [| done].
  destruct (_ && _); set_solver.
Qed.

Lemma rmdir_step_idem td fs1 ds :
  rmdir_step td fs1 (rmdir_step td fs1 ds) = rmdir_step td fs1 ds.
Proof.
  unfold rmdir_step. destruct td as [d|]; [| done].
  destruct (bool_decide (d ∈ fs1 ∪ ds) && bool_decide (d ∈ ds)
            && dir_empty d (fs1 ∪ ds)) eqn:Hrm.
  - rewrite (bool_decide_eq_false_2 (d ∈ ds ∖ {[d]})) by set_solver.
    by rewrite andb_false_r.
  - by rewrite Hrm.
Qed.

Lemma workspace_after_idem fr fs ds :
  workspace_after fr (fst (workspace_after fr fs ds)) (snd (workspace_after fr fs ds))
  = workspace_after fr fs ds.
Proof.
  destruct fr as [h tf td]. unfold workspace_after. cbn.
  destruct tf as [p|]; cbn; [| by rewrite rmdir_step_idem].
  destruct (bool_decide (p ∈ fs ∪ ds)) eqn:Hex.
  - destruct (bool_decide (p ∈ fs)) eqn:Hf; cbn; [| by rewrite Hex, Hf].
    set (fs1 := fs ∖ {[p]}). set (ds1 := rmdir_step td fs1 ds).
    destruct (bool_decide (p ∈ fs1 ∪ ds1)) eqn:Hex1.
    + rewrite (bool_decide_eq_false_2 (p ∈ fs1)) by (subst fs1; set_solver).
      done.
    + subst ds1. by rewrite rmdir_step_idem.
  - cbn. apply bool_decide_eq_false in Hex.
    pose proof (rmdir_step_subseteq td fs ds) as Hsub.
    rewrite (bool_decide_eq_false_2 (p ∈ fs ∪ rmdir_step td fs ds)) by set_solver.
    by rewrite rmdir_step_idem.
Qed.

(** *** The whole run *)

Lemma supervise_eq fuel code pid sid needs T docker pkgs s :
  supervise env fuel code pid sid needs T docker pkgs s
  = match prepare env code pid sid needs docker pkgs s with
    | (Ok h, s1) =>
        match monitor env fuel O h pid sid T (clock (world_of s1)) s1 with
        | (Ok _, s2) => finish env h pid sid s2
        | (Raise e, s2) => (Raise e, s2)
        | (OutOfFuel, s2) => (OutOfFuel, s2)
        end
    | (Raise e, s1) => (Raise e, s1)
    | (OutOfFuel, s1) => (OutOfFuel, s1)
    end.
Proof.
  unfold supervise, mbind, M_bind, time_time, get_world, mret, M_ret.
  destruct (prepare env code pid sid needs docker pkgs s) as [[h|e|] s1]; try done.
Qed.

Definition complete_event (pid sid st : string) : emission :=
  Emit (code_complete pid st) sid.

Definition error_event (pid sid : string) (e : exn) : emission :=
  Emit (code_output pid (error_message e) "error") sid.


(** the run when the [try] body ends normally / by an exception *)
Lemma run_after_body fuel code pid sid needs T docker pkgs s s3 :
  supervise env fuel code pid sid needs T docker pkgs s = (Ok tt, s3) ->
  exists ps pl,
    run_code_with_input env fuel code pid sid needs T docker pkgs s
    = (Ok tt,
       State (World (unregistered pid (regs (world_of s3)))
                    (observed (world_of s3)
                       ++ unregister_snapshots pid (regs (world_of s3)))
                    (emitted (world_of s3))
                    (fst (workspace_after (frame_of s3) (files (world_of s3))
                                          (dirs (world_of s3))))
                    (snd (workspace_after (frame_of s3) (files (world_of s3))
                                          (dirs (world_of s3))))
                    ps (threads (world_of s3)) (clock (world_of s3)) pl)
             (frame_of s3)).
Proof.
  intros Hbody. unfold run_code_with_input, try_finally, try_except.
  rewrite Hbody. destruct s3 as [w3 fr3].
  destruct (cleanup_spec pid w3 fr3) as (ps & pl & ->). eauto.
Qed.

Lemma run_after_raise fuel code pid sid needs T docker pkgs s e s2 :
  supervise env fuel code pid sid needs T docker pkgs s = (Raise e, s2) ->
  exists ps pl,
    run_code_with_input env fuel code pid sid needs T docker pkgs s
    = (Ok tt,
       State (World (unregistered pid (regs (world_of s2)))
                    (observed (world_of s2)
                       ++ unregister_snapshots pid (regs (world_of s2)))
                    (emitted (world_of s2) ++ [error_event pid sid e])
                    (fst (workspace_after (frame_of s2) (files (world_of s2))
                                          (dirs (world_of s2))))
                    (snd (workspace_after (frame_of s2) (files (world_of s2))
                                          (dirs (world_of s2))))
                    ps (threads (world_of s2)) (clock (world_of s2)) pl)
             (frame_of s2)).
Proof.
  intros Hbody. unfold run_code_with_input, try_finally, try_except.
  rewrite Hbody. destruct s2 as [w2 fr2].
  unfold on_error, emit_output, emit, modify_world. cbn.
  destruct (cleanup_spec pid (set_emitted (fun l => l ++ [Emit (code_output pid (error_message e) "error") sid]) w2) fr2)
    as (ps & pl & ->). eauto.
Qed.

(** no exception leaves [run_code_with_input] *)
Lemma run_never_raises fuel code pid sid needs T docker pkgs s e :
  fst (run_code_with_input env fuel code pid sid needs T docker pkgs s) <> Raise e.
Proof.
  destruct (supervise env fuel code pid sid needs T docker pkgs s)
    as [[[]|e'|] s1] eqn:Hbody.
  - destruct (run_after_body _ _ _ _ _ _ _ _ _ _ Hbody) as (? & ? & ->). done.
  - destruct (run_after_raise _ _ _ _ _ _ _ _ _ _ _ Hbody) as (? & ? & ->). done.
  - unfold run_code_with_input, try_finally, try_except. by rewrite Hbody.
Qed.


End SupervisorFacts.


(** ** The launcher *)

Lemma launches_new (P : stdio * stdio * stdio -> Prop) (s s' : state) (p : popen) :
  launches P s s' ->
  p ∈ drop (length (procs (world_of s))) (procs (world_of s')) ->
  P (stdio_of p).
Proof.
  intros (new & Hnew & HP) Hp.
  apply (list_elem_of_fmap_2 stdio_of) in Hp.
  rewrite fmap_drop, Hnew in Hp.
  rewrite drop_app_length' in Hp by (by rewrite length_fmap).
  by eapply Forall_forall in HP.
Qed.

(** C6: every [Popen] object a run of [run_code_with_input] creates has a
  stdin pipe exactly when [code_needs_input] is true, and a stdout pipe
  and a stderr pipe in every case, whatever the flag and whether docker
  was requested. *)
Theorem stdin_pipe_iff_needs_input (env : environment) (fuel : nat)
    (code process_id session_id : string) (code_needs_input : bool)
    (timeout_seconds : Z) (use_docker : bool) (docker_packages : list string)
    (s : state) (r : outcome unit) (s' : state) (p : popen) :
  run_code_with_input env fuel code process_id session_id code_needs_input
    timeout_seconds use_docker docker_packages s = (r, s') ->
  p ∈ drop (length (procs (world_of s))) (procs (world_of s')) ->
  (p_stdin p = PIPE <-> code_needs_input = true)
  /\ p_stdout p = PIPE /\ p_stderr p = PIPE.
Proof.
  intros Hrun Hp.
  apply run_launches in Hrun.
  apply (launches_new _ _ _ _ Hrun Hp).
Qed.

(** *** Concrete runs *)

(** a child that has exited with code 0 at the first probe *)
Definition env_quick : environment :=
  Env (inl "/tmp/siren_exec_a") None None None false None
      (fun _ => Some 0) (fun _ => Tick [] None 0).


(** a child whose stdin cannot be written: an input is submitted before
  each pass and the write raises [OSError] *)
Definition env_bad_stdin : environment :=
  Env (inl "/tmp/siren_exec_a") None None None false None
      (fun _ => None)
      (fun _ => Tick ["5"] (Some (Exn OSError "[Errno 22] Invalid argument")) 0).

(** the state in which the thread started by a [/run_code] request for
  [code] begins: the world the handler leaves, and no local variable set *)
Definition after_start (uuid4 code : string) (timeout : option Z) : state :=
  State (snd (run_code uuid4 (RunRequest code "room" "" None timeout false [])
                       empty_world))
        initial_frame.

Lemma stdin_pipe_iff_needs_input_witness :
  let s := after_start "id-1" "print(1)" None in
  let res := run_code_with_input env_quick 1 "print(1)" "id-1" "room"
               false 120 false [] s in
  exists p, procs (world_of (snd res)) = [p]
            /\ ((p_stdin p = PIPE <-> false = true)
                /\ p_stdout p = PIPE /\ p_stderr p = PIPE).
Proof.
  intros s res.
  set (p := Popen ["python"; "/tmp/siren_exec_a/program.py"] NoPipe PIPE PIPE
                  (Some "/tmp/siren_exec_a") (Some 0) false []).
  assert (Hp : procs (world_of (snd res)) = [p]) by (vm_compute; reflexivity).
  exists p. split; [exact Hp |].
  apply (stdin_pipe_iff_needs_input env_quick 1 "print(1)" "id-1" "room"
           false 120 false [] s (fst res) (snd res)).
  - apply surjective_pairing.
  - assert (Hl : length (procs (world_of s)) = 0%nat) by reflexivity.
    rewrite Hp, Hl. apply list_elem_of_here.
Defined.

(** ** Cleanup *)

(** C4: the [finally] block run a second time on the same execution id
  leaves the registries and the files and directories as the first run
  left them; neither run raises, and neither publishes any event (so no
  second completion event). *)
Theorem cleanup_idempotent (env : environment) (process_id : string) (s : state) :
  exists s1 s2,
    cleanup env process_id s = (Ok tt, s1)
    /\ cleanup env process_id s1 = (Ok tt, s2)
    /\ regs (world_of s2) = regs (world_of s1)
    /\ files (world_of s2) = files (world_of s1)
    /\ dirs (world_of s2) = dirs (world_of s1)
    /\ observed (world_of s2) = observed (world_of s1)
    /\ emitted (world_of s2) = emitted (world_of s1)
    /\ emitted (world_of s1) = emitted (world_of s)
    /\ frame_of s2 = frame_of s1.
Proof.
  destruct s as [w fr].
  destruct (cleanup_spec env process_id w fr) as (ps1 & pl1 & H1).
  match type of H1 with
  | _ = (_, State ?w1 _) =>
      destruct (cleanup_spec env process_id w1 fr) as (ps2 & pl2 & H2)
  end.
  eexists; eexists. split; [exact H1 |]. split; [exact H2 |]. cbn.
  rewrite unregistered_idem, unregister_snapshots_done, app_nil_r.
  rewrite workspace_after_idem.
  split_and!; reflexivity.
Qed.

(** ** Completion and errors *)

Definition is_complete (em : emission) : bool :=
  match em_event em with
  | code_complete _ _ => true
  | _ => false
  end.

(** an [error]-kind output event that mentions the timeout *)
Definition is_timeout_error (em : emission) : bool :=
  match em_event em with
  | code_output _ output type =>
      String.eqb type "error" && Str.contains "timed out" output
  | _ => false
  end.

Lemma timeout_message_mentions (T : Z) :
  Str.contains "timed out" (timeout_message T) = true.
Proof. reflexivity. Qed.

Lemma filter_none {A} (f : A -> bool) (l : list A) :
  Forall (fun x => f x = false) l -> List.filter f l = [].
Proof.
  induction 1 as [|x l Hx _ IH]; [done |]. simpl. by rewrite Hx.
Qed.

Lemma system_output_not_complete pid sid pre :
  Forall (system_output pid sid) pre ->
  Forall (fun em => is_complete em = false) pre
  /\ Forall (fun em => is_timeout_error em = false) pre.
Proof.
  intros H. split; eapply Forall_impl; try exact H; by intros em [out ->].
Qed.



(** C2 (amended): when an exception is raised in the monitoring loop, the
  supervisor publishes one [error]-kind output event carrying the
  exception's text, as its last event; it publishes no completion event;
  the exception does not leave [run_code_with_input], which ends
  normally after unregistering the execution. *)
Theorem monitoring_exception_reported (env : environment) (fuel : nat)
    (code process_id session_id : string) (code_needs_input : bool)
    (timeout_seconds : Z) (use_docker : bool) (docker_packages : list string)
    (s : state) (h : nat) (s1 : state) (e : exn) (s2 : state) :
  prepare env code process_id session_id code_needs_input use_docker
          docker_packages s = (Ok h, s1) ->
  monitor env fuel O h process_id session_id timeout_seconds
          (clock (world_of s1)) s1 = (Raise e, s2) ->
  exists s' new,
    run_code_with_input env fuel code process_id session_id code_needs_input
      timeout_seconds use_docker docker_packages s = (Ok tt, s')
    /\ emitted (world_of s') = emitted (world_of s) ++ new
    /\ last new = Some (error_event process_id session_id e)
    /\ List.filter is_complete new = []
    /\ regs (world_of s') = unregistered process_id (regs (world_of s2)).
Proof.
  intros Hprep Hmon.
  destruct (prepare_emits env _ _ _ _ _ _ _ _ _ Hprep) as (pre & Hpre & Fpre).
  destruct (monitor_spec env _ _ _ _ _ _ _ _ _ _ Hmon) as (_ & [k Hk] & _).
  assert (Hbody : supervise env fuel code process_id session_id code_needs_input
                    timeout_seconds use_docker docker_packages s = (Raise e, s2)).
  { by rewrite supervise_eq, Hprep, Hmon. }
  destruct (run_after_raise env _ _ _ _ _ _ _ _ _ _ _ Hbody) as (ps & pl & Hrun).
  destruct (system_output_not_complete _ _ _ Fpre) as [Fc _].
  eexists.
  exists (pre ++ repeat (Emit (input_received process_id) session_id) k
              ++ [error_event process_id session_id e]).
  split_and!; [exact Hrun | | | | reflexivity].
  - cbn. rewrite Hk, Hpre. unfold monitor_events.
    by rewrite app_nil_r, <- !app_assoc.
  - by rewrite !app_assoc, last_snoc.
  - rewrite !List.filter_app, (filter_none _ pre) by done.
    rewrite (filter_none _ (repeat _ k))
      by (apply Forall_forall; intros em ->%list_elem_of_In%repeat_spec; done).
    reflexivity.
Qed.

Definition started_event (pid sid : string) : emission :=
  Emit (code_output pid started_notice "system") sid.



Lemma monitoring_exception_reported_witness :
  let s := after_start "id-1" "x = input()" None in
  let ps1 := prepare env_bad_stdin "x = input()" "id-1" "room" true false [] s in
  let e := Exn OSError "[Errno 22] Invalid argument" in
  fst ps1 = Ok 0%nat
  /\ exists s' new,
       run_code_with_input env_bad_stdin 1 "x = input()" "id-1" "room" true 120
         false [] s = (Ok tt, s')
       /\ emitted (world_of s') = emitted (world_of s) ++ new
       /\ last new = Some (error_event "id-1" "room" e)
       /\ List.filter is_complete new = []
       /\ regs (world_of s')
          = unregistered "id-1"
              (regs (world_of (snd (monitor env_bad_stdin 1 O 0 "id-1" "room" 120
                                      (clock (world_of (snd ps1))) (snd ps1))))).
Proof.
  intros s ps1 e. split; [vm_compute; reflexivity |].
  apply (monitoring_exception_reported env_bad_stdin 1 "x = input()" "id-1"
           "room" true 120 false [] s 0%nat (snd ps1) e).
  - vm_compute. reflexivity.
  - vm_compute. reflexivity.
Defined.

(** C2, as stated, fails: after an exception in the monitoring loop the
  [error]-kind output event is published but no completion event, with
  status [failed] or any other, follows. *)
Lemma exception_without_completion :
  let s := after_start "id-1" "x = input()" None in
  let r := run_code_with_input env_bad_stdin 1 "x = input()" "id-1" "room" true
             120 false [] s in
  fst r = Ok tt
  /\ emitted (world_of (snd r))
     = [started_event "id-1" "room";
        error_event "id-1" "room" (Exn OSError "[Errno 22] Invalid argument")]
  /\ List.filter is_complete (emitted (world_of (snd r))) = [].
Proof.
  split_and!; vm_compute; reflexivity.
Qed.

(** ** The registries *)

(** an id with a process handle also has a mailbox and a flag *)
Definition triple_ok (r : registries) : Prop :=
  forall id, is_Some (running_processes r !! id) ->
    is_Some (input_queues r !! id) /\ is_Some (process_needs_input r !! id).



(** the mailbox and the flag of [pid] are registered and [triple_ok] holds *)
Definition awaiting (pid : string) (s : state) : Prop :=
  triple_ok (regs (world_of s))
  /\ is_Some (input_queues (regs (world_of s)) !! pid)
  /\ is_Some (process_needs_input (regs (world_of s)) !! pid).

Definition keeps_triples (pid : string) (s s' : state) : Prop :=
  awaiting pid s ->
  awaiting pid s'
  /\ exists new, observed (world_of s') = observed (world_of s) ++ new
                 /\ Forall triple_ok new.

Global Instance keeps_triples_refl pid : Reflexive (keeps_triples pid).
Proof. intros s H. split; [done |]. exists []. by rewrite app_nil_r. Qed.

Global Instance keeps_triples_trans pid : Transitive (keeps_triples pid).
Proof.
  intros s1 s2 s3 H12 H23 H1.
  destruct (H12 H1) as (H2 & n1 & E1 & F1).
  destruct (H23 H2) as (H3 & n2 & E2 & F2).
  split; [done |]. exists (n1 ++ n2).
  rewrite E2, E1, app_assoc. split; [done | by apply Forall_app].
Qed.





Section Registries.

Variable env : environment.




End Registries.






(** ** The mailboxes *)

Definition keeps_mailboxes (s s' : state) : Prop :=
  mailboxes_ok (world_of s) -> mailboxes_ok (world_of s').

Global Instance keeps_mailboxes_refl : Reflexive keeps_mailboxes.
Proof. by intros s H. Qed.
Global Instance keeps_mailboxes_trans : Transitive keeps_mailboxes.
Proof. intros s1 s2 s3 H12 H23 H. by apply H23, H12. Qed.

Lemma feed_inputs_ok (pid : string) (inputs : list string) (w : world) :
  mailboxes_ok w -> mailboxes_ok (feed_inputs pid inputs w).
Proof.
  unfold feed_inputs. revert w.
  induction inputs as [|u us IH]; intros w Hok; [done |].
  cbn [foldl]. apply IH.
  eapply mailbox_step_ok; [apply provide_input_step | done].
Qed.

(** taking the first line out of a mailbox *)
Lemma queue_get_keeps_mailboxes (pid : string) :
  preserves keeps_mailboxes (queue_get pid).
Proof.
  intros [w fr] r s'. unfold queue_get, get_world, modify_world, raise,
    mbind, M_bind, mret, M_ret. cbn.
  destruct (input_queues (regs w) !! pid) as [[|x q]|] eqn:Hq;
    intros [= <- <-]; try done.
  intros Hok k q' Hk. cbn in Hk.
  destruct (decide (k = pid)) as [->|Hne].
  - rewrite lookup_insert_eq in Hk. injection Hk as <-.
    specialize (Hok pid _ Hq). by apply Forall_cons in Hok as [_ ?].
  - rewrite lookup_insert_ne in Hk by done. by apply (Hok k).
Qed.

Lemma delete_keeps_mailboxes (pid : string) (w : world) (fr : frame) :
  keeps_mailboxes (State w fr)
    (State (mutate_regs (set_input_queues (delete pid)) w) fr).
Proof.
  intros Hok k q Hk. cbn in Hk.
  apply lookup_delete_Some in Hk as [_ Hk]. by apply (Hok k).
Qed.

Ltac mailboxes_go :=
  first [ by intros H; exact H
        | apply delete_keeps_mailboxes
        | intros H; by apply feed_inputs_ok ].

Ltac preserves_mailboxes :=
  repeat first [ apply queue_get_keeps_mailboxes
               | preserves_step
               | progress preserves_prims ].

Lemma run_keeps_mailboxes env fuel code pid sid needs T docker pkgs :
  preserves keeps_mailboxes
    (run_code_with_input env fuel code pid sid needs T docker pkgs).
Proof.
  apply run_preserves; preserves_tc.
  - unfold prepare, _copy_session_datasets_to_temp.
    preserves_mailboxes; try mailboxes_go.
    all: apply copy_session_files_preserves; preserves_tc; intros; mailboxes_go.
  - intros. unfold iteration. preserves_mailboxes; mailboxes_go.
  - intros. unfold finish. preserves_mailboxes; mailboxes_go.
  - intros. unfold on_error. preserves_mailboxes; mailboxes_go.
  - unfold cleanup, unregister, terminate_if_alive, remove_workspace.
    preserves_mailboxes; mailboxes_go.
Qed.

(** C10: [/provide_input] rejects a request without a process id or with an
  empty [user_input] with status [error] and changes nothing; and whatever
  the request, a handler leaves each mailbox as it was, or (for a
  non-empty [user_input]) with the one line [user_input + "\n"] added at
  its end, or creates it empty.  So every line in a mailbox is a non-empty
  submitted string followed by one newline, also while supervisors run,
  which only take lines out. *)
Theorem provide_input_rejects_empty (data : input_request) (w : world) :
  (truthy_opt (ir_process_id data) = false \/ ir_user_input data = "" ->
     provide_input data w
     = (Response "error" "Process ID and input are required" [], w))
  /\ mailbox_step (ir_user_input data) w (snd (provide_input data w))
  /\ (forall uuid4 rq,
        mailbox_step (rq_user_input rq) w (snd (run_code uuid4 rq w)))
  /\ (mailboxes_ok w ->
        mailboxes_ok (snd (provide_input data w))
        /\ (forall uuid4 rq, mailboxes_ok (snd (run_code uuid4 rq w)))
        /\ (forall env fuel code process_id session_id code_needs_input
                   timeout_seconds use_docker docker_packages fr,
              mailboxes_ok
                (world_of (snd (run_code_with_input env fuel code process_id
                                  session_id code_needs_input timeout_seconds
                                  use_docker docker_packages (State w fr)))))).
Proof.
  split_and!.
  - intros [Hp | Hu]; unfold provide_input.
    + by rewrite Hp.
    + rewrite Hu. simpl. by rewrite orb_true_r.
  - apply provide_input_step.
  - intros. apply run_code_step.
  - intros Hok. split_and!.
    + eapply mailbox_step_ok; [apply provide_input_step | done].
    + intros. eapply mailbox_step_ok; [apply run_code_step | done].
    + intros.
      match goal with
      | |- mailboxes_ok (world_of (snd (?c ?s))) =>
          destruct (c s) as [r s'] eqn:Hrun
      end.
      by apply (run_keeps_mailboxes _ _ _ _ _ _ _ _ _ _ _ _ Hrun).
Qed.

Lemma provide_input_rejects_empty_witness :
  let data := InputRequest (Some "p1") "" in
  let w := set_regs (set_input_queues (insert "p1" ["7" +:+ nl])) empty_world in
  provide_input data w
  = (Response "error" "Process ID and input are required" [], w)
  /\ mailboxes_ok (snd (provide_input (InputRequest (Some "p1") "8") w)).
Proof.
  intros data w.
  split.
  - apply (provide_input_rejects_empty data w). by right.
  - apply (provide_input_rejects_empty (InputRequest (Some "p1") "8") w).
    intros k q Hk. simpl in Hk.
    destruct (decide (k = "p1")) as [->|Hne].
    + rewrite lookup_insert_eq in Hk. injection Hk as <-.
      apply Forall_singleton. exists "7". by split.
    + rewrite lookup_insert_ne, lookup_empty in Hk by done. done.
Defined.


(** ** The older variant *)

(** The classifier of [aappp.py] strips nothing: a commented-out call makes
  it answer true, where the classifier of [app.py] answers false. *)
Lemma legacy_classifier_does_not_strip :
  Legacy.code_needs_input "# x = input()" = true
  /\ code_needs_input "# x = input()" = false.
Proof. split; vm_compute; reflexivity. Qed.

(** [/provide_input] and the feed branch of [/run_code] are those of
  [app.py]. *)
Lemma legacy_handlers_agree (uuid4 : string) (data : run_request)
    (ir : input_request) (w : world) :
  Legacy.provide_input ir w = provide_input ir w
  /\ (truthy_opt (rq_process_id data) && Str.nonempty (rq_user_input data) = true ->
      Legacy.run_code uuid4 data w = run_code uuid4 data w).
Proof.
  split; [reflexivity |].
  intros H. unfold Legacy.run_code, run_code. by rewrite H.
Qed.

(** A start request of [aappp.py] carries no timeout: the thread gets none
  and the response reports none; the loop compares with 30 seconds. *)
Lemma legacy_timeout_is_fixed (uuid4 : string) (data : run_request) (w : world) :
  truthy_opt (rq_process_id data) && Str.nonempty (rq_user_input data) = false ->
  field "timeout_seconds" (fst (Legacy.run_code uuid4 data w)) = None
  /\ exists a, threads (snd (Legacy.run_code uuid4 data w)) = threads w ++ [a]
               /\ ta_timeout_seconds a = None.
Proof.
  intros H. unfold Legacy.run_code. rewrite H. cbn.
  split; [reflexivity |]. eexists. split; reflexivity.
Qed.

Lemma legacy_feed_inputs_eq pid inputs w :
  Legacy.feed_inputs pid inputs w = feed_inputs pid inputs w.
Proof. reflexivity. Qed.

Ltac legacy_unfold :=
  unfold Legacy.run_code_with_input, Legacy.supervise, Legacy.on_error,
    Legacy.cleanup, Legacy.run_with_input, Legacy.run_without_input,
    Legacy.iteration, Legacy.emit_outputs, Legacy.communicate,
    Legacy.write_tempfile, Legacy.popen_call, Legacy.poll, Legacy.stdin_write,
    Legacy.arrivals, Legacy.sleep.

Lemma legacy_monitor_preserves (R : state -> state -> Prop)
    `{!Reflexive R} `{!Transitive R} env h pid sid start :
  (forall n, preserves R (Legacy.iteration env n h pid sid start)) ->
  forall fuel n, preserves R (Legacy.monitor env fuel n h pid sid start).
Proof.
  intros Hit. induction fuel as [|fuel IH]; intros n; simpl.
  - preserves_go.
  - preserves_go; [apply Hit | apply IH].
Qed.

(** the launch of [aappp.py] attaches the pipes as that of [app.py] does *)
Lemma legacy_launches env fuel code pid sid needs :
  preserves (launches (stdio_ok needs))
    (Legacy.run_code_with_input env fuel code pid sid needs).
Proof.
  unfold Legacy.run_code_with_input, Legacy.supervise, Legacy.run_with_input.
  preserves_go.
  all: try (apply legacy_monitor_preserves; preserves_tc; intros).
  all: legacy_unfold; preserves_go; rewrite ?legacy_feed_inputs_eq;
    try launches_silent.
  eexists. split; [simpl; by rewrite fmap_app |].
  apply Forall_singleton. simpl. by destruct needs.
Qed.

(** the files the [finally] block of [aappp.py] leaves *)
Definition legacy_files_after (fr : frame) (fs ds : gset string) : gset string :=
  match temp_filename fr with
  | Some p => if bool_decide (p ∈ fs) then fs ∖ {[p]} else fs
  | None => fs
  end.

Lemma legacy_cleanup_spec pid w fr :
  Legacy.cleanup pid (State w fr)
  = (Ok tt,
     State (World (unregistered pid (regs w))
                  (observed w ++ unregister_snapshots pid (regs w))
                  (emitted w) (legacy_files_after fr (files w) (dirs w))
                  (dirs w) (procs w) (threads w) (clock w) (polls w)) fr).
Proof.
  rewrite <- observed_after_eq.
  destruct w as [[rp iq pni] obs em fs ds ps th ck pl]. destruct fr as [h tf td].
  unfold Legacy.cleanup, observed_after, unregistered, has_key,
    legacy_files_after.
  unfold path_exists, unlink, del_running_processes, del_input_queues,
    del_process_needs_input, try_pass, try_except, get_world, get_frame,
    modify_world, raise, mbind, M_bind, mret, M_ret.
  cbn.
  destruct (rp !! pid) as [hh|] eqn:Hrp; cbn; rewrite ?Hrp; cbn;
  destruct (iq !! pid) as [q|] eqn:Hiq; cbn; rewrite ?Hiq; cbn;
  destruct (pni !! pid) as [b|] eqn:Hpni; cbn; rewrite ?Hpni; cbn;
  rewrite ?(delete_id rp), ?(delete_id iq), ?(delete_id pni) by done;
  destruct tf as [p|]; cbn; repeat (case_bool_decide; cbn);
  first [ reflexivity | exfalso; set_solver ].
Qed.

(** the [finally] block of [aappp.py] is idempotent as well *)
Lemma legacy_cleanup_idempotent pid s :
  exists s1 s2,
    Legacy.cleanup pid s = (Ok tt, s1)
    /\ Legacy.cleanup pid s1 = (Ok tt, s2)
    /\ regs (world_of s2) = regs (world_of s1)
    /\ files (world_of s2) = files (world_of s1)
    /\ dirs (world_of s2) = dirs (world_of s1)
    /\ emitted (world_of s2) = emitted (world_of s).
Proof.
  destruct s as [w fr]. eexists; eexists.
  rewrite !legacy_cleanup_spec. split_and!; try reflexivity; cbn.
  - by rewrite unregistered_idem.
  - unfold legacy_files_after. destruct (temp_filename fr) as [p|]; [| done].
    destruct (decide (p ∈ files w)) as [Hin | Hout].
    + rewrite (bool_decide_eq_true_2 _ Hin).
      by rewrite bool_decide_eq_false_2 by set_solver.
    + by rewrite !(bool_decide_eq_false_2 _ Hout).
Qed.

(** a child of [aappp.py] that needs no input and outlives the 30 seconds *)
Definition legacy_env_hang : Legacy.environment :=
  Legacy.Env (inl "/tmp/tmpab12.py") None None Legacy.CommunicateTimeout
             (fun _ => None) (fun _ => Tick [] None 950)
             (Legacy.Communicated "" "").

Definition legacy_after_start (code : string) : state :=
  State (snd (Legacy.run_code "id-1" (RunRequest code "room" "" None None false [])
                              empty_world))
        initial_frame.

(** In [aappp.py] an execution without input that times out ends without
  any completion event, and one with input that times out ends with the
  status [completed]. *)
Lemma legacy_timeout_runs :
  let r0 := Legacy.run_code_with_input legacy_env_hang 1 "while True: pass"
              "id-1" "room" false (legacy_after_start "while True: pass") in
  let r1 := Legacy.run_code_with_input legacy_env_hang 40 "input()"
              "id-1" "room" true (legacy_after_start "input()") in
  (fst r0 = Ok tt
   /\ emitted (world_of (snd r0))
      = [started_event "id-1" "room";
         Emit (code_output "id-1" Legacy.timeout_notice "error") "room"])
  /\ (fst r1 = Ok tt
      /\ emitted (world_of (snd r1))
         = [started_event "id-1" "room";
            Emit (code_output "id-1" Legacy.timeout_notice "error") "room";
            complete_event "id-1" "room" "completed"]).
Proof. split; split; vm_compute; reflexivity. Qed.

(** * Further properties *)

(** ** More on the supervisor *)

(** symbolic execution of supervisor code *)
Ltac sup_unfold :=
  unfold emit_output, emit, time_time, sleep, path_exists, isdir, mkdtemp,
    write_program, makedirs, copy2_or_pass, popen_call, poll,
    kill, has_stdin, stdin_write, arrivals, queue_get, del_running_processes,
    del_input_queues, del_process_needs_input, unlink, rmdir, pass_KeyError,
    assign_process, assign_temp_filename, assign_temp_dir, update_proc,
    try_pass, try_except, try_finally, get_world, get_frame, modify_world,
    modify_frame, raise, out_of_fuel, mbind, M_bind, mret, M_ret in *.

Ltac sup_inserts :=
  match goal with
  | H : ?l !! ?h = Some ?p, H' : context [<[?h := ?x]> ?l !! ?h] |- _ =>
      rewrite (lookup_insert_same l h p x H) in H'
  | H : ?l !! ?h = Some ?p |- context [<[?h := ?x]> ?l !! ?h] =>
      rewrite (lookup_insert_same l h p x H)
  end.

Ltac sup_cases :=
  repeat (first [ progress sup_inserts
                | progress (rewrite feed_inputs_eq in * )
                | case_match ];
          simplify_eq;
          cbn -[timeout_message error_message Z.mul Z.ltb Z.sub Z.add] in * ).

(** *** The end of a run *)

(** the registry entries of the other executions *)
Definition others_kept (pid : string) (s s' : state) : Prop :=
  forall k, k <> pid ->
    running_processes (regs (world_of s')) !! k
    = running_processes (regs (world_of s)) !! k
    /\ input_queues (regs (world_of s')) !! k
       = input_queues (regs (world_of s)) !! k
    /\ process_needs_input (regs (world_of s')) !! k
       = process_needs_input (regs (world_of s)) !! k.

Global Instance others_kept_refl pid : Reflexive (others_kept pid).
Proof. by intros s k Hk. Qed.

Global Instance others_kept_trans pid : Transitive (others_kept pid).
Proof.
  intros s1 s2 s3 H12 H23 k Hk.
  destruct (H12 k Hk) as (? & ? & ?), (H23 k Hk) as (? & ? & ?).
  split_and!; congruence.
Qed.






(** *** What reaches the child's stdin *)

(** the lines that arrive for [pid] before the passes [n], ..., [n + k - 1]
  of the loop read the mailbox *)
Definition arrived (env : environment) (pid : string) (n k : nat) : list string :=
  concat ((fun i => fed_lines pid (tk_arrivals (env_tick env i))) <$> seq n k).

Lemma arrived_S env pid n k :
  arrived env pid n (S k)
  = fed_lines pid (tk_arrivals (env_tick env n)) ++ arrived env pid (S n) k.
Proof. reflexivity. Qed.

Definition ack (pid sid : string) : emission := Emit (input_received pid) sid.

Section Delivery.

Variable env : environment.

Lemma iteration_pipe n h pid sid T start s r s' p q :
  tk_write (env_tick env n) = None ->
  procs (world_of s) !! h = Some p -> p_stdin p = PIPE ->
  input_queues (regs (world_of s)) !! pid = Some q ->
  iteration env n h pid sid T start s = (r, s') ->
  exists p' q' new out,
    procs (world_of s') !! h = Some p' /\ p_stdin p' = PIPE
    /\ input_queues (regs (world_of s')) !! pid = Some q'
    /\ p_written p' = p_written p ++ out
    /\ out ++ q' = q ++ new
    /\ emitted (world_of s')
       = emitted (world_of s) ++ repeat (ack pid sid) (length out)
         ++ match r with
            | Ok (Some TimedOut) => [timeout_event pid sid T]
            | _ => []
            end
    /\ match r with
       | Ok None => new = fed_lines pid (tk_arrivals (env_tick env n))
                    /\ (length out <= 1)%nat
       | Ok (Some x) => new = [] /\ x <> QueueRemoved /\ out = []
       | _ => False
       end.
Proof.
  destruct s as [w fr]. intros Hw Hp Hpipe Hq. unfold iteration, timeout_event, ack.
  sup_unfold. cbn -[timeout_message Z.mul Z.ltb Z.sub Z.add].
  rewrite ?feed_inputs_eq, Hw. intros H. sup_cases.
  all: rewrite ?lookup_alter_eq, ?lookup_insert_eq, ?Hq in *; cbn in *; simplify_eq.
  all: try match goal with H : bool_decide _ = false |- _ =>
             apply bool_decide_eq_false in H; cbn in H; congruence end.
  all: first
    [ by (eexists _, _, [], []; split_and!;
          first [ eassumption | reflexivity | by rewrite ?app_nil_r | done
                | cbn; lia ])
    | by (eexists _, _, (fed_lines pid (tk_arrivals (env_tick env n))), [];
          split_and!;
          first [ eassumption | reflexivity | by rewrite ?app_nil_r | done
                | cbn; lia ])
    | by (eexists _, _, (fed_lines pid (tk_arrivals (env_tick env n))), [_];
          split_and!;
          first [ eassumption | reflexivity | by rewrite ?app_nil_r | done
                | cbn; lia ])
    ].
Qed.

Lemma iteration_no_pipe n h pid sid T start s r s' p q :
  procs (world_of s) !! h = Some p -> p_stdin p = NoPipe ->
  input_queues (regs (world_of s)) !! pid = Some q ->
  iteration env n h pid sid T start s = (r, s') ->
  exists p' q' new dropped,
    procs (world_of s') !! h = Some p' /\ p_stdin p' = NoPipe
    /\ input_queues (regs (world_of s')) !! pid = Some q'
    /\ p_written p' = p_written p
    /\ dropped ++ q' = q ++ new
    /\ emitted (world_of s')
       = emitted (world_of s)
         ++ match r with
            | Ok (Some TimedOut) => [timeout_event pid sid T]
            | _ => []
            end
    /\ match r with
       | Ok None => new = fed_lines pid (tk_arrivals (env_tick env n))
                    /\ (length dropped <= 1)%nat
       | Ok (Some x) => new = [] /\ x <> QueueRemoved /\ dropped = []
       | _ => False
       end.
Proof.
  destruct s as [w fr]. intros Hp Hpipe Hq. unfold iteration, timeout_event.
  sup_unfold. cbn -[timeout_message Z.mul Z.ltb Z.sub Z.add].
  rewrite ?feed_inputs_eq. intros H. sup_cases.
  all: rewrite ?lookup_alter_eq, ?lookup_insert_eq, ?Hq in *; cbn in *; simplify_eq.
  all: try match goal with H : bool_decide _ = true |- _ =>
             apply bool_decide_eq_true in H; cbn in H; congruence end.
  all: first
    [ by (eexists _, _, [], []; split_and!;
          first [ eassumption | reflexivity | by rewrite ?app_nil_r | done
                | cbn; lia ])
    | by (eexists _, _, (fed_lines pid (tk_arrivals (env_tick env n))), [];
          split_and!;
          first [ eassumption | reflexivity | by rewrite ?app_nil_r | done
                | cbn; lia ])
    | by (eexists _, _, (fed_lines pid (tk_arrivals (env_tick env n))), [_];
          split_and!;
          first [ eassumption | reflexivity | by rewrite ?app_nil_r | done
                | cbn; lia ])
    ].
Qed.


(** the loop of a child that was given a stdin pipe, when no write to the
  pipe fails *)
Lemma monitor_pipe fuel : forall n h pid sid T start s r s' p q,
  (forall i, tk_write (env_tick env i) = None) ->
  procs (world_of s) !! h = Some p -> p_stdin p = PIPE ->
  input_queues (regs (world_of s)) !! pid = Some q ->
  monitor env fuel n h pid sid T start s = (r, s') ->
  exists p' q' k out,
    procs (world_of s') !! h = Some p'
    /\ input_queues (regs (world_of s')) !! pid = Some q'
    /\ p_written p' = p_written p ++ out
    /\ out ++ q' = q ++ arrived env pid n k
    /\ (length out <= k)%nat
    /\ emitted (world_of s')
       = emitted (world_of s) ++ monitor_events pid sid T (length out) r
    /\ (forall e, r <> Raise e) /\ r <> Ok QueueRemoved.
Proof.
  induction fuel as [|fuel IH]; intros n h pid sid T start s r s' p q Hw Hp Hpipe Hq;
    simpl.
  - intros [= <- <-]. exists p, q, 0%nat, []. unfold monitor_events, arrived. simpl.
    rewrite !app_nil_r. done.
  - unfold mbind, M_bind.
    destruct (iteration env n h pid sid T start s) as [ri s1] eqn:Hit.
    destruct (iteration_pipe _ _ _ _ _ _ _ _ _ _ _ (Hw n) Hp Hpipe Hq Hit)
      as (p1 & q1 & new & out1 & Hp1 & Hpipe1 & Hq1 & Hw1 & Hout1 & Hem1 & Hr).
    destruct ri as [[x|]|e|]; [| | done | done].
    + destruct Hr as (-> & Hx & ->). intros [= <- <-].
      exists p1, q1, 0%nat, []. unfold monitor_events, arrived.
      simpl in *. rewrite ?app_nil_r in *.
      split_and!; try done;
        first [ by intros [= ->] | rewrite Hem1; by destruct x ].
    + destruct Hr as [-> Hlen]. intros Hmon.
      destruct (IH _ _ _ _ _ _ _ _ _ _ _ Hw Hp1 Hpipe1 Hq1 Hmon)
        as (p2 & q2 & k & out2 & Hp2 & Hq2 & Hw2 & Hout2 & Hlen2 & Hem2 & Hne & Hnq).
      exists p2, q2, (S k), (out1 ++ out2). split_and!; try done.
      * by rewrite Hw2, Hw1, app_assoc.
      * rewrite arrived_S, <- app_assoc, Hout2, !app_assoc. by rewrite Hout1.
      * rewrite length_app. lia.
      * rewrite Hem2, Hem1. unfold monitor_events.
        rewrite length_app, repeat_app, app_nil_r, <- !app_assoc. done.
Qed.

Lemma monitor_no_pipe fuel : forall n h pid sid T start s r s' p q,
  procs (world_of s) !! h = Some p -> p_stdin p = NoPipe ->
  input_queues (regs (world_of s)) !! pid = Some q ->
  monitor env fuel n h pid sid T start s = (r, s') ->
  exists p' q' k dropped,
    procs (world_of s') !! h = Some p'
    /\ input_queues (regs (world_of s')) !! pid = Some q'
    /\ p_written p' = p_written p
    /\ dropped ++ q' = q ++ arrived env pid n k
    /\ (length dropped <= k)%nat
    /\ emitted (world_of s')
       = emitted (world_of s) ++ monitor_events pid sid T 0 r
    /\ (forall e, r <> Raise e) /\ r <> Ok QueueRemoved.
Proof.
  induction fuel as [|fuel IH]; intros n h pid sid T start s r s' p q Hp Hpipe Hq;
    simpl.
  - intros [= <- <-]. exists p, q, 0%nat, []. unfold monitor_events, arrived. simpl.
    rewrite !app_nil_r. done.
  - unfold mbind, M_bind.
    destruct (iteration env n h pid sid T start s) as [ri s1] eqn:Hit.
    destruct (iteration_no_pipe _ _ _ _ _ _ _ _ _ _ _ Hp Hpipe Hq Hit)
      as (p1 & q1 & new & out1 & Hp1 & Hpipe1 & Hq1 & Hw1 & Hout1 & Hem1 & Hr).
    destruct ri as [[x|]|e|]; [| | done | done].
    + destruct Hr as (-> & Hx & ->). intros [= <- <-].
      exists p1, q1, 0%nat, []. unfold monitor_events, arrived.
      simpl in *. rewrite ?app_nil_r in *.
      split_and!; try done;
        first [ by intros [= ->] | rewrite Hem1; by destruct x ].
    + destruct Hr as [-> Hlen]. intros Hmon.
      destruct (IH _ _ _ _ _ _ _ _ _ _ _ Hp1 Hpipe1 Hq1 Hmon)
        as (p2 & q2 & k & out2 & Hp2 & Hq2 & Hw2 & Hout2 & Hlen2 & Hem2 & Hne & Hnq).
      exists p2, q2, (S k), (out1 ++ out2). split_and!; try done.
      * by rewrite Hw2, Hw1.
      * rewrite arrived_S, <- app_assoc, Hout2, !app_assoc. by rewrite Hout1.
      * rewrite length_app. lia.
      * rewrite Hem2, Hem1. by rewrite app_nil_r.
Qed.


End Delivery.

(** a child that reads two lines slowly: it has exited at the fifth probe;
  three lines are submitted, the first before the loop starts *)
Definition env_reader : environment :=
  Env (inl "/tmp/siren_exec_a") None None None false None
      (fun k => if (k <? 4)%nat then None else Some 0)
      (fun n => Tick (match n with
                      | 0%nat => ["3"]
                      | 1%nat => ["4"; ""; "5"]
                      | _ => []
                      end) None 0).

(** X11: while the loop watches a child that was started with a stdin
  pipe, and as long as no write to the pipe fails, what has been written
  to the pipe followed by what waits in the mailbox is what had been
  written and was waiting before, followed by the lines that arrived, in
  the order of their arrival: no line is lost, written twice or
  overtaken.  Each line written is acknowledged by one [input_received]
  event, and the loop ends neither by an exception nor by the
  removed-mailbox exit. *)
Theorem input_delivered_in_order (env : environment) (fuel n h : nat)
    (process_id session_id : string) (timeout_seconds start_time : Z)
    (s : state) (r : outcome loop_exit) (s' : state) (p : popen)
    (q : list string) :
  (forall i, tk_write (env_tick env i) = None) ->
  procs (world_of s) !! h = Some p -> p_stdin p = PIPE ->
  input_queues (regs (world_of s)) !! process_id = Some q ->
  monitor env fuel n h process_id session_id timeout_seconds start_time s = (r, s') ->
  exists p' q' k out,
    procs (world_of s') !! h = Some p'
    /\ input_queues (regs (world_of s')) !! process_id = Some q'
    /\ p_written p' = p_written p ++ out
    /\ p_written p' ++ q' = p_written p ++ q ++ arrived env process_id n k
    /\ (length out <= k)%nat
    /\ emitted (world_of s')
       = emitted (world_of s)
         ++ monitor_events process_id session_id timeout_seconds (length out) r
    /\ (forall e, r <> Raise e) /\ r <> Ok QueueRemoved.
Proof.
  intros Hw Hp Hpipe Hq Hmon.
  destruct (monitor_pipe env fuel _ _ _ _ _ _ _ _ _ _ _ Hw Hp Hpipe Hq Hmon)
    as (p' & q' & k & out & Hp' & Hq' & Hw' & Hout & Hlen & Hem & Hne & Hnq).
  exists p', q', k, out. split_and!; try done.
  by rewrite Hw', <- !app_assoc, Hout.
Qed.

Lemma input_delivered_in_order_witness :
  let s := after_start "id-1" "a = input(); b = input()" None in
  let s1 := snd (prepare env_reader "a = input(); b = input()" "id-1" "room"
                         true false [] s) in
  let res := monitor env_reader 9 0 0 "id-1" "room" 120 (clock (world_of s1)) s1 in
  fst res = Ok ProcessFinished
  /\ exists p' q' k out,
       procs (world_of (snd res)) !! 0%nat = Some p'
       /\ input_queues (regs (world_of (snd res))) !! "id-1" = Some q'
       /\ p_written p' = [] ++ out
       /\ p_written p' ++ q' = [] ++ [] ++ arrived env_reader "id-1" 0 k
       /\ (length out <= k)%nat
       /\ emitted (world_of (snd res))
          = emitted (world_of s1)
            ++ monitor_events "id-1" "room" 120 (length out) (fst res)
       /\ (forall e, fst res <> Raise e) /\ fst res <> Ok QueueRemoved.
Proof.
  intros s s1 res. split; [vm_compute; reflexivity |].
  apply (input_delivered_in_order env_reader 9 0 0 "id-1" "room" 120
           (clock (world_of s1)) s1 (fst res) (snd res)
           (Popen ["python"; "/tmp/siren_exec_a/program.py"] PIPE PIPE PIPE
                  (Some "/tmp/siren_exec_a") None false []) []).
  - intros i. by destruct i as [|[|i]].
  - vm_compute. reflexivity.
  - reflexivity.
  - vm_compute. reflexivity.
  - apply surjective_pairing.
Defined.

(** X12: while the loop watches a child that was started without a stdin
  pipe, nothing is written to the child and no [input_received] event is
  published; the lines submitted for it are taken from the mailbox, one
  in each pass, and dropped. *)
Theorem input_discarded_without_pipe (env : environment) (fuel n h : nat)
    (process_id session_id : string) (timeout_seconds start_time : Z)
    (s : state) (r : outcome loop_exit) (s' : state) (p : popen)
    (q : list string) :
  procs (world_of s) !! h = Some p -> p_stdin p = NoPipe ->
  input_queues (regs (world_of s)) !! process_id = Some q ->
  monitor env fuel n h process_id session_id timeout_seconds start_time s = (r, s') ->
  exists p' q' k dropped,
    procs (world_of s') !! h = Some p'
    /\ input_queues (regs (world_of s')) !! process_id = Some q'
    /\ p_written p' = p_written p
    /\ dropped ++ q' = q ++ arrived env process_id n k
    /\ (length dropped <= k)%nat
    /\ emitted (world_of s')
       = emitted (world_of s)
         ++ monitor_events process_id session_id timeout_seconds 0 r
    /\ (forall e, r <> Raise e) /\ r <> Ok QueueRemoved.
Proof.
  intros Hp Hpipe Hq Hmon.
  destruct (monitor_no_pipe env fuel _ _ _ _ _ _ _ _ _ _ _ Hp Hpipe Hq Hmon)
    as (p' & q' & k & out & Hp' & Hq' & Hw' & Hout & Hlen & Hem & Hne & Hnq).
  exists p', q', k, out. by split_and!.
Qed.

Lemma input_discarded_without_pipe_witness :
  let s := after_start "id-1" "eval('inp' + 'ut()')" None in
  let s1 := snd (prepare env_reader "eval('inp' + 'ut()')" "id-1" "room"
                         false false [] s) in
  let res := monitor env_reader 9 0 0 "id-1" "room" 120 (clock (world_of s1)) s1 in
  code_needs_input "eval('inp' + 'ut()')" = false
  /\ fst res = Ok ProcessFinished
  /\ exists p' q' k dropped,
       procs (world_of (snd res)) !! 0%nat = Some p'
       /\ input_queues (regs (world_of (snd res))) !! "id-1" = Some q'
       /\ p_written p' = []
       /\ dropped ++ q' = [] ++ arrived env_reader "id-1" 0 k
       /\ (length dropped <= k)%nat
       /\ emitted (world_of (snd res))
          = emitted (world_of s1) ++ monitor_events "id-1" "room" 120 0 (fst res)
       /\ (forall e, fst res <> Raise e) /\ fst res <> Ok QueueRemoved.
Proof.
  intros s s1 res. split; [vm_compute; reflexivity |].
  split; [vm_compute; reflexivity |].
  apply (input_discarded_without_pipe env_reader 9 0 0 "id-1" "room" 120
           (clock (world_of s1)) s1 (fst res) (snd res)
           (Popen ["python"; "/tmp/siren_exec_a/program.py"] NoPipe PIPE PIPE
                  (Some "/tmp/siren_exec_a") None false []) []).
  - vm_compute. reflexivity.
  - reflexivity.
  - vm_compute. reflexivity.
  - apply surjective_pairing.
Defined.



(** *** The workspace *)

Lemma prefix_length (p s : string) :
  Str.prefix p s = true -> (String.length p <= String.length s)%nat.
Proof.
  revert s. induction p as [|a p IH]; intros [|b s]; simpl; try done; try lia.
  destruct (Ascii.eqb a b); [| done]. intros H%IH. lia.
Qed.


Lemma length_append (a b : string) :
  String.length (a +:+ b) = (String.length a + String.length b)%nat.
Proof. induction a as [|c a IH]; simpl; [done | by rewrite IH]. Qed.



(** neither the files and directories nor the two local variables that
  name the workspace change *)
Definition same_workspace (s s' : state) : Prop :=
  files (world_of s') = files (world_of s)
  /\ dirs (world_of s') = dirs (world_of s)
  /\ temp_filename (frame_of s') = temp_filename (frame_of s)
  /\ temp_dir (frame_of s') = temp_dir (frame_of s).

Global Instance same_workspace_refl : Reflexive same_workspace.
Proof. by intros s. Qed.

Global Instance same_workspace_trans : Transitive same_workspace.
Proof.
  intros s1 s2 s3 (? & ? & ? & ?) (? & ? & ? & ?). split_and!; congruence.
Qed.



Section Workspace.

Variable env : environment.





End Workspace.




(** *** From the start request to the first line *)

(** X15: a [/run_code] request that starts an execution answers with the
  new id and the verdict of the classifier, registers that verdict, and
  hands both to the thread it starts; from then on a line submitted to
  [/provide_input] under that id is accepted, and it is the line the
  supervisor's next read of the mailbox returns, with a newline added. *)
Theorem started_execution_accepts_input (uuid4 : string) (data : run_request)
    (w : world) (user_input : string) (fr : frame) :
  truthy_opt (rq_process_id data) && Str.nonempty (rq_user_input data) = false ->
  uuid4 <> "" -> user_input <> "" ->
  let needs := code_needs_input (rq_code data) in
  let started := run_code uuid4 data w in
  let fed := provide_input (InputRequest (Some uuid4) user_input) (snd started) in
  status (fst started) = "started"
  /\ field "process_id" (fst started) = Some (JStr uuid4)
  /\ field "needs_input" (fst started) = Some (JBool needs)
  /\ process_needs_input (regs (snd started)) !! uuid4 = Some needs
  /\ (exists a, threads (snd started) = threads w ++ [a]
                /\ ta_process_id a = uuid4 /\ ta_code_needs_input a = needs
                /\ ta_code a = rq_code data /\ ta_session_id a = rq_session_id data)
  /\ status (fst fed) = "success"
  /\ exists w',
       queue_get uuid4 (State (snd fed) fr) = (Ok (user_input +:+ nl), State w' fr)
       /\ input_queues (regs w') !! uuid4 = Some [].
Proof.
  intros Hstart Hid Hu needs started fed. subst needs started fed.
  unfold run_code. rewrite Hstart. cbn [fst snd status field fields assoc].
  split; [done |]. split; [done |]. split; [done |].
  split; [cbn; by rewrite lookup_insert_eq |].
  split; [eexists; split; [reflexivity | done] |].
  rewrite (provide_input_feed _ _ uuid4) by done. cbn.
  rewrite lookup_insert_eq. cbn. split; [done |].
  unfold queue_get, get_world, modify_world, mbind, M_bind, mret, M_ret. cbn.
  rewrite lookup_alter_eq, lookup_insert_eq. cbn.
  eexists. split; [reflexivity |]. cbn. by rewrite lookup_insert_eq.
Qed.

Lemma started_execution_accepts_input_witness :
  let data := RunRequest "x = input()" "room" "" None None false [] in
  let started := run_code "id-1" data empty_world in
  let fed := provide_input (InputRequest (Some "id-1") "42") (snd started) in
  status (fst started) = "started"
  /\ field "process_id" (fst started) = Some (JStr "id-1")
  /\ field "needs_input" (fst started) = Some (JBool true)
  /\ fst (queue_get "id-1" (State (snd fed) initial_frame)) = Ok ("42" +:+ nl).
Proof.
  intros data started fed.
  destruct (started_execution_accepts_input "id-1" data empty_world "42"
              initial_frame)
    as (Hst & Hid & Hneeds & _ & _ & _ & w' & Hget & _);
    [reflexivity | discriminate | discriminate |].
  split; [exact Hst |]. split; [exact Hid |]. split; [exact Hneeds |].
  subst fed started. by rewrite Hget.
Defined.

(** *** The two definitions of [_copy_session_datasets_to_temp] *)

(** two states that differ at most in the files and directories *)
Definition same_but_paths (s1 s2 : state) : Prop :=
  regs (world_of s1) = regs (world_of s2)
  /\ observed (world_of s1) = observed (world_of s2)
  /\ emitted (world_of s1) = emitted (world_of s2)
  /\ procs (world_of s1) = procs (world_of s2)
  /\ threads (world_of s1) = threads (world_of s2)
  /\ clock (world_of s1) = clock (world_of s2)
  /\ polls (world_of s1) = polls (world_of s2)
  /\ frame_of s1 = frame_of s2.

Global Instance same_but_paths_equiv : Equivalence same_but_paths.
Proof.
  split.
  - by intros s.
  - intros s1 s2 (? & ? & ? & ? & ? & ? & ? & ?). by split_and!.
  - intros s1 s2 s3 (? & ? & ? & ? & ? & ? & ? & ?) (? & ? & ? & ? & ? & ? & ? & ?).
    split_and!; congruence.
Qed.

(** [c1] from [s1] and [c2] from [s2] end the same way, in states that
  differ at most in the files and directories *)
Definition agree {A} (c1 c2 : M A) (s1 s2 : state) : Prop :=
  fst (c1 s1) = fst (c2 s2) /\ same_but_paths (snd (c1 s1)) (snd (c2 s2)).

(** [c] does not look at the files and directories *)
Definition blind {A} (c : M A) : Prop :=
  forall s1 s2, same_but_paths s1 s2 -> agree c c s1 s2.

Lemma agree_bind {A B} (c1 c2 : M A) (k1 k2 : A -> M B) s1 s2 :
  agree c1 c2 s1 s2 ->
  (forall a t1 t2, same_but_paths t1 t2 -> agree (k1 a) (k2 a) t1 t2) ->
  agree (c1 ≫= k1) (c2 ≫= k2) s1 s2.
Proof.
  unfold agree, mbind, M_bind. intros [Hr Hs] Hk.
  destruct (c1 s1) as [r1 t1], (c2 s2) as [r2 t2]. cbn in *. subst r2.
  destruct r1 as [a|e|]; [by apply Hk | done..].
Qed.

Lemma agree_try_except {A} (c1 c2 : M A) (h : exn -> M A) s1 s2 :
  agree c1 c2 s1 s2 -> (forall e, blind (h e)) ->
  agree (try_except c1 h) (try_except c2 h) s1 s2.
Proof.
  unfold agree, try_except. intros [Hr Hs] Hh.
  destruct (c1 s1) as [r1 t1], (c2 s2) as [r2 t2]. cbn in *. subst r2.
  destruct r1 as [a|e|]; [done | by apply Hh | done].
Qed.

Lemma agree_try_finally {A} (c1 c2 : M A) (f : M unit) s1 s2 :
  agree c1 c2 s1 s2 -> blind f ->
  agree (try_finally c1 f) (try_finally c2 f) s1 s2.
Proof.
  unfold agree, try_finally. intros [Hr Hs] Hf.
  destruct (c1 s1) as [r1 t1], (c2 s2) as [r2 t2]. cbn in *. subst r2.
  destruct (Hf t1 t2 Hs) as [Hfr Hfs].
  destruct (f t1) as [q1 u1], (f t2) as [q2 u2]. cbn in *. subst q2.
  destruct r1 as [a|e|]; [| | done]; by destruct q1 as [[]|e'|].
Qed.

Lemma blind_ret {A} (a : A) : blind (mret a).
Proof. by intros s1 s2 H. Qed.
Lemma blind_raise {A} (e : exn) : blind (@raise A e).
Proof. by intros s1 s2 H. Qed.
Lemma blind_out_of_fuel {A} : blind (@out_of_fuel A).
Proof. by intros s1 s2 H. Qed.

Lemma blind_bind {A B} (c : M A) (k : A -> M B) :
  blind c -> (forall a, blind (k a)) -> blind (c ≫= k).
Proof. intros Hc Hk s1 s2 H. apply agree_bind; [by apply Hc | intros; by apply Hk]. Qed.

Lemma blind_try_except {A} (c : M A) (h : exn -> M A) :
  blind c -> (forall e, blind (h e)) -> blind (try_except c h).
Proof. intros Hc Hh s1 s2 H. apply agree_try_except; [by apply Hc | done]. Qed.

Lemma blind_try_pass (c : M unit) : blind c -> blind (try_pass c).
Proof. intros Hc. apply blind_try_except; [done | intros; apply blind_ret]. Qed.

(** the primitives that neither read nor decide by the files and
  directories *)
Ltac blind_prim :=
  intros [[r1 o1 e1 f1 d1 p1 t1 c1 n1] fr1] [[r2 o2 e2 f2 d2 p2 t2 c2 n2] fr2] H;
  unfold same_but_paths in H; cbn in H;
  destruct H as (-> & -> & -> & -> & -> & -> & -> & ->);
  unfold agree, same_but_paths; sup_unfold; rewrite ?feed_inputs_eq; cbn;
  repeat (case_match; cbn); simplify_eq; cbn; by split_and!.

Section Blind.

Variable env : environment.

Lemma blind_emit ev room : blind (emit ev room).
Proof. blind_prim. Qed.
Lemma blind_emit_output pid out ty sid : blind (emit_output pid out ty sid).
Proof. blind_prim. Qed.
Lemma blind_time_time : blind time_time.
Proof. blind_prim. Qed.
Lemma blind_sleep n : blind (sleep env n).
Proof. blind_prim. Qed.
Lemma blind_mkdtemp : blind (mkdtemp env).
Proof. blind_prim. Qed.
Lemma blind_write_program p : blind (write_program env p).
Proof. blind_prim. Qed.
Lemma blind_assign_process h : blind (assign_process h).
Proof. blind_prim. Qed.
Lemma blind_assign_temp_dir d : blind (assign_temp_dir d).
Proof. blind_prim. Qed.
Lemma blind_assign_temp_filename p : blind (assign_temp_filename p).
Proof. blind_prim. Qed.
Lemma blind_popen_call cmd i o e cwd : blind (popen_call env cmd i o e cwd).
Proof. blind_prim. Qed.
Lemma blind_register pid h :
  blind (modify_world (mutate_regs (set_running_processes (insert pid h)))).
Proof. blind_prim. Qed.
Lemma blind_poll h : blind (poll env h).
Proof. blind_prim. Qed.
Lemma blind_kill h : blind (kill h).
Proof. blind_prim. Qed.
Lemma blind_has_stdin h : blind (has_stdin h).
Proof. blind_prim. Qed.
Lemma blind_stdin_write n h x : blind (stdin_write env n h x).
Proof. blind_prim. Qed.
Lemma blind_arrivals n pid : blind (arrivals env n pid).
Proof. unfold arrivals. blind_prim. Qed.
Lemma blind_queue_get pid : blind (queue_get pid).
Proof. blind_prim. Qed.
Lemma blind_get_frame : blind get_frame.
Proof. blind_prim. Qed.

Lemma blind_terminate_if_alive : blind (terminate_if_alive env).
Proof.
  unfold terminate_if_alive. apply blind_try_pass.
  apply blind_bind; [apply blind_get_frame |]. intros fr.
  destruct (process fr) as [h|]; [| apply blind_ret].
  apply blind_bind; [apply blind_poll |]. intros [rc|];
    [apply blind_ret | apply blind_kill].
Qed.

Lemma blind_unregister pid : blind (unregister pid).
Proof.
  intros [w1 fr1] [w2 fr2] (Hr & Ho & ? & ? & ? & ? & ? & ?). cbn in *.
  unfold agree. rewrite !unregister_spec. cbn. rewrite Hr, Ho.
  split; [done |]. by split_and!.
Qed.

(** [remove_workspace] does look at the files and directories, but it
  changes nothing else and ends normally whatever it finds *)
Lemma blind_remove_workspace : blind remove_workspace.
Proof.
  intros [w1 fr1] [w2 fr2] (? & ? & ? & ? & ? & ? & ? & ?). cbn in *.
  unfold agree. rewrite !remove_workspace_spec. cbn.
  split; [done |]. by split_and!.
Qed.

Ltac blind_step :=
  lazymatch goal with
  | |- blind (mret _) => apply blind_ret
  | |- blind (raise _) => apply blind_raise
  | |- blind out_of_fuel => apply blind_out_of_fuel
  | |- blind (emit_output _ _ _ _) => apply blind_emit_output
  | |- blind (emit _ _) => apply blind_emit
  | |- blind time_time => apply blind_time_time
  | |- blind (sleep _ _) => apply blind_sleep
  | |- blind (mkdtemp _) => apply blind_mkdtemp
  | |- blind (write_program _ _) => apply blind_write_program
  | |- blind (assign_process _) => apply blind_assign_process
  | |- blind (assign_temp_dir _) => apply blind_assign_temp_dir
  | |- blind (assign_temp_filename _) => apply blind_assign_temp_filename
  | |- blind (popen_call _ _ _ _ _ _) => apply blind_popen_call
  | |- blind (modify_world (mutate_regs _)) => apply blind_register
  | |- blind (poll _ _) => apply blind_poll
  | |- blind (kill _) => apply blind_kill
  | |- blind (has_stdin _) => apply blind_has_stdin
  | |- blind (stdin_write _ _ _ _) => apply blind_stdin_write
  | |- blind (arrivals _ _ _) => apply blind_arrivals
  | |- blind (queue_get _) => apply blind_queue_get
  | |- blind (terminate_if_alive _) => apply blind_terminate_if_alive
  | |- blind (unregister _) => apply blind_unregister
  | |- blind remove_workspace => apply blind_remove_workspace
  | |- blind (_ ≫= _) => apply blind_bind; [| intros ?]
  | |- blind (try_pass _) => apply blind_try_pass
  | |- blind (try_except _ _) => apply blind_try_except; [| intros ?]
  | |- blind (match ?x with _ => _ end) => destruct x
  end.

Ltac blind_go := repeat blind_step.

Lemma blind_iteration n h pid sid T start :
  blind (iteration env n h pid sid T start).
Proof. unfold iteration. blind_go. Qed.

Lemma blind_monitor fuel : forall n h pid sid T start,
  blind (monitor env fuel n h pid sid T start).
Proof.
  induction fuel as [|fuel IH]; intros n h pid sid T start; simpl.
  - apply blind_out_of_fuel.
  - apply blind_bind; [apply blind_iteration |].
    intros [x|]; [apply blind_ret | apply IH].
Qed.

Lemma blind_finish h pid sid : blind (finish env h pid sid).
Proof. unfold finish. blind_go. Qed.

Lemma blind_cleanup pid : blind (cleanup env pid).
Proof. unfold cleanup. blind_go. Qed.

Lemma blind_on_error pid sid e : blind (on_error pid sid e).
Proof. unfold on_error. blind_go. Qed.

(** the copies change the files only, and never fail *)
Lemma copy_session_files_paths fs target mirror : forall s,
  exists s', copy_session_files fs target mirror s = (Ok tt, s')
    /\ same_but_paths s s'
    /\ dirs (world_of s') = dirs (world_of s).
Proof.
  induction fs as [|[[f ok1] ok2] fs IH]; intros [w fr]; simpl.
  - by eexists.
  - unfold copy2_or_pass, mbind, M_bind, modify_world, mret, M_ret.
    destruct ok1, ok2; cbn;
      match goal with |- context [copy_session_files fs target mirror ?s] =>
        destruct (IH s) as (s' & -> & Hs & Hd) end;
      exists s'; split_and!; try done;
      (etrans; [| exact Hs]); by split_and!.
Qed.

Lemma rebound_copy_session_files_paths fs target : forall s,
  exists s', Rebound.copy_session_files fs target s = (Ok tt, s')
    /\ same_but_paths s s'
    /\ dirs (world_of s') = dirs (world_of s).
Proof.
  induction fs as [|[[f ok1] ok2] fs IH]; intros [w fr]; simpl.
  - by eexists.
  - unfold copy2_or_pass, mbind, M_bind, modify_world, mret, M_ret.
    destruct ok1; cbn;
      match goal with |- context [Rebound.copy_session_files fs target ?s] =>
        destruct (IH s) as (s' & -> & Hs & Hd) end;
      exists s'; split_and!; try done;
      (etrans; [| exact Hs]); by split_and!.
Qed.

(** the [try] block around the copy, lines 196-203, with either
  definition: the notice is published in the same cases *)
Lemma copy_block_agrees pid sid d s :
  agree
    (try_pass
       (_copy_session_datasets_to_temp env sid d;;
        b ← isdir (path_join d "data");
        if (b : bool) then emit_output pid datasets_notice "system" sid
        else mret tt))
    (try_pass
       (Rebound._copy_session_datasets_to_temp env sid d;;
        b ← isdir (path_join d "data");
        if (b : bool) then emit_output pid datasets_notice "system" sid
        else mret tt))
    s s.
Proof.
  unfold _copy_session_datasets_to_temp, Rebound._copy_session_datasets_to_temp.
  destruct (env_session_files env) as [fs|]; [| by split].
  destruct s as [w fr].
  unfold agree, try_pass, try_except, mbind, M_bind, makedirs, modify_world. cbn.
  match goal with |- context [copy_session_files fs ?t ?m ?s] =>
    destruct (copy_session_files_paths fs t m s) as (s1 & -> & Hs1 & Hd1) end.
  match goal with |- context [Rebound.copy_session_files fs ?t ?s] =>
    destruct (rebound_copy_session_files_paths fs t s) as (s2 & -> & Hs2 & Hd2) end.
  assert (Hs : same_but_paths s1 s2).
  { etrans; [symmetry; exact Hs1 |]. etrans; [| exact Hs2]. by split_and!. }
  clear Hs1 Hs2. destruct s1 as [w1 fr1], s2 as [w2 fr2].
  unfold isdir, get_world, mret, M_ret, mbind, M_bind. cbn in *.
  rewrite Hd1, Hd2.
  rewrite !bool_decide_eq_true_2 by set_solver.
  destruct (blind_emit_output pid datasets_notice "system" sid _ _ Hs) as [Hr Ht].
  destruct (emit_output pid datasets_notice "system" sid (State w1 fr1))
    as [q1 u1], (emit_output pid datasets_notice "system" sid (State w2 fr2))
    as [q2 u2]. cbn in *. subst q2.
  by destruct q1.
Qed.

Lemma agree_same {A} (c : M A) s : agree c c s s.
Proof. by split. Qed.

Lemma agree_bind_same {A B} (c : M A) (k1 k2 : A -> M B) s :
  (forall a t, agree (k1 a) (k2 a) t t) ->
  agree (c ≫= k1) (c ≫= k2) s s.
Proof.
  unfold agree, mbind, M_bind. intros Hk.
  destruct (c s) as [[a|e|] t]; [apply Hk | done..].
Qed.

Lemma prepare_agrees code pid sid needs docker pkgs s :
  agree (prepare env code pid sid needs docker pkgs)
        (Rebound.prepare env code pid sid needs docker pkgs) s s.
Proof.
  unfold prepare, Rebound.prepare.
  apply agree_bind_same. intros d t0. cbv beta zeta.
  apply agree_bind_same. intros _ t1.
  apply agree_bind_same. intros _ t2.
  apply agree_bind_same. intros _ t3.
  apply agree_bind; [apply copy_block_agrees |].
  intros _ u1 u2 Hu. revert u1 u2 Hu.
  change (blind
    (use_docker ←
       (if docker then
          if env_docker env then mret true
          else emit_output pid docker_notice "system" sid;; mret false
        else mret false);
     let '(cmd, stdin_pipe) :=
       build_command use_docker needs pkgs d (path_join d "program.py") in
     process ← popen_call env cmd stdin_pipe PIPE PIPE d;
     assign_process process;;
     modify_world (mutate_regs (set_running_processes (insert pid process)));;
     emit_output pid started_notice "system" sid;;
     mret process)).
  apply blind_bind; [blind_go |]. intros use_docker.
  destruct (build_command use_docker needs pkgs d (path_join d "program.py"))
    as [cmd stdin_pipe].
  blind_go.
Qed.

Lemma supervise_agrees fuel code pid sid needs T docker pkgs s :
  agree (supervise env fuel code pid sid needs T docker pkgs)
        (Rebound.supervise env fuel code pid sid needs T docker pkgs) s s.
Proof.
  unfold supervise, Rebound.supervise.
  apply agree_bind; [apply prepare_agrees |].
  intros h u1 u2 Hu. revert u1 u2 Hu.
  change (blind (start_time ← time_time;
                 monitor env fuel 0 h pid sid T start_time;;
                 finish env h pid sid)).
  apply blind_bind; [apply blind_time_time |]. intros start.
  apply blind_bind; [apply blind_monitor |]. intros _. apply blind_finish.
Qed.

End Blind.

(** X20: [app.py] defines [_copy_session_datasets_to_temp] twice, and the
  supervisor runs with the second definition.  With either definition the
  supervisor ends the same way and leaves the same registries, the same
  published events, the same [Popen] objects, the same clock and the same
  local variables: the two runs can differ only in the files and
  directories of the workspace. *)
Theorem rebound_run_agrees (env : environment) (fuel : nat)
    (code process_id session_id : string) (code_needs_input : bool)
    (timeout_seconds : Z) (use_docker : bool) (docker_packages : list string)
    (s : state) :
  let r1 := run_code_with_input env fuel code process_id session_id
              code_needs_input timeout_seconds use_docker docker_packages s in
  let r2 := Rebound.run_code_with_input env fuel code process_id session_id
              code_needs_input timeout_seconds use_docker docker_packages s in
  fst r1 = fst r2
  /\ regs (world_of (snd r1)) = regs (world_of (snd r2))
  /\ observed (world_of (snd r1)) = observed (world_of (snd r2))
  /\ emitted (world_of (snd r1)) = emitted (world_of (snd r2))
  /\ procs (world_of (snd r1)) = procs (world_of (snd r2))
  /\ clock (world_of (snd r1)) = clock (world_of (snd r2))
  /\ frame_of (snd r1) = frame_of (snd r2).
Proof.
  intros r1 r2.
  assert (H : agree
    (run_code_with_input env fuel code process_id session_id
       code_needs_input timeout_seconds use_docker docker_packages)
    (Rebound.run_code_with_input env fuel code process_id session_id
       code_needs_input timeout_seconds use_docker docker_packages) s s).
  { unfold run_code_with_input, Rebound.run_code_with_input.
    apply agree_try_finally; [| apply blind_cleanup].
    apply agree_try_except; [apply supervise_agrees |].
    intros e. apply blind_on_error. }
  destruct H as (Hr & ? & ? & ? & ? & ? & ? & ? & ?). by split_and!.
Qed.

(** *** The mirror the notice announces *)

Lemma prefix_trans (a b c : string) :
  Str.prefix a b = true -> Str.prefix b c = true -> Str.prefix a c = true.
Proof.
  revert b c. induction a as [|x a IH]; intros [|y b] [|z c]; simpl; try done.
  destruct (Ascii.eqb_spec x y) as [->|]; [| done].
  destruct (Ascii.eqb_spec y z) as [->|]; [| done]. apply IH.
Qed.

Lemma prefix_append_both (a b c : string) :
  Str.prefix (a +:+ b) (a +:+ c) = Str.prefix b c.
Proof. induction a as [|x a IH]; simpl; [done | by rewrite Ascii.eqb_refl]. Qed.

(** the paths [d/datasets...] and the paths the second definition makes *)
Lemma datasets_not_workspace (d : string) :
  Str.prefix (path_join d "datasets") d = false.
Proof.
  destruct (Str.prefix (path_join d "datasets") d) eqn:H; [| done].
  apply prefix_length in H. unfold path_join in H.
  rewrite !length_append in H. simpl in H. lia.
Qed.

Lemma datasets_not_program (d : string) :
  Str.prefix (path_join d "datasets") (path_join d "program.py") = false.
Proof. unfold path_join. by rewrite prefix_append_both. Qed.

Lemma datasets_not_data (d : string) :
  Str.prefix (path_join d "datasets") (path_join d "data") = false.
Proof. unfold path_join. by rewrite prefix_append_both. Qed.

Lemma datasets_not_below_data (d f : string) :
  Str.prefix (path_join d "datasets") (path_join (path_join d "data") f) = false.
Proof.
  unfold path_join. rewrite append_assoc, prefix_append_both. reflexivity.
Qed.

Lemma datasets_below_workspace (d q : string) :
  Str.prefix (path_join d "datasets") q = true ->
  Str.prefix (d +:+ "/") q = true.
Proof.
  apply prefix_trans. unfold path_join.
  change "/" with ("/" +:+ "") at 1. by rewrite prefix_append_both.
Qed.

(** no path is at or below [d/datasets] *)
Definition no_mirror (d : string) (w : world) : Prop :=
  set_Forall (fun q => Str.prefix (path_join d "datasets") q = false)
             (files w ∪ dirs w).

Lemma rebound_copy_no_mirror d fs : forall s,
  no_mirror d (world_of s) ->
  no_mirror d (world_of (snd (Rebound.copy_session_files fs (path_join d "data") s))).
Proof.
  induction fs as [|[[f ok1] ok2] fs IH]; intros [w fr] Hw; simpl; [done |].
  unfold copy2_or_pass, mbind, M_bind, modify_world, mret, M_ret.
  destruct ok1; cbn; apply IH; [| done].
  intros q Hq. cbn in Hq.
  apply elem_of_union in Hq as [[->%elem_of_singleton | Hq]%elem_of_union | Hq].
  - apply datasets_not_below_data.
  - apply Hw. set_solver.
  - apply Hw. set_solver.
Qed.

Lemma rebound_prepare_spec env code pid sid needs docker pkgs s d fs :
  env_mkdtemp env = inl d -> env_open env = None -> env_write env = None ->
  env_session_files env = Some fs ->
  let s' := snd (Rebound.prepare env code pid sid needs docker pkgs s) in
  temp_dir (frame_of s') = Some d
  /\ temp_filename (frame_of s') = Some (path_join d "program.py")
  /\ dirs (world_of s') = {[path_join d "data"]} ∪ ({[d]} ∪ dirs (world_of s))
  /\ (no_mirror d (world_of s) -> no_mirror d (world_of s'))
  /\ Emit (code_output pid datasets_notice "system") sid ∈ emitted (world_of s').
Proof.
  destruct s as [w fr]. intros Hd Ho Hw Hfs.
  unfold Rebound.prepare, Rebound._copy_session_datasets_to_temp. rewrite Hfs.
  unfold mkdtemp, write_program. rewrite Hd, Ho, Hw.
  sup_unfold. cbn.
  match goal with |- context [Rebound.copy_session_files fs ?t ?s0] =>
    pose proof (rebound_copy_no_mirror d fs s0) as Hnm;
    destruct (rebound_copy_session_files_paths fs t s0) as (s1 & Heq & Hs & Hdirs)
  end.
  rewrite Heq in *. destruct s1 as [w1 fr1]. cbn in *.
  destruct Hs as (? & ? & Hem & ? & ? & ? & ? & Hfr). cbn in *. subst fr1.
  rewrite Hdirs. rewrite bool_decide_eq_true_2 by set_solver. cbn.
  assert (Hkeep : no_mirror d w -> no_mirror d w1).
  { intros Hn. apply Hnm. intros q Hq. cbn in Hq.
    apply elem_of_union in Hq as [[->%elem_of_singleton | Hq]%elem_of_union | Hq].
    - apply datasets_not_program.
    - apply Hn. set_solver.
    - apply elem_of_union in Hq as [->%elem_of_singleton | Hq];
        [apply datasets_not_data |].
      apply elem_of_union in Hq as [->%elem_of_singleton | Hq];
        [apply datasets_not_workspace |].
      apply Hn. set_solver. }
  clear Hnm Heq.
  repeat (case_match; cbn); simplify_eq; cbn;
    (split_and!; [done | done | done | exact Hkeep |]);
    rewrite ?elem_of_app, ?list_elem_of_singleton; auto 10.
Qed.

Lemma prepare_makes_mirror env code pid sid needs docker pkgs s d fs :
  env_mkdtemp env = inl d -> env_open env = None -> env_write env = None ->
  env_session_files env = Some fs ->
  path_join (path_join d "datasets") sid
  ∈ dirs (world_of (snd (prepare env code pid sid needs docker pkgs s))).
Proof.
  destruct s as [w fr]. intros Hd Ho Hw Hfs.
  unfold prepare, _copy_session_datasets_to_temp. rewrite Hfs.
  unfold mkdtemp, write_program. rewrite Hd, Ho, Hw.
  sup_unfold. cbn.
  match goal with |- context [copy_session_files fs ?t ?m ?s0] =>
    destruct (copy_session_files_paths fs t m s0) as (s1 & Heq & Hs & Hdirs)
  end.
  rewrite Heq in *. destruct s1 as [w1 fr1]. cbn in *. clear Heq Hs.
  rewrite Hdirs. rewrite bool_decide_eq_true_2 by set_solver. cbn.
  repeat (case_match; cbn); simplify_eq; cbn; rewrite Hdirs; set_solver.
Qed.

(** X21: when the session has an upload directory, the supervisor
  publishes the notice that the datasets were copied to [./data/] and
  [./datasets/<session_id>/], but with the definition of
  [_copy_session_datasets_to_temp] that is bound at run time nothing is
  created at or below [<temp_dir>/datasets]; only the first, shadowed
  definition makes that directory. *)
Theorem notice_without_mirror (env : environment)
    (code process_id session_id : string) (code_needs_input use_docker : bool)
    (docker_packages : list string) (s : state) (d : string)
    (fs : list (string * bool * bool)) :
  env_mkdtemp env = inl d -> env_open env = None -> env_write env = None ->
  env_session_files env = Some fs ->
  no_mirror d (world_of s) ->
  let s2 := snd (Rebound.prepare env code process_id session_id
                   code_needs_input use_docker docker_packages s) in
  let s1 := snd (prepare env code process_id session_id
                   code_needs_input use_docker docker_packages s) in
  Emit (code_output process_id datasets_notice "system") session_id
    ∈ emitted (world_of s2)
  /\ no_mirror d (world_of s2)
  /\ path_join d "data" ∈ dirs (world_of s2)
  /\ path_join (path_join d "datasets") session_id ∈ dirs (world_of s1).
Proof.
  intros Hd Ho Hw Hfs Hnm s2 s1.
  destruct (rebound_prepare_spec env code process_id session_id code_needs_input
              use_docker docker_packages s d fs Hd Ho Hw Hfs)
    as (_ & _ & Hdirs & Hkeep & Hem).
  split_and!; [done | by apply Hkeep | | by eapply prepare_makes_mirror].
  subst s2. rewrite Hdirs. set_solver.
Qed.

(** an environment with one uploaded file *)
Definition env_uploads : environment :=
  Env (inl "/tmp/siren_exec_a") None None (Some [("iris.csv", true, true)]) false
      None (fun _ => Some 0) (fun _ => Tick [] None 0).

Lemma notice_without_mirror_witness :
  let s := after_start "id-1" "print(1)" None in
  let s2 := snd (Rebound.prepare env_uploads "print(1)" "id-1" "room"
                   false false [] s) in
  let s1 := snd (prepare env_uploads "print(1)" "id-1" "room" false false [] s) in
  Emit (code_output "id-1" datasets_notice "system") "room" ∈ emitted (world_of s2)
  /\ no_mirror "/tmp/siren_exec_a" (world_of s2)
  /\ path_join "/tmp/siren_exec_a" "data" ∈ dirs (world_of s2)
  /\ path_join (path_join "/tmp/siren_exec_a" "datasets") "room"
     ∈ dirs (world_of s1).
Proof.
  intros s.
  apply (notice_without_mirror env_uploads "print(1)" "id-1" "room" false false []
           s "/tmp/siren_exec_a" [("iris.csv", true, true)]); try reflexivity.
  intros q Hq. set_solver.
Defined.

(** *** The workspace of a session with uploads *)











(** ** More on the older variant *)





Section LegacyFacts.

Variable env : Legacy.environment.









End LegacyFacts.





(** ** The path normalizer *)

(** no two backslashes in a row *)
Fixpoint no_double (s : string) : bool :=
  match s with
  | EmptyString => true
  | String a t => negb (Str.prefix Norm.two_backslashes s) && no_double t
  end.

Lemma no_double_contains (s : string) :
  Str.contains Norm.two_backslashes s = false <-> no_double s = true.
Proof.
  unfold Str.contains. induction s as [|a t IH].
  - by cbn.
  - cbn [Str.find no_double].
    destruct (Str.prefix Norm.two_backslashes (String a t)) eqn:Hp; cbn [negb andb].
    + split; discriminate.
    + rewrite <- IH. by destruct (Str.find Norm.two_backslashes t).
Qed.

Lemma no_double_tail (a : ascii) (t : string) :
  no_double (String a t) = true -> no_double t = true.
Proof. cbn [no_double]. by intros [_ ?]%andb_true_iff. Qed.

Lemma prefix_two_append (a b : string) :
  Str.prefix Norm.two_backslashes a = true ->
  Str.prefix Norm.two_backslashes (a +:+ b) = true.
Proof.
  destruct a as [|x [|y a]]; unfold Norm.two_backslashes.
  - done.
  - cbn [Str.prefix]. by destruct (Ascii.eqb Norm.backslash x).
  - change (String x (String y a) +:+ b) with (String x (String y (a +:+ b))).
    cbn [Str.prefix]. done.
Qed.

Lemma no_double_app_l (a b : string) :
  no_double (a +:+ b) = true -> no_double a = true.
Proof.
  induction a as [|x a IH]; [done |].
  change (String x a +:+ b) with (String x (a +:+ b)).
  cbn [no_double]. intros [Hp Ht]%andb_true_iff.
  apply andb_true_iff. split; [| by apply IH].
  apply negb_true_iff. apply negb_true_iff in Hp.
  destruct (Str.prefix Norm.two_backslashes (String x a)) eqn:Hpa; [| done].
  apply (prefix_two_append _ b) in Hpa.
  change (String x a +:+ b) with (String x (a +:+ b)) in Hpa. congruence.
Qed.

Lemma no_double_app_r (a b : string) :
  no_double (a +:+ b) = true -> no_double b = true.
Proof.
  induction a as [|x a IH]; [done |].
  change (String x a +:+ b) with (String x (a +:+ b)).
  intros H%no_double_tail. by apply IH.
Qed.

Lemma replace_from_skip (old new : string) (a b : string) (k : nat) :
  Norm.replace_from old new (String.length a + k) (a +:+ b)
  = Norm.replace_from old new k b.
Proof. induction a as [|x a IH]; [done | exact IH]. Qed.

Lemma replace_id (s : string) :
  no_double s = true -> Norm.replace Norm.two_backslashes "/" s = s.
Proof.
  unfold Norm.replace. induction s as [|a t IH]; [done |].
  intros H. cbn [Norm.replace_from]. cbn [no_double] in H.
  apply andb_true_iff in H as [Hp%negb_true_iff Ht].
  rewrite Hp. f_equal. by apply IH.
Qed.

Lemma replace_from_length (s : string) : forall k, (k <= 1)%nat ->
  (String.length (Norm.replace_from Norm.two_backslashes "/" k s) + k
   <= String.length s + (if Str.nonempty s then 0 else k))%nat.
Proof.
  induction s as [|a t IH]; intros k Hk; [cbn; lia |].
  cbn [Norm.replace_from Str.nonempty String.length].
  destruct k as [|k].
  - destruct (Str.prefix Norm.two_backslashes (String a t)) eqn:Hp.
    + cbn [String.length Norm.two_backslashes Nat.sub].
      change ("/" +:+ ?x) with (String "/" x). cbn [String.length].
      specialize (IH 1%nat ltac:(lia)).
      destruct t as [|b t]; [cbn in Hp; by destruct (Ascii.eqb Norm.backslash a) |].
      cbn [Str.nonempty] in IH. lia.
    + cbn [String.length]. specialize (IH 0%nat ltac:(lia)).
      destruct (Str.nonempty t); lia.
  - assert (k = 0%nat) as -> by lia. specialize (IH 0%nat ltac:(lia)).
    destruct (Str.nonempty t); lia.
Qed.

Lemma replace_length (s : string) :
  (String.length (Norm.replace Norm.two_backslashes "/" s) <= String.length s)%nat.
Proof.
  unfold Norm.replace. pose proof (replace_from_length s 0 ltac:(lia)) as H.
  destruct (Str.nonempty s); lia.
Qed.

(** what [repl] makes of the text between the quotes *)
Definition rewritten (content : string) : string :=
  if Str.contains Norm.one_backslash content
     && Re.search Norm.dot_extension content
  then Norm.replace Norm.two_backslashes "/" content
  else content.

Lemma take_append (a b : string) : Str.take (String.length a) (a +:+ b) = a.
Proof.
  induction a as [|x a IH]; [by destruct b |].
  change (Str.take (S (String.length a)) (String x (a +:+ b)) = String x a).
  cbn [Str.take]. by rewrite IH.
Qed.

Lemma take_drop (k : nat) (s : string) : Str.take k s +:+ Str.drop k s = s.
Proof.
  revert s. induction k as [|k IH]; intros [|c s]; try done.
  change (String c (Str.take k s +:+ Str.drop k s) = String c s).
  by rewrite IH.
Qed.

Lemma repl_literal (q : ascii) (body : string) :
  Norm.repl (String q (body +:+ String q ""))
  = String q (rewritten body +:+ String q "").
Proof.
  unfold Norm.repl, rewritten.
  rewrite length_append. cbn [String.length].
  replace (String.length body + 1 - 1)%nat with (String.length body) by lia.
  rewrite take_append.
  by destruct (Str.contains Norm.one_backslash body
               && Re.search Norm.dot_extension body).
Qed.

Lemma find_char_inv (c : ascii) (u : string) (k : nat) :
  Str.find (String c "") u = Some k ->
  exists body rest, u = body +:+ String c rest /\ String.length body = k
                    /\ Str.mem c body = false.
Proof.
  revert k. induction u as [|x u IH]; intros k; cbn; [done |].
  destruct (Ascii.eqb c x) eqn:Hx.
  - apply Ascii.eqb_eq in Hx as <-. intros [= <-]. by exists "", u.
  - destruct (Str.find (String c "") u) as [j|] eqn:Hf; [| done].
    cbn. intros [= <-]. destruct (IH j eq_refl) as (body & rest & -> & <- & Hm).
    exists (String x body), rest. split_and!; [done | done |].
    cbn. rewrite Hm. rewrite Ascii.eqb_sym, Hx. done.
Qed.

(** a match of the pattern is a quote, a text without that quote, and the
  quote *)
Lemma quoted_inv (c : ascii) (t : string) (n : nat) :
  Re.quoted (String c t) = Some n ->
  exists body rest,
    t = body +:+ String c rest /\ n = S (String.length body + 1)
    /\ Str.mem c body = false
    /\ (c = Chars.dquote \/ c = Chars.squote).
Proof.
  unfold Re.quoted, Re.alt, Re.delimited, Re.q1. cbn [Str.prefix String.length Str.drop].
  destruct (Ascii.eqb Chars.dquote c) eqn:Hd.
  - apply Ascii.eqb_eq in Hd as <-.
    destruct (Str.find (String Chars.dquote "") t) as [k|] eqn:Hf.
    + intros [= <-]. destruct (find_char_inv _ _ _ Hf) as (body & rest & -> & <- & Hm).
      exists body, rest. split_and!; [done | lia | done | by left].
    + cbn. done.
  - destruct (Ascii.eqb Chars.squote c) eqn:Hs; [| done].
    apply Ascii.eqb_eq in Hs as <-.
    destruct (Str.find (String Chars.squote "") t) as [k|] eqn:Hf; [| done].
    intros [= <-]. destruct (find_char_inv _ _ _ Hf) as (body & rest & -> & <- & Hm).
    exists body, rest. split_and!; [done | lia | done | by right].
Qed.

Lemma sub_with_skip (m : Re.matcher) (f : string -> string) (a b : string) (k : nat) :
  Norm.sub_with m f (String.length a + k) (a +:+ b) = Norm.sub_with m f k b.
Proof. induction a as [|x a IH]; [done | exact IH]. Qed.

(** the rewriting step by step: a character that starts no match is
  kept; a match is rewritten and the rewriting goes on behind it *)
Lemma normalize_step (c : ascii) (t : string) :
  Norm._normalize_windows_paths_in_string_literals (String c t)
  = match Re.quoted (String c t) with
    | Some _ =>
        match Str.find (String c "") t with
        | Some k =>
            String c (rewritten (Str.take k t) +:+ String c "")
            +:+ Norm._normalize_windows_paths_in_string_literals (Str.drop (S k) t)
        | None => String c (Norm._normalize_windows_paths_in_string_literals t)
        end
    | None => String c (Norm._normalize_windows_paths_in_string_literals t)
    end.
Proof.
  unfold Norm._normalize_windows_paths_in_string_literals.
  cbn [Norm.sub_with].
  destruct (Re.quoted (String c t)) as [n|] eqn:Hq; [| done].
  destruct (quoted_inv _ _ _ Hq) as (body & rest & -> & -> & Hm & _).
  rewrite (find_char c body rest Hm).
  assert (Hsplit : body +:+ String c rest = (body +:+ String c "") +:+ rest)
    by (by rewrite append_assoc).
  assert (Hlen : (String.length body + 1)%nat = String.length (body +:+ String c ""))
    by (rewrite length_append; reflexivity).
  assert (Htake : Str.take (String.length body + 1) (body +:+ String c rest)
                  = body +:+ String c "")
    by (rewrite Hsplit, Hlen; apply take_append).
  assert (Hsub : forall f,
             Norm.sub_with Re.quoted f (String.length body + 1)
                           (body +:+ String c rest)
             = Norm.sub_with Re.quoted f 0 rest).
  { intros f. rewrite Hsplit, Hlen.
    rewrite <- (Nat.add_0_r (String.length (body +:+ String c ""))).
    apply sub_with_skip. }
  assert (Hdrop : Str.drop (S (String.length body)) (body +:+ String c rest) = rest).
  { clear. induction body as [|x b IH]; [done | exact IH]. }
  cbn [Str.take]. rewrite Htake, Hsub, Hdrop, take_append, repl_literal.
  reflexivity.
Qed.

Lemma normalize_keep (c : ascii) (t : string) :
  Re.quoted (String c t) = None ->
  Norm._normalize_windows_paths_in_string_literals (String c t)
  = String c (Norm._normalize_windows_paths_in_string_literals t).
Proof. intros H. by rewrite normalize_step, H. Qed.

Lemma normalize_match (c : ascii) (t : string) (n : nat) :
  Re.quoted (String c t) = Some n ->
  exists body rest,
    t = body +:+ String c rest /\ Str.mem c body = false
    /\ (c = Chars.dquote \/ c = Chars.squote)
    /\ Norm._normalize_windows_paths_in_string_literals (String c t)
       = String c (rewritten body
                   +:+ String c (Norm._normalize_windows_paths_in_string_literals rest)).
Proof.
  intros Hq. rewrite normalize_step, Hq.
  destruct (quoted_inv _ _ _ Hq) as (body & rest & -> & -> & Hm & Hc).
  exists body, rest. split_and!; try done.
  rewrite (find_char c body rest Hm), take_append.
  replace (Str.drop (S (String.length body)) (body +:+ String c rest)) with rest
    by (clear; induction body as [|x b IH]; [done | exact IH]).
  apply quote_append.
Qed.

Lemma rewritten_length (body : string) :
  (String.length (rewritten body) <= String.length body)%nat.
Proof.
  unfold rewritten. destruct (_ && _); [apply replace_length | done].
Qed.

Lemma rewritten_id (body : string) :
  no_double body = true -> rewritten body = body.
Proof.
  intros H. unfold rewritten. destruct (_ && _); [by apply replace_id | done].
Qed.

Lemma normalize_bounded (n : nat) : forall s,
  (String.length s <= n)%nat ->
  (String.length (Norm._normalize_windows_paths_in_string_literals s)
   <= String.length s)%nat
  /\ (no_double s = true ->
      Norm._normalize_windows_paths_in_string_literals s = s).
Proof.
  induction n as [|n IH]; intros [|c t] Hlen; try done; cbn in Hlen; [lia |].
  destruct (Re.quoted (String c t)) as [k|] eqn:Hq.
  - destruct (normalize_match _ _ _ Hq) as (body & rest & -> & Hm & _ & ->).
    destruct (IH rest) as [IHlen IHid].
    { rewrite length_append in Hlen. cbn in Hlen. lia. }
    split.
    + pose proof (rewritten_length body).
      cbn [String.length]. rewrite !length_append. cbn [String.length]. lia.
    + intros Hnd. apply no_double_tail in Hnd.
      rewrite rewritten_id by (by eapply no_double_app_l).
      rewrite IHid; [done |].
      apply no_double_app_r in Hnd. by apply no_double_tail in Hnd.
  - rewrite (normalize_keep _ _ Hq).
    destruct (IH t ltac:(lia)) as [IHlen IHid]. split.
    + cbn [String.length]. lia.
    + intros Hnd%no_double_tail. by rewrite IHid.
Qed.

(** X16: the rewriting never makes the code longer, and it returns
  unchanged every code that has no two backslashes in a row; a path
  written with single backslashes in a quoted literal stays as it
  is. *)
Theorem normalize_keeps_single_backslashes (src : string) :
  (String.length (Norm._normalize_windows_paths_in_string_literals src)
   <= String.length src)%nat
  /\ (Str.contains Norm.two_backslashes src = false ->
      Norm._normalize_windows_paths_in_string_literals src = src).
Proof.
  destruct (normalize_bounded (String.length src) src (le_n _)) as [Hlen Hid].
  split; [exact Hlen |]. intros H. by apply Hid, no_double_contains.
Qed.

(** a Windows path written with single backslashes, and the same with
  doubled ones *)
Definition single_path : string :=
  "f = open(" +:+ dq ("C:" +:+ Norm.one_backslash +:+ "data"
                      +:+ Norm.one_backslash +:+ "file.csv") +:+ ")".
Definition doubled_path : string :=
  "f = open(" +:+ dq ("C:" +:+ Norm.two_backslashes +:+ "data"
                      +:+ Norm.two_backslashes +:+ "file.csv") +:+ ")".

Lemma normalize_keeps_single_backslashes_witness :
  Norm._normalize_windows_paths_in_string_literals single_path = single_path
  /\ Norm._normalize_windows_paths_in_string_literals doubled_path
     = "f = open(" +:+ dq "C:/data/file.csv" +:+ ")".
Proof.
  split.
  - apply (normalize_keeps_single_backslashes single_path). reflexivity.
  - vm_compute. reflexivity.
Defined.

(** *** Literal by literal *)

(** a code fragment without quotes, or a literal whose body does not
  contain its own quote *)
Definition piece_ok (t : token) : bool :=
  match t with
  | Code s => negb (Str.mem Chars.dquote s) && negb (Str.mem Chars.squote s)
  | DQ b => negb (Str.mem Chars.dquote b)
  | SQ b => negb (Str.mem Chars.squote b)
  | _ => false
  end.

Definition normalize_token (t : token) : token :=
  match t with
  | DQ b => DQ (rewritten b)
  | SQ b => SQ (rewritten b)
  | _ => t
  end.

Lemma normalize_plain (a b : string) :
  Str.mem Chars.dquote a = false -> Str.mem Chars.squote a = false ->
  Norm._normalize_windows_paths_in_string_literals (a +:+ b)
  = a +:+ Norm._normalize_windows_paths_in_string_literals b.
Proof.
  induction a as [|x a IH]; intros Hd Hs; [done |].
  apply mem_cons_false in Hd as [Hxd Hd]. apply mem_cons_false in Hs as [Hxs Hs].
  change (String x a +:+ b) with (String x (a +:+ b)).
  rewrite normalize_keep.
  - rewrite IH by done. done.
  - apply quoted_none. unfold not_quote.
    apply andb_true_iff; split; apply negb_true_iff, Ascii.eqb_neq; done.
Qed.

Lemma normalize_literal (q : ascii) (body rest : string) :
  q = Chars.dquote \/ q = Chars.squote ->
  Str.mem q body = false ->
  Norm._normalize_windows_paths_in_string_literals
    (String q (body +:+ String q rest))
  = String q (rewritten body
              +:+ String q (Norm._normalize_windows_paths_in_string_literals rest)).
Proof.
  intros Hq Hm.
  assert (Hmatch : Re.quoted (String q (body +:+ String q rest))
                   = Some (S (String.length body + 1))).
  { unfold Re.quoted, Re.alt. destruct Hq as [-> | ->].
    - by rewrite (delimited_char _ _ _ Hm).
    - rewrite (delimited_other Chars.dquote Chars.squote) by discriminate.
      by rewrite (delimited_char _ _ _ Hm). }
  rewrite normalize_step, Hmatch, (find_char q body rest Hm), take_append.
  replace (Str.drop (S (String.length body)) (body +:+ String q rest)) with rest
    by (clear; induction body as [|x b IH]; [done | exact IH]).
  apply quote_append.
Qed.

Lemma normalize_on_tokens (toks : list token) :
  forallb piece_ok toks = true ->
  Norm._normalize_windows_paths_in_string_literals (render toks)
  = render (normalize_token <$> toks).
Proof.
  induction toks as [|t toks IH]; [done |].
  cbn [forallb]. intros [Ht Hr]%andb_true_iff. specialize (IH Hr).
  csimpl. destruct t as [s | b | b | b | b | b]; try done; cbn in Ht |- *.
  - apply andb_true_iff in Ht as [Hd%negb_true_iff Hs%negb_true_iff].
    by rewrite normalize_plain, IH.
  - apply negb_true_iff in Ht. unfold dq. rewrite !quote_append.
    rewrite normalize_literal by auto. by rewrite IH.
  - apply negb_true_iff in Ht. unfold sq. rewrite !quote_append.
    rewrite normalize_literal by auto. by rewrite IH.
Qed.

Lemma replace_head (c : ascii) (t : string) :
  Str.prefix Norm.two_backslashes (String c t) = false ->
  Str.prefix Norm.two_backslashes
    (String c (Norm.replace_from Norm.two_backslashes "/" 0 t)) = false.
Proof.
  unfold Norm.two_backslashes. cbn [Str.prefix].
  destruct (Ascii.eqb Norm.backslash c); [| done].
  destruct t as [|d t]; [done |].
  destruct (Ascii.eqb Norm.backslash d) eqn:Hd; [done |].
  intros _. cbn [Norm.replace_from Str.prefix]. rewrite Hd. cbn [Str.prefix].
  by rewrite Hd.
Qed.

Lemma replace_from_no_double (s : string) : forall k,
  no_double (Norm.replace_from Norm.two_backslashes "/" k s) = true.
Proof.
  induction s as [|c t IH]; intros k; [done |].
  cbn [Norm.replace_from]. destruct k as [|k]; [| apply IH].
  destruct (Str.prefix Norm.two_backslashes (String c t)) eqn:Hp.
  - change ("/" +:+ ?x) with (String "/" x). cbn [no_double].
    rewrite IH. by rewrite andb_true_r.
  - cbn [no_double]. rewrite IH, andb_true_r.
    apply negb_true_iff. by apply replace_head.
Qed.

Lemma replace_from_mem (q : ascii) (s : string) : forall k,
  q <> "/"%char -> Str.mem q s = false ->
  Str.mem q (Norm.replace_from Norm.two_backslashes "/" k s) = false.
Proof.
  induction s as [|c t IH]; intros k Hq Hm; [done |].
  apply mem_cons_false in Hm as [Hc Hm].
  cbn [Norm.replace_from]. destruct k as [|k]; [| by apply IH].
  destruct (Str.prefix Norm.two_backslashes (String c t)).
  - change ("/" +:+ ?x) with (String "/" x). cbn [Str.mem].
    rewrite IH by done. rewrite orb_false_r. apply Ascii.eqb_neq. congruence.
  - cbn [Str.mem]. rewrite IH by done. rewrite orb_false_r.
    by apply Ascii.eqb_neq.
Qed.

Lemma rewritten_no_double (body : string) :
  rewritten body <> body -> no_double (rewritten body) = true.
Proof.
  unfold rewritten. destruct (_ && _); [| done].
  intros _. apply replace_from_no_double.
Qed.

Lemma rewritten_idem (body : string) : rewritten (rewritten body) = rewritten body.
Proof.
  destruct (decide (rewritten body = body)) as [Heq | Hne]; [by rewrite !Heq |].
  by apply rewritten_id, rewritten_no_double.
Qed.

Lemma rewritten_mem (q : ascii) (body : string) :
  q <> "/"%char -> Str.mem q body = false -> Str.mem q (rewritten body) = false.
Proof.
  intros Hq Hm. unfold rewritten. destruct (_ && _); [| done].
  by apply replace_from_mem.
Qed.

Lemma normalize_token_ok (t : token) :
  piece_ok t = true -> piece_ok (normalize_token t) = true.
Proof.
  destruct t as [s | b | b | b | b | b]; cbn; try done.
  - intros H%negb_true_iff. apply negb_true_iff. by apply rewritten_mem.
  - intros H%negb_true_iff. apply negb_true_iff. by apply rewritten_mem.
Qed.

(** X17: in a code made of fragments without quotes and of quoted
  literals, the rewriting leaves the fragments as they are and rewrites
  each literal by itself: the body of a literal that contains a backslash
  and a file extension (a dot, one to five word characters, then the end
  or a character that is none) gets each pair of backslashes replaced by
  one slash, from left to right, and any other body is kept.  A body left
  without two backslashes in a row is kept, so single backslashes stay;
  and rewriting the result again changes nothing. *)
Theorem normalize_literal_by_literal (toks : list token) :
  forallb piece_ok toks = true ->
  let out := Norm._normalize_windows_paths_in_string_literals (render toks) in
  out = render (normalize_token <$> toks)
  /\ code_of (normalize_token <$> toks) = code_of toks
  /\ (forall body,
        rewritten body
        = if Str.contains Norm.one_backslash body
             && Re.search Norm.dot_extension body
          then Norm.replace Norm.two_backslashes "/" body
          else body)
  /\ (forall body, no_double body = true -> rewritten body = body)
  /\ (forall body, rewritten body <> body -> no_double (rewritten body) = true)
  /\ Norm._normalize_windows_paths_in_string_literals out = out.
Proof.
  intros Hok out. subst out.
  rewrite (normalize_on_tokens toks Hok).
  split; [done |]. split.
  { clear Hok. induction toks as [|[] toks IH]; csimpl; by rewrite ?IH. }
  split; [done |]. split; [apply rewritten_id |].
  split; [apply rewritten_no_double |].
  rewrite normalize_on_tokens.
  - f_equal. rewrite <- list_fmap_compose. apply list_fmap_ext.
    intros i [] _; cbn; by rewrite ?rewritten_idem.
  - clear -Hok. induction toks as [|t toks IH]; [done |].
    cbn [forallb] in Hok. apply andb_true_iff in Hok as [Ht Hr].
    csimpl. by rewrite normalize_token_ok, IH.
Qed.

Lemma normalize_literal_by_literal_witness :
  let toks := [Code "df = read("; DQ ("C:" +:+ Norm.two_backslashes +:+ "a.csv");
               Code ", sep="; SQ Norm.one_backslash; Code ")"] in
  let out := Norm._normalize_windows_paths_in_string_literals (render toks) in
  out = "df = read(" +:+ dq "C:/a.csv" +:+ ", sep=" +:+ sq Norm.one_backslash +:+ ")"
  /\ Norm._normalize_windows_paths_in_string_literals out = out.
Proof.
  intros toks out.
  destruct (normalize_literal_by_literal toks eq_refl)
    as (Hout & _ & _ & _ & _ & Hidem).
  split; [| exact Hidem].
  subst out. rewrite Hout. vm_compute. reflexivity.
Defined.

(** ** The sessions *)

(** *** Insertion-ordered dictionaries *)

Section OdictFacts.

Context {V : Type}.
Implicit Types (d : Collab.odict V) (k : string) (v : V).

Lemma odict_mem_get k d : Collab.mem k d = true <-> is_Some (Collab.get k d).
Proof.
  unfold Collab.mem. destruct (Collab.get k d); split; try done.
Qed.

Lemma odict_mem_keys k d : Collab.mem k d = true <-> k ∈ Collab.keys d.
Proof.
  unfold Collab.mem, Collab.keys.
  induction d as [|[k' v'] d IH]; simpl.
  - split; [done | by intros ?%elem_of_nil].
  - destruct (decide (k = k')) as [->|Hne].
    + split; [intros _; apply list_elem_of_here | done].
    + rewrite IH. split; [by apply list_elem_of_further |].
      intros [?|?]%elem_of_cons; [done | done].
Qed.

Lemma odict_mem_false k d : Collab.mem k d = false <-> k ∉ Collab.keys d.
Proof.
  rewrite <- odict_mem_keys. destruct (Collab.mem k d); split; try done.
Qed.

Lemma odict_get_set_eq k v d : Collab.get k (Collab.set k v d) = Some v.
Proof.
  induction d as [|[k' v'] d IH]; simpl.
  - by rewrite decide_True.
  - destruct (decide (k = k')) as [->|Hne]; simpl.
    + by rewrite decide_True.
    + by rewrite decide_False.
Qed.

Lemma odict_get_set_ne k k' v d :
  k' <> k -> Collab.get k' (Collab.set k v d) = Collab.get k' d.
Proof.
  intros Hne. induction d as [|[k0 v0] d IH]; simpl.
  - by rewrite decide_False.
  - destruct (decide (k = k0)) as [->|Hne0]; simpl.
    + by rewrite !decide_False.
    + destruct (decide (k' = k0)); [done | apply IH].
Qed.

Lemma odict_keys_set k v d :
  Collab.keys (Collab.set k v d)
  = if Collab.mem k d then Collab.keys d else Collab.keys d ++ [k].
Proof.
  unfold Collab.mem, Collab.keys.
  induction d as [|[k' v'] d IH]; csimpl; [done |].
  destruct (decide (k = k')) as [->|Hne]; csimpl; [done |].
  rewrite IH. by destruct (Collab.get k d).
Qed.

Lemma odict_set_nodup k v d :
  NoDup (Collab.keys d) -> NoDup (Collab.keys (Collab.set k v d)).
Proof.
  intros Hd. rewrite odict_keys_set.
  destruct (Collab.mem k d) eqn:Hm; [done |].
  apply NoDup_app. split; [done |]. split; [| apply NoDup_singleton].
  intros x Hx ->%list_elem_of_singleton.
  apply odict_mem_false in Hm. done.
Qed.

Lemma odict_mem_set k k' v d :
  Collab.mem k' (Collab.set k v d) = bool_decide (k' = k) || Collab.mem k' d.
Proof.
  unfold Collab.mem. destruct (decide (k' = k)) as [->|Hne].
  - by rewrite odict_get_set_eq, bool_decide_eq_true_2.
  - by rewrite odict_get_set_ne, bool_decide_eq_false_2.
Qed.

Lemma odict_keys_del k d :
  Collab.keys (Collab.del k d) ⊆ Collab.keys d.
Proof.
  unfold Collab.keys. induction d as [|[k' v'] d IH]; csimpl; [done |].
  destruct (decide (k = k')); csimpl.
  - intros x Hx. by apply list_elem_of_further.
  - intros x [->|Hx]%elem_of_cons; [apply list_elem_of_here |].
    apply list_elem_of_further. by apply IH.
Qed.

Lemma odict_del_nodup k d :
  NoDup (Collab.keys d) -> NoDup (Collab.keys (Collab.del k d)).
Proof.
  unfold Collab.keys. induction d as [|[k' v'] d IH]; csimpl; [done |].
  intros [Hk Hd]%NoDup_cons. destruct (decide (k = k')); csimpl; [done |].
  apply NoDup_cons. split; [| by apply IH].
  intros Hin. apply Hk. by apply (odict_keys_del k d).
Qed.

Lemma odict_get_del_ne k k' d :
  k' <> k -> Collab.get k' (Collab.del k d) = Collab.get k' d.
Proof.
  intros Hne. induction d as [|[k0 v0] d IH]; simpl; [done |].
  destruct (decide (k = k0)) as [->|Hne0]; simpl.
  - by rewrite decide_False.
  - destruct (decide (k' = k0)); [done | apply IH].
Qed.

Lemma odict_get_del_eq k d :
  NoDup (Collab.keys d) -> Collab.get k (Collab.del k d) = None.
Proof.
  unfold Collab.keys. induction d as [|[k0 v0] d IH]; csimpl; [done |].
  intros [Hk Hd]%NoDup_cons. destruct (decide (k = k0)) as [->|Hne0]; csimpl.
  - destruct (Collab.get k0 d) eqn:Hg; [| done].
    exfalso. apply Hk. apply odict_mem_keys, odict_mem_get. by rewrite Hg.
  - rewrite decide_False by done. by apply IH.
Qed.

Lemma odict_mem_del k k' d :
  NoDup (Collab.keys d) ->
  Collab.mem k' (Collab.del k d) = negb (bool_decide (k' = k)) && Collab.mem k' d.
Proof.
  intros Hd. unfold Collab.mem. destruct (decide (k' = k)) as [->|Hne].
  - by rewrite odict_get_del_eq, bool_decide_eq_true_2.
  - by rewrite odict_get_del_ne, bool_decide_eq_false_2.
Qed.

Lemma odict_set_id k v d :
  Collab.get k d = Some v -> Collab.set k v d = d.
Proof.
  induction d as [|[k0 v0] d IH]; simpl; [done |].
  destruct (decide (k = k0)) as [->|Hne].
  - by intros [= ->].
  - intros H. by rewrite IH.
Qed.

Lemma odict_set_set k v v' d :
  Collab.set k v' (Collab.set k v d) = Collab.set k v' d.
Proof.
  induction d as [|[k0 v0] d IH]; simpl.
  - by rewrite decide_True.
  - destruct (decide (k = k0)) as [->|Hne]; simpl.
    + by rewrite decide_True.
    + by rewrite decide_False, IH.
Qed.

End OdictFacts.

(** *** What a request does to the dictionary [sessions] *)

Lemma sessions_emit p c t sv :
  Collab.sessions (Collab.emit p c t sv) = Collab.sessions sv.
Proof. reflexivity. Qed.

Lemma sessions_emit_participants_update k c sv :
  Collab.sessions (Collab.emit_participants_update k c sv) = Collab.sessions sv.
Proof.
  unfold Collab.emit_participants_update.
  by destruct (Collab.get k (Collab.sessions sv)).
Qed.

Lemma lookup_Some o sv k s :
  Collab.lookup o sv = Some (k, s)
  <-> o = Some k /\ Collab.get k (Collab.sessions sv) = Some s.
Proof.
  unfold Collab.lookup. destruct o as [k'|]; [| by split; [| intros []]].
  destruct (Collab.get k' (Collab.sessions sv)) eqn:Hg.
  - split; [by intros [= <- <-] | intros [[= <-] Hs]; congruence].
  - split; [done | intros [[= <-] Hs]; congruence].
Qed.

Lemma lookup_None o sv :
  Collab.lookup o sv = None
  <-> forall k, o = Some k -> Collab.get k (Collab.sessions sv) = None.
Proof.
  unfold Collab.lookup. destruct o as [k'|]; [| done].
  destruct (Collab.get k' (Collab.sessions sv)) eqn:Hg.
  - split; [done |]. intros H. specialize (H k' eq_refl). congruence.
  - split; [| done]. by intros _ k [= <-].
Qed.

Lemma session_of_Some sid ss k s :
  NoDup (Collab.keys ss) ->
  Collab.session_of sid ss = Some (k, s) ->
  Collab.get k ss = Some s /\ Collab.mem sid (Collab.participants s) = true.
Proof.
  unfold Collab.keys. induction ss as [|[k0 s0] ss IH]; csimpl; [done |].
  intros [Hk Hd]%NoDup_cons.
  destruct (Collab.mem sid (Collab.participants s0)) eqn:Hm.
  - intros [= -> ->]. by rewrite decide_True.
  - intros H. destruct (IH Hd H) as [Hg Hs]. split; [| done].
    destruct (decide (k = k0)) as [->|Hne]; [| done].
    exfalso. apply Hk. apply odict_mem_keys, odict_mem_get. by rewrite Hg.
Qed.

Lemma session_of_None sid ss :
  Collab.session_of sid ss = None
  <-> forall k s, (k, s) ∈ ss -> Collab.mem sid (Collab.participants s) = false.
Proof.
  induction ss as [|[k0 s0] ss IH]; simpl.
  - split; [by intros _ k s ?%elem_of_nil | done].
  - destruct (Collab.mem sid (Collab.participants s0)) eqn:Hm.
    + split; [done |]. intros H.
      specialize (H k0 s0 (list_elem_of_here _ _)). congruence.
    + rewrite IH. split.
      * intros H k s [[= -> ->]|Hin]%elem_of_cons; [done | by eapply H].
      * intros H k s Hin. eapply H. by apply list_elem_of_further.
Qed.

(** the session [handle_join] stores for a caller [sid] named [name] *)
Definition joined (name sid : string) (s : Collab.session) : Collab.session :=
  let s1 := match Collab.participants s with
            | [] => Collab.with_writer_id (Some sid)
                      (Collab.with_host_id (Some sid) s)
            | _ => s
            end in
  Collab.with_participants
    (Collab.set sid (Collab.Participant name sid) (Collab.participants s1)) s1.

(** the session [handle_user_leave] stores when [sid] leaves *)
Definition departed (sid : string) (s : Collab.session) : Collab.session :=
  let s1 := Collab.with_participants (Collab.del sid (Collab.participants s)) s in
  if decide (Collab.host_id s1 = Some sid) then
    match Collab.participants s1 with
    | (new_host_sid, _) :: _ =>
        Collab.with_writer_id (Some new_host_sid)
          (Collab.with_host_id (Some new_host_sid) s1)
    | [] => Collab.with_writer_id None (Collab.with_host_id None s1)
    end
  else s1.

(** the message [handle_chat_message] builds *)
Definition chat_of (stamp : Collab.chat_stamp) (text sid : string)
    (s : Collab.session) : Collab.chat_message :=
  Collab.ChatMessage (Str.take 8 (Collab.cs_uuid4 stamp)) sid
    (default "" (Collab.name <$> Collab.get sid (Collab.participants s)))
    (Collab.strip text) (Collab.cs_now stamp) (Collab.cs_hhmm stamp).

Definition posted (m : Collab.chat_message) (s : Collab.session) : Collab.session :=
  Collab.with_chat_messages
    (Collab.last_n 100 (Collab.chat_messages s ++ [m])) s.

Definition fresh_session : Collab.session :=
  Collab.Session Collab.welcome [] None None [].

(** what a request does to the session it changes *)
Inductive session_step
  : Collab.request -> string -> option Collab.session -> Collab.session -> Prop :=
  | step_create uuid4 o :
      session_step (Collab.CreateSession uuid4) (Str.take 8 uuid4) o fresh_session
  | step_join data sid k s :
      Collab.jd_session_id data = Some k ->
      session_step (Collab.JoinSession data sid) k (Some s)
        (joined (default "Anonymous" (Collab.jd_name data)) sid s)
  | step_leave sid k s :
      Collab.mem sid (Collab.participants s) = true ->
      session_step (Collab.Disconnect sid) k (Some s) (departed sid s)
  | step_code data sid k s :
      Collab.cc_session_id data = Some k ->
      Collab.writer_id s = Some sid ->
      session_step (Collab.CodeChange data sid) k (Some s)
        (Collab.with_content (Collab.cc_content data) s)
  | step_grant data sid k s target_sid :
      Collab.gd_session_id data = Some k ->
      Collab.gd_target_sid data = Some target_sid ->
      Collab.host_id s = Some sid ->
      Collab.mem target_sid (Collab.participants s) = true ->
      session_step (Collab.GrantWrite data sid) k (Some s)
        (Collab.with_writer_id (Some target_sid) s)
  | step_revoke sid k s :
      Collab.host_id s = Some sid ->
      session_step (Collab.RevokeWrite (Some k) sid) k (Some s)
        (Collab.with_writer_id (Some sid) s)
  | step_chat stamp data sid k s :
      Collab.cd_session_id data = Some k ->
      Collab.mem sid (Collab.participants s) = true ->
      Collab.strip (Collab.cd_message data) <> "" ->
      session_step (Collab.SendChatMessage stamp data sid) k (Some s)
        (posted (chat_of stamp (Collab.cd_message data) sid s) s).

Lemma last_n_all {A} (n : nat) (l : list A) :
  (length l <= n)%nat -> Collab.last_n n l = l.
Proof.
  intros H. unfold Collab.last_n.
  by replace (length l - n)%nat with 0%nat by lia.
Qed.

Lemma last_n_length {A} (n : nat) (l : list A) :
  length (Collab.last_n n l) = (length l `min` n)%nat.
Proof. unfold Collab.last_n. rewrite length_drop. lia. Qed.

Lemma last_n_last_n {A} (n m : nat) (l : list A) :
  (n <= m)%nat -> Collab.last_n n (Collab.last_n m l) = Collab.last_n n l.
Proof.
  intros H. unfold Collab.last_n. rewrite length_drop, drop_drop. f_equal. lia.
Qed.

Lemma last_n_snoc {A} (m : nat) (l : list A) (x : A) :
  (0 < m)%nat ->
  Collab.last_n m (Collab.last_n m l ++ [x]) = Collab.last_n m (l ++ [x]).
Proof.
  intros H. unfold Collab.last_n.
  rewrite !length_app, length_drop. simpl.
  destruct (decide (length l <= m)%nat) as [Hle|Hgt].
  - replace (length l - m)%nat with 0%nat by lia. simpl.
    f_equal. lia.
  - rewrite <- (drop_app_le l [x] (length l - m)) by lia.
    rewrite drop_drop. f_equal. lia.
Qed.

Lemma serve_step (rq : Collab.request) (sv : Collab.server) :
  NoDup (Collab.keys (Collab.sessions sv)) ->
  Collab.sessions (snd (Collab.serve rq sv)) = Collab.sessions sv
  \/ exists k s',
       session_step rq k (Collab.get k (Collab.sessions sv)) s'
       /\ Collab.sessions (snd (Collab.serve rq sv))
          = Collab.set k s' (Collab.sessions sv).
Proof.
  intros Hnd. destruct rq as [uuid4 | data sid | sid | o sid | data sid
    | data sid | o sid | data sid | data sid | data sid | stamp data sid | o sid];
    simpl.
  - right. eexists _, _. split; [constructor | reflexivity].
  - unfold Collab.handle_join.
    destruct (Collab.lookup _ sv) as [[k s]|] eqn:Hl; [| by left].
    apply lookup_Some in Hl as [Hk Hg]. right. exists k, (joined (default "Anonymous" (Collab.jd_name data)) sid s).
    rewrite Hg. split; [by constructor |].
    rewrite sessions_emit_participants_update.
    by destruct (Collab.chat_messages _).
  - unfold Collab.handle_disconnect, Collab.handle_user_leave.
    destruct (Collab.session_of sid _) as [[k s]|] eqn:Hs; [| by left].
    apply session_of_Some in Hs as [Hg Hm]; [| done].
    right. exists k, (departed sid s). rewrite Hg. split; [by constructor |].
    by rewrite sessions_emit_participants_update.
  - left. unfold Collab.handle_get_participants.
    by destruct (Collab.lookup o sv) as [[k s]|].
  - unfold Collab.handle_code_change.
    destruct (Collab.lookup _ sv) as [[k s]|] eqn:Hl; [| by left].
    apply lookup_Some in Hl as [Hk Hg].
    destruct (decide (Collab.writer_id s = Some sid)) as [Hw|]; [| by left].
    right. eexists k, _. rewrite Hg. split; [by constructor | reflexivity].
  - unfold Collab.handle_grant_write.
    destruct (Collab.lookup _ sv) as [[k s]|] eqn:Hl; [| by left].
    apply lookup_Some in Hl as [Hk Hg].
    destruct (Collab.gd_target_sid data) as [t|] eqn:Ht; [| by left].
    destruct (bool_decide _ && _) eqn:Hc; [| by left].
    apply andb_true_iff in Hc as [Hh%bool_decide_eq_true Hm].
    right. eexists k, _. rewrite Hg. split; [by econstructor |].
    simpl. by rewrite sessions_emit_participants_update.
  - unfold Collab.handle_revoke_write.
    destruct (Collab.lookup _ sv) as [[k s]|] eqn:Hl; [| by left].
    apply lookup_Some in Hl as [-> Hg].
    destruct (decide (Collab.host_id s = Some sid)) as [Hh|]; [| by left].
    right. eexists k, _. rewrite Hg. split; [by constructor |].
    simpl. by rewrite sessions_emit_participants_update.
  - left. unfold Collab.handle_webrtc_offer.
    destruct (Collab.rd_target data) as [t|]; [| done]. by destruct (Str.nonempty t).
  - left. unfold Collab.handle_webrtc_answer.
    destruct (Collab.rd_target data) as [t|]; [| done]. by destruct (Str.nonempty t).
  - left. unfold Collab.handle_webrtc_ice_candidate.
    destruct (Collab.rd_target data) as [t|]; [| done]. by destruct (Str.nonempty t).
  - unfold Collab.handle_chat_message.
    destruct (truthy_opt _); simpl; [| by left].
    destruct (Collab.lookup _ sv) as [[k s]|] eqn:Hl; [| by left].
    apply lookup_Some in Hl as [Hk Hg].
    destruct (Str.nonempty _) eqn:Hne; simpl; [| by left].
    destruct (Collab.get sid _) as [p|] eqn:Hp; [| by left].
    right. exists k, (posted (chat_of stamp (Collab.cd_message data) sid s) s).
    rewrite Hg. split.
    + constructor; [done | by (unfold Collab.mem; rewrite Hp) | by apply nonempty_true].
    + unfold posted, chat_of. rewrite Hp. simpl.
      destruct (100 <? _)%nat eqn:Hlen; [done |].
      apply Nat.ltb_ge in Hlen. by rewrite last_n_all.
  - left. unfold Collab.handle_get_chat_history.
    destruct (Collab.lookup o sv) as [[k s]|]; [| done].
    by destruct (Collab.chat_messages s).
Qed.

(** *** Host, writer and participants *)

(** a session as the handlers keep it: no participant is listed twice and
  each is stored under its own sid; an empty session has neither host nor
  writer, any other has a host among its participants and a writer; at
  most 100 chat messages are kept, none of them blank *)
Definition session_ok (s : Collab.session) : Prop :=
  NoDup (Collab.keys (Collab.participants s))
  /\ (forall k p, Collab.get k (Collab.participants s) = Some p -> Collab.sid p = k)
  /\ match Collab.participants s with
     | [] => Collab.host_id s = None /\ Collab.writer_id s = None
     | _ :: _ =>
         (exists h, Collab.host_id s = Some h
                    /\ Collab.mem h (Collab.participants s) = true)
         /\ is_Some (Collab.writer_id s)
     end
  /\ (length (Collab.chat_messages s) <= 100)%nat
  /\ Forall (fun m => Collab.message m <> "") (Collab.chat_messages s).

Definition server_ok (sv : Collab.server) : Prop :=
  NoDup (Collab.keys (Collab.sessions sv))
  /\ forall k s, Collab.get k (Collab.sessions sv) = Some s -> session_ok s.

Ltac session_ok_split :=
  unfold session_ok; split; [| split; [| split; [| split]]].

Lemma fresh_session_ok : session_ok fresh_session.
Proof.
  unfold session_ok. simpl. split_and!; try done.
  - apply NoDup_nil_2.
  - lia.
Qed.

Lemma nonempty_mem {V} (d : Collab.odict V) :
  d <> [] <-> exists k, Collab.mem k d = true.
Proof.
  destruct d as [|[k v] d]; split; try done.
  - by intros [k H].
  - intros _. exists k. unfold Collab.mem. simpl. by rewrite decide_True.
Qed.

Lemma host_shape {V} (d : Collab.odict V) (P Q : Prop) :
  match d with [] => P | _ :: _ => Q end ->
  (d = [] /\ P) \/ (d <> [] /\ Q).
Proof. destruct d; [left | right]; done. Qed.

Lemma joined_ok name sid s : session_ok s -> session_ok (joined name sid s).
Proof.
  intros (Hnd & Hsid & Hhost & Hlen & Hmsg). unfold joined.
  destruct (Collab.participants s) as [|[k0 p0] ps] eqn:Hp.
  - destruct Hhost as [Hh Hw]. session_ok_split; simpl; rewrite ?Hp; simpl;
      [apply NoDup_singleton | | | done | done].
    + intros k p. destruct (decide (k = sid)) as [->|]; [| done]. by intros [= <-].
    + split; [| done]. exists sid. split; [done |].
      unfold Collab.mem. simpl. by rewrite decide_True.
  - session_ok_split; simpl; rewrite ?Hp;
      [by apply odict_set_nodup | | | done | done].
    + intros k p. destruct (decide (k = sid)) as [->|Hne].
      * rewrite odict_get_set_eq. by intros [= <-].
      * rewrite odict_get_set_ne by done. apply Hsid.
    + destruct Hhost as [(h & Hh & Hm) Hw].
      assert (Hm' : Collab.mem h (Collab.set sid (Collab.Participant name sid)
                                    ((k0, p0) :: ps)) = true).
      { rewrite odict_mem_set, Hm. apply orb_true_r. }
      destruct (Collab.set sid _ ((k0, p0) :: ps)) as [|? ?] eqn:Hset.
      * done.
      * split; [| done]. exists h. by rewrite <- Hset in *.
Qed.

Lemma departed_ok sid s : session_ok s -> session_ok (departed sid s).
Proof.
  intros (Hnd & Hsid & Hhost & Hlen & Hmsg).
  assert (Hnd' : NoDup (Collab.keys (Collab.del sid (Collab.participants s))))
    by by apply odict_del_nodup.
  assert (Hsid' : forall k p,
             Collab.get k (Collab.del sid (Collab.participants s)) = Some p ->
             Collab.sid p = k).
  { intros k p. destruct (decide (k = sid)) as [->|Hne].
    - by rewrite odict_get_del_eq.
    - rewrite odict_get_del_ne by done. apply Hsid. }
  unfold departed. cbn [Collab.host_id Collab.participants Collab.with_participants].
  destruct (decide (Collab.host_id s = Some sid)) as [Hh|Hh].
  - destruct (Collab.del sid (Collab.participants s)) as [|[k1 p1] ps] eqn:Hdel.
    + session_ok_split; simpl; rewrite ?Hdel; done.
    + session_ok_split; simpl; rewrite ?Hdel; try done.
      split; [| done]. exists k1. split; [done |].
      unfold Collab.mem. simpl. by rewrite decide_True.
  - session_ok_split; simpl; try done.
    destruct (Collab.participants s) as [|[k0 p0] ps] eqn:Hp.
    + done.
    + destruct Hhost as [(h & Hhh & Hm) Hw].
      assert (Hm' : Collab.mem h (Collab.del sid ((k0, p0) :: ps)) = true).
      { rewrite odict_mem_del by done. rewrite Hm.
        rewrite bool_decide_eq_false_2 by congruence. done. }
      destruct (Collab.del sid ((k0, p0) :: ps)) as [|? ?] eqn:Hdel.
      * done.
      * split; [| done]. exists h. by rewrite <- Hdel in *.
Qed.

Lemma writer_ok w s :
  session_ok s -> Collab.participants s <> [] ->
  session_ok (Collab.with_writer_id (Some w) s).
Proof.
  intros (Hnd & Hsid & Hhost & Hlen & Hmsg) Hne.
  session_ok_split; simpl; try done.
  destruct (Collab.participants s); [done |].
  destruct Hhost as [Hh _]. split; [done | by eexists].
Qed.

Lemma host_participants s h :
  session_ok s -> Collab.host_id s = Some h -> Collab.participants s <> [].
Proof.
  intros (_ & _ & Hhost & _) Hh Hp. rewrite Hp in Hhost.
  destruct Hhost as [Hn _]. congruence.
Qed.

Lemma posted_ok m s :
  session_ok s -> Collab.message m <> "" -> session_ok (posted m s).
Proof.
  intros (Hnd & Hsid & Hhost & Hlen & Hmsg) Hm.
  unfold posted. session_ok_split; simpl; try done.
  - rewrite last_n_length. lia.
  - unfold Collab.last_n. apply Forall_drop, Forall_app. split; [done |].
    by apply Forall_singleton.
Qed.

Lemma session_step_ok rq k o s' :
  (forall s, o = Some s -> session_ok s) ->
  session_step rq k o s' -> session_ok s'.
Proof.
  intros Ho Hstep. destruct Hstep.
  - apply fresh_session_ok.
  - apply joined_ok. by apply Ho.
  - apply departed_ok. by apply Ho.
  - specialize (Ho s eq_refl). by destruct s.
  - apply writer_ok; [by apply Ho |]. apply nonempty_mem. eauto.
  - apply writer_ok; [by apply Ho |]. eapply host_participants; [by apply Ho | done].
  - apply posted_ok; [by apply Ho | done].
Qed.

Lemma store_ok k s sv :
  server_ok sv -> session_ok s ->
  NoDup (Collab.keys (Collab.set k s (Collab.sessions sv)))
  /\ forall k' s', Collab.get k' (Collab.set k s (Collab.sessions sv)) = Some s' ->
                   session_ok s'.
Proof.
  intros [Hnd Hall] Hs. split; [by apply odict_set_nodup |].
  intros k' s'. destruct (decide (k' = k)) as [->|Hne].
  - rewrite odict_get_set_eq. by intros [= <-].
  - rewrite odict_get_set_ne by done. apply Hall.
Qed.

Lemma serve_keeps_ok rq sv : server_ok sv -> server_ok (snd (Collab.serve rq sv)).
Proof.
  intros Hok. destruct (serve_step rq sv (proj1 Hok)) as [Heq | (k & s' & Hstep & Heq)];
    unfold server_ok; rewrite Heq; [done |].
  apply store_ok; [done |].
  eapply session_step_ok; [| exact Hstep].
  intros s Hs. by apply (proj2 Hok k).
Qed.

Lemma empty_server_ok : server_ok Collab.empty_server.
Proof. split; [apply NoDup_nil_2 | done]. Qed.

Lemma serve_all_keeps_ok rqs sv :
  server_ok sv -> server_ok (Collab.serve_all rqs sv).
Proof.
  unfold Collab.serve_all. revert sv.
  induction rqs as [|rq rqs IH]; intros sv Hok; [done |].
  simpl. apply IH. by apply serve_keeps_ok.
Qed.

(** X1: whatever requests the server has served since it started, no two
  sessions share an id and, in each session, no participant is listed
  twice; a session without participants has neither host nor writer; a
  session with participants has a host, who is one of its participants,
  and a writer; and the session keeps at most 100 chat messages, none of
  them blank. *)
Theorem sessions_invariant (rqs : list Collab.request) :
  server_ok (Collab.serve_all rqs Collab.empty_server).
Proof. apply serve_all_keeps_ok, empty_server_ok. Qed.

(** X2: a request changes the host or the writer of an existing session
  only if it is a request of the session's host (who disconnects, grants
  or revokes write access), the join of the first participant, or a
  [/create_session] that draws the id of the session again. *)
Theorem host_and_writer_set_by_host (rq : Collab.request) (sv : Collab.server)
    (k : string) (s s' : Collab.session) :
  server_ok sv ->
  Collab.get k (Collab.sessions sv) = Some s ->
  Collab.get k (Collab.sessions (snd (Collab.serve rq sv))) = Some s' ->
  Collab.host_id s' <> Collab.host_id s
  \/ Collab.writer_id s' <> Collab.writer_id s ->
  match rq with
  | Collab.CreateSession uuid4 => Str.take 8 uuid4 = k
  | Collab.JoinSession data sid =>
      Collab.jd_session_id data = Some k /\ Collab.participants s = []
  | Collab.Disconnect sid => Collab.host_id s = Some sid
  | Collab.GrantWrite data sid =>
      Collab.gd_session_id data = Some k /\ Collab.host_id s = Some sid
  | Collab.RevokeWrite session_id sid =>
      session_id = Some k /\ Collab.host_id s = Some sid
  | _ => False
  end.
Proof.
  intros [Hnd Hall] Hs Hs' Hdiff.
  destruct (serve_step rq sv Hnd) as [Heq | (k1 & s1 & Hstep & Heq)];
    rewrite Heq in Hs'.
  { rewrite Hs in Hs'. injection Hs' as <-. by destruct Hdiff. }
  destruct (decide (k = k1)) as [<-|Hne];
    [| rewrite odict_get_set_ne, Hs in Hs' by done; injection Hs' as <-;
       by destruct Hdiff].
  rewrite odict_get_set_eq in Hs'. injection Hs' as <-.
  rewrite Hs in Hstep.
  inversion Hstep; subst; try done.
  - split; [done |]. unfold joined in Hdiff.
    destruct (Collab.participants s); [done |]. by destruct Hdiff.
  - unfold departed in Hdiff. simpl in Hdiff.
    destruct (decide (Collab.host_id s = Some sid)); [done | by destruct Hdiff].
  - by destruct Hdiff.
  - by destruct Hdiff.
Qed.

(** X3: a request changes the content of an existing session only if it
  is a [code_change] from the session's writer, which sets the content to
  the submitted text, or a [/create_session] that draws the id of the
  session again. *)
Theorem content_set_by_writer (rq : Collab.request) (sv : Collab.server)
    (k : string) (s s' : Collab.session) :
  server_ok sv ->
  Collab.get k (Collab.sessions sv) = Some s ->
  Collab.get k (Collab.sessions (snd (Collab.serve rq sv))) = Some s' ->
  Collab.content s' <> Collab.content s ->
  match rq with
  | Collab.CreateSession uuid4 => Str.take 8 uuid4 = k
  | Collab.CodeChange data sid =>
      Collab.cc_session_id data = Some k /\ Collab.writer_id s = Some sid
      /\ Collab.content s' = Collab.cc_content data
  | _ => False
  end.
Proof.
  intros [Hnd Hall] Hs Hs' Hdiff.
  destruct (serve_step rq sv Hnd) as [Heq | (k1 & s1 & Hstep & Heq)];
    rewrite Heq in Hs'.
  { rewrite Hs in Hs'. by injection Hs' as <-. }
  destruct (decide (k = k1)) as [<-|Hne];
    [| rewrite odict_get_set_ne, Hs in Hs' by done; by injection Hs' as <-].
  rewrite odict_get_set_eq in Hs'. injection Hs' as <-.
  rewrite Hs in Hstep.
  inversion Hstep; subst; try done.
  - unfold joined in Hdiff. by destruct (Collab.participants s).
  - unfold departed in Hdiff. simpl in Hdiff.
    destruct (decide (Collab.host_id s = Some sid)); [| done].
    by destruct (Collab.del sid (Collab.participants s)) as [|[? ?] ?].
Qed.

(** *** Writing and reading the content *)

(** X4: when the writer of a session sends a [code_change], the text is
  stored as the content of the session and sent to the room without the
  sender; a client that joins the session next, whoever it is, is sent
  that text. *)
Theorem code_change_then_join (sv : Collab.server) (k : string)
    (s : Collab.session) (c sid : string) (data : Collab.join_data)
    (sid' : string) :
  Collab.get k (Collab.sessions sv) = Some s ->
  Collab.writer_id s = Some sid ->
  Collab.jd_session_id data = Some k ->
  let sv1 := snd (Collab.handle_code_change
                    (Collab.CodeChangeData (Some k) c) sid sv) in
  let sv2 := Collab.handle_join data sid' sv1 in
  (Collab.content <$> Collab.get k (Collab.sessions sv1)) = Some c
  /\ (Collab.content <$> Collab.get k (Collab.sessions sv2)) = Some c
  /\ exists rest,
       Collab.sent sv2
       = Collab.sent sv
         ++ [Collab.Deliver (Collab.code_update c) sid (Collab.to_room k false);
             Collab.Deliver (Collab.code_update c) sid' Collab.to_caller]
         ++ rest.
Proof.
  intros Hs Hw Hk sv1 sv2. subst sv1 sv2.
  unfold Collab.handle_code_change, Collab.handle_join.
  cbn [Collab.cc_session_id Collab.cc_content Collab.lookup].
  rewrite Hk, Hs. rewrite decide_True by done.
  cbn [snd Collab.lookup Collab.emit Collab.store Collab.sessions].
  rewrite odict_get_set_eq. cbn [fmap option_fmap option_map Collab.content
    Collab.with_content].
  split; [done |].
  set (s1 := Collab.with_content c s).
  cbn [Collab.join_room Collab.sessions Collab.sent Collab.rooms].
  set (s2 := Collab.with_participants _ _).
  assert (Hc2 : Collab.content s2 = c).
  { subst s2 s1. by destruct (Collab.participants (Collab.with_content c s)). }
  assert (Hsess : forall sv0, Collab.sessions
            (Collab.emit_participants_update k sid' sv0) = Collab.sessions sv0)
    by (intros; apply sessions_emit_participants_update).
  rewrite Hsess.
  assert (Hget : Collab.get k (Collab.set k s2 (Collab.set k s1 (Collab.sessions sv)))
                 = Some s2) by apply odict_get_set_eq.
  clearbody s2 s1. unfold Collab.emit_participants_update.
  split.
  - destruct (Collab.chat_messages s2); cbn; rewrite Hget; cbn; by rewrite Hc2.
  - destruct (Collab.chat_messages s2); cbn; rewrite Hget; cbn; rewrite Hc2;
      rewrite <- !app_assoc; cbn; eexists; reflexivity.
Qed.

(** *** Joining and leaving *)

Lemma handle_join_sessions data sid sv k s :
  Collab.jd_session_id data = Some k ->
  Collab.get k (Collab.sessions sv) = Some s ->
  Collab.sessions (Collab.handle_join data sid sv)
  = Collab.set k (joined (default "Anonymous" (Collab.jd_name data)) sid s)
               (Collab.sessions sv).
Proof.
  intros Hk Hs. unfold Collab.handle_join, Collab.lookup. rewrite Hk, Hs.
  rewrite sessions_emit_participants_update.
  by destruct (Collab.chat_messages _).
Qed.

Lemma handle_disconnect_sessions sid sv k s :
  Collab.session_of sid (Collab.sessions sv) = Some (k, s) ->
  Collab.sessions (Collab.handle_disconnect sid sv)
  = Collab.set k (departed sid s) (Collab.sessions sv).
Proof.
  intros Hs. unfold Collab.handle_disconnect, Collab.handle_user_leave.
  rewrite Hs. by rewrite sessions_emit_participants_update.
Qed.

(** the [join_session] events of the clients [l], each with its sid and
  the name it gives, for the session [k] *)
Definition joins (k : string) (l : list (string * option string))
  : list Collab.request :=
  (fun '(sid, name) => Collab.JoinSession (Collab.JoinData (Some k) name) sid) <$> l.

Definition join_all (l : list (string * option string)) (s : Collab.session)
  : Collab.session :=
  foldl (fun s '(sid, name) => joined (default "Anonymous" name) sid s) s l.

Lemma serve_joins k l : forall sv s,
  Collab.get k (Collab.sessions sv) = Some s ->
  Collab.sessions (Collab.serve_all (joins k l) sv)
  = Collab.set k (join_all l s) (Collab.sessions sv).
Proof.
  unfold Collab.serve_all, joins, join_all.
  induction l as [|[sid name] l IH]; intros sv s Hs; csimpl.
  - by rewrite odict_set_id.
  - erewrite IH.
    + rewrite (handle_join_sessions _ _ _ k s) by done.
      by rewrite odict_set_set.
    + rewrite (handle_join_sessions _ _ _ k s) by done.
      apply odict_get_set_eq.
Qed.

Lemma join_all_keys l : forall s,
  Collab.participants s <> [] ->
  NoDup (Collab.keys (Collab.participants s) ++ l.*1) ->
  Collab.keys (Collab.participants (join_all l s))
  = Collab.keys (Collab.participants s) ++ l.*1
  /\ Collab.host_id (join_all l s) = Collab.host_id s
  /\ Collab.writer_id (join_all l s) = Collab.writer_id s
  /\ Collab.content (join_all l s) = Collab.content s.
Proof.
  unfold join_all. induction l as [|[sid name] l IH]; intros s Hne Hnd; csimpl.
  - by rewrite app_nil_r.
  - assert (Hj : joined (default "Anonymous" name) sid s
                 = Collab.with_participants
                     (Collab.set sid (Collab.Participant (default "Anonymous" name) sid)
                                 (Collab.participants s)) s).
    { unfold joined. destruct (Collab.participants s) eqn:Hp; [by destruct Hne |].
      cbv zeta. by rewrite Hp. }
    assert (Hfresh : Collab.mem sid (Collab.participants s) = false).
    { apply odict_mem_false. intros Hin.
      apply NoDup_app in Hnd as (_ & Hdisj & _).
      apply (Hdisj sid Hin). csimpl. apply list_elem_of_here. }
    assert (Hkeys : Collab.keys (Collab.participants
                       (joined (default "Anonymous" name) sid s))
                    = Collab.keys (Collab.participants s) ++ [sid]).
    { rewrite Hj. simpl. by rewrite odict_keys_set, Hfresh. }
    destruct (IH (joined (default "Anonymous" name) sid s)) as (Hk & Hh & Hw & Hc).
    + rewrite Hj. simpl. intros Hset.
      pose proof (odict_get_set_eq sid
        (Collab.Participant (default "Anonymous" name) sid)
        (Collab.participants s)) as Hg.
      by rewrite Hset in Hg.
    + rewrite Hkeys, <- app_assoc. done.
    + rewrite Hk, Hh, Hw, Hc, Hkeys, <- app_assoc. by rewrite Hj.
Qed.

Lemma session_of_set sid k s ss :
  Collab.session_of sid ss = None ->
  Collab.mem sid (Collab.participants s) = true ->
  Collab.session_of sid (Collab.set k s ss) = Some (k, s).
Proof.
  intros Hnone Hm. induction ss as [|[k0 s0] ss IH]; simpl in *.
  - by rewrite Hm.
  - destruct (Collab.mem sid (Collab.participants s0)) eqn:Hm0; [done |].
    destruct (decide (k = k0)) as [->|Hne]; simpl.
    + by rewrite Hm.
    + rewrite Hm0. by apply IH.
Qed.

Lemma odict_del_head {V} (k : string) (v : V) (d : Collab.odict V) :
  Collab.del k ((k, v) :: d) = d.
Proof. simpl. by rewrite decide_True. Qed.

(** X5: in a session that has just been created, the first client that
  joins becomes host and writer, and the participants are listed in the
  order in which they joined; when the host disconnects, the participant
  who joined next becomes host and writer (whoever the writer was), and a
  session left without participants has neither. *)
Theorem host_succession (uuid4 : string) (u : string) (name : option string)
    (us : list (string * option string)) (sv : Collab.server) :
  NoDup (u :: us.*1) ->
  Collab.session_of u (Collab.sessions sv) = None ->
  let k := Str.take 8 uuid4 in
  let sv1 := Collab.serve_all (Collab.CreateSession uuid4 :: joins k ((u, name) :: us))
                              sv in
  let sv2 := Collab.handle_disconnect u sv1 in
  exists s1 s2,
    Collab.get k (Collab.sessions sv1) = Some s1
    /\ Collab.keys (Collab.participants s1) = u :: us.*1
    /\ Collab.host_id s1 = Some u /\ Collab.writer_id s1 = Some u
    /\ Collab.content s1 = Collab.welcome
    /\ Collab.get k (Collab.sessions sv2) = Some s2
    /\ Collab.keys (Collab.participants s2) = us.*1
    /\ Collab.host_id s2 = head us.*1 /\ Collab.writer_id s2 = head us.*1.
Proof.
  intros Hnd Hnone k sv1 sv2.
  set (sv0 := snd (Collab.create_session uuid4 sv)).
  set (j1 := joined (default "Anonymous" name) u fresh_session).
  assert (H0 : Collab.get k (Collab.sessions sv0) = Some fresh_session)
    by apply odict_get_set_eq.
  assert (Hsess1 : Collab.sessions sv1
                   = Collab.set k (join_all us j1) (Collab.sessions sv)).
  { subst sv1. unfold Collab.serve_all. cbn [foldl Collab.serve].
    fold sv0. change (foldl _ ?a ?l) with (Collab.serve_all l a).
    rewrite (serve_joins k _ sv0 fresh_session H0).
    subst sv0. simpl. by rewrite odict_set_set. }
  destruct (join_all_keys us j1) as (Hk & Hh & Hw & Hc); [done | done |].
  set (s1 := join_all us j1) in *.
  assert (Hp1 : exists p ps, Collab.participants s1 = (u, p) :: ps
                             /\ Collab.keys ps = us.*1).
  { simpl in Hk. destruct (Collab.participants s1) as [|[u' p] ps]; [done |].
    csimpl in Hk. injection Hk as -> Hps. eauto. }
  destruct Hp1 as (p & ps & Hp1 & Hps).
  assert (Hm : Collab.mem u (Collab.participants s1) = true).
  { rewrite Hp1. unfold Collab.mem. simpl. by rewrite decide_True. }
  assert (Hsess2 : Collab.sessions sv2
                   = Collab.set k (departed u s1) (Collab.sessions sv1)).
  { apply handle_disconnect_sessions. rewrite Hsess1. by apply session_of_set. }
  exists s1, (departed u s1).
  split; [rewrite Hsess1; apply odict_get_set_eq |].
  split; [done |]. split; [done |]. split; [done |]. split; [done |].
  split; [rewrite Hsess2; apply odict_get_set_eq |].
  unfold departed. cbn [Collab.host_id Collab.participants Collab.with_participants].
  rewrite Hh. simpl. rewrite decide_True by done.
  rewrite Hp1, odict_del_head.
  destruct ps as [|[u2 p2] ps]; csimpl in *; rewrite <- Hps; done.
Qed.

(** X6: a disconnect takes the client out of the first session, in the
  order of creation, in which it participates, and changes no other
  session: a client that takes part in two sessions is, after its
  disconnect, still listed as a participant of one of them. *)
Theorem disconnect_leaves_later_sessions (sv : Collab.server) (sid : string)
    (k1 k2 : string) (s1 s2 : Collab.session) :
  server_ok sv ->
  k1 <> k2 ->
  Collab.get k1 (Collab.sessions sv) = Some s1 ->
  Collab.get k2 (Collab.sessions sv) = Some s2 ->
  Collab.mem sid (Collab.participants s1) = true ->
  Collab.mem sid (Collab.participants s2) = true ->
  let sv' := Collab.handle_disconnect sid sv in
  exists k0 s0,
    Collab.session_of sid (Collab.sessions sv) = Some (k0, s0)
    /\ Collab.get k0 (Collab.sessions sv') = Some (departed sid s0)
    /\ Collab.mem sid (Collab.participants (departed sid s0)) = false
    /\ (forall k, k <> k0 ->
          Collab.get k (Collab.sessions sv') = Collab.get k (Collab.sessions sv))
    /\ exists k s, (k = k1 \/ k = k2)
         /\ Collab.get k (Collab.sessions sv') = Some s
         /\ Collab.mem sid (Collab.participants s) = true.
Proof.
  intros [Hnd Hall] Hne H1 H2 Hm1 Hm2 sv'.
  destruct (Collab.session_of sid (Collab.sessions sv)) as [[k0 s0]|] eqn:Hof.
  2:{ exfalso. assert (Hin : (k1, s1) ∈ Collab.sessions sv).
      { clear -H1. induction (Collab.sessions sv) as [|[k s] ss IH]; simpl in *;
          [done |]. destruct (decide (k1 = k)) as [->|].
        - injection H1 as ->. apply list_elem_of_here.
        - apply list_elem_of_further. by apply IH. }
      pose proof (proj1 (session_of_None sid _) Hof k1 s1 Hin). congruence. }
  destruct (session_of_Some _ _ _ _ Hnd Hof) as [Hg0 Hm0].
  assert (Hsess : Collab.sessions sv'
                  = Collab.set k0 (departed sid s0) (Collab.sessions sv))
    by by apply handle_disconnect_sessions.
  assert (Hother : forall k, k <> k0 ->
            Collab.get k (Collab.sessions sv') = Collab.get k (Collab.sessions sv)).
  { intros k Hk. by rewrite Hsess, odict_get_set_ne. }
  exists k0, s0. split; [done |].
  split; [rewrite Hsess; apply odict_get_set_eq |].
  split.
  { destruct (Hall k0 s0 Hg0) as (Hnd0 & _).
    unfold departed. cbn [Collab.host_id Collab.participants Collab.with_participants].
    assert (Hd : Collab.mem sid (Collab.del sid (Collab.participants s0)) = false).
    { rewrite odict_mem_del by done. by rewrite bool_decide_eq_true_2. }
    destruct (decide (Collab.host_id s0 = Some sid)); [| done].
    by destruct (Collab.del sid (Collab.participants s0)) as [|[? ?] ?]. }
  split; [done |].
  destruct (decide (k1 = k0)) as [->|Hne1].
  - exists k2, s2. split; [by right |]. split; [| done]. rewrite Hother; done.
  - exists k1, s1. split; [by left |]. split; [| done]. rewrite Hother; done.
Qed.

(** X7: when the writer of a session, who is not its host, disconnects,
  the session keeps naming the departed client as its writer: until the
  host grants or revokes write access, a [code_change] for the session
  from any other client changes nothing. *)
Theorem writer_left_behind (sv : Collab.server) (k : string)
    (s : Collab.session) (w h : string) :
  server_ok sv ->
  Collab.session_of w (Collab.sessions sv) = Some (k, s) ->
  Collab.writer_id s = Some w ->
  Collab.host_id s = Some h ->
  h <> w ->
  let sv1 := Collab.handle_disconnect w sv in
  exists s1,
    Collab.get k (Collab.sessions sv1) = Some s1
    /\ Collab.writer_id s1 = Some w
    /\ Collab.host_id s1 = Some h
    /\ Collab.mem w (Collab.participants s1) = false
    /\ Collab.mem h (Collab.participants s1) = true
    /\ (forall c sid, sid <> w ->
          Collab.handle_code_change (Collab.CodeChangeData (Some k) c) sid sv1
          = (Collab.Returned, sv1))
    /\ Collab.writer_id
         <$> Collab.get k (Collab.sessions
               (snd (Collab.handle_revoke_write (Some k) h sv1)))
       = Some (Some h).
Proof.
  intros [Hnd Hall] Hof Hw Hh Hne sv1.
  destruct (session_of_Some _ _ _ _ Hnd Hof) as [Hg Hm].
  assert (Hsess : Collab.sessions sv1
                  = Collab.set k (departed w s) (Collab.sessions sv))
    by by apply handle_disconnect_sessions.
  assert (Hdep : departed w s
                 = Collab.with_participants (Collab.del w (Collab.participants s)) s).
  { unfold departed. simpl. rewrite Hh. by rewrite decide_False by congruence. }
  destruct (Hall k s Hg) as (Hnd0 & _ & Hhost & _).
  assert (Hg1 : Collab.get k (Collab.sessions sv1) = Some (departed w s))
    by (rewrite Hsess; apply odict_get_set_eq).
  exists (departed w s). split; [done |].
  rewrite Hdep. simpl. split; [done |]. split; [done |].
  split; [rewrite odict_mem_del by done; by rewrite bool_decide_eq_true_2 |].
  split.
  { rewrite odict_mem_del by done. rewrite bool_decide_eq_false_2 by done.
    destruct (Collab.participants s); [done |].
    destruct Hhost as [(h' & Hh' & Hm') _].
    rewrite Hh in Hh'. injection Hh' as <-. by rewrite Hm'. }
  split.
  - intros c sid Hsid. unfold Collab.handle_code_change, Collab.lookup. simpl.
    rewrite Hg1, Hdep. simpl. rewrite Hw.
    by rewrite decide_False by congruence.
  - unfold Collab.handle_revoke_write, Collab.lookup.
    rewrite Hg1, Hdep. simpl. rewrite Hh. rewrite decide_True by done.
    simpl. rewrite sessions_emit_participants_update. simpl.
    by rewrite odict_get_set_eq.
Qed.

(** *** The chat *)

(** only whitespace *)
Fixpoint blank (s : string) : bool :=
  match s with
  | EmptyString => true
  | String c t => Chars.re_space c && blank t
  end.

Fixpoint last_char (s : string) : option ascii :=
  match s with
  | EmptyString => None
  | String c EmptyString => Some c
  | String _ t => last_char t
  end.

Lemma rstrip_empty (s : string) : Collab.rstrip s = "" <-> blank s = true.
Proof.
  induction s as [|c t IH]; simpl; [done |].
  destruct (Collab.rstrip t) as [|c' t'] eqn:Hr.
  - destruct (Chars.re_space c); simpl; [| done].
    split; [intros _; by apply IH | done].
  - split; [done |]. intros [_ Hb]%andb_true_iff. by apply IH in Hb.
Qed.

Lemma skip_space_blank (s : string) : blank (Re.skip_space s) = blank s.
Proof.
  induction s as [|c t IH]; simpl; [done |].
  destruct (Chars.re_space c) eqn:Hc; simpl; [done | by rewrite Hc].
Qed.

Lemma strip_empty (s : string) : Collab.strip s = "" <-> blank s = true.
Proof. unfold Collab.strip. by rewrite rstrip_empty, skip_space_blank. Qed.

Lemma skip_space_head (s : string) (c : ascii) (t : string) :
  Re.skip_space s = String c t -> Chars.re_space c = false.
Proof.
  induction s as [|c0 t0 IH]; simpl; [done |].
  destruct (Chars.re_space c0) eqn:Hc; [done |]. by intros [= <- <-].
Qed.

Lemma rstrip_head (s : string) (c : ascii) (t : string) :
  Collab.rstrip s = String c t -> exists t0, s = String c t0.
Proof.
  destruct s as [|c0 t0]; simpl; [done |].
  destruct (Collab.rstrip t0).
  - destruct (Chars.re_space c0); [done |]. intros [= <- <-]. eauto.
  - intros [= <- <-]. eauto.
Qed.

Lemma rstrip_last (s : string) (c : ascii) :
  last_char (Collab.rstrip s) = Some c -> Chars.re_space c = false.
Proof.
  induction s as [|c0 t0 IH]; simpl; [done |].
  destruct (Collab.rstrip t0) as [|c1 t1] eqn:Hr.
  - destruct (Chars.re_space c0) eqn:Hc; simpl; [done |]. by intros [= <-].
  - simpl. exact IH.
Qed.

(** what [s.strip()] returns neither begins nor ends with whitespace *)
Lemma strip_trimmed (s : string) :
  (forall c t, Collab.strip s = String c t -> Chars.re_space c = false)
  /\ (forall c, last_char (Collab.strip s) = Some c -> Chars.re_space c = false).
Proof.
  unfold Collab.strip. split.
  - intros c t H. apply rstrip_head in H as [t0 H]. by eapply skip_space_head.
  - apply rstrip_last.
Qed.

Lemma last_n_app {A} (m : nat) (l r : list A) :
  Collab.last_n m (Collab.last_n m l ++ r) = Collab.last_n m (l ++ r).
Proof.
  unfold Collab.last_n.
  rewrite <- (drop_app_le l r (length l - m)) by lia.
  rewrite drop_drop. f_equal. rewrite length_drop, !length_app. lia.
Qed.

Lemma last_n_nonempty {A} (m : nat) (l : list A) :
  (0 < m)%nat -> l <> [] -> Collab.last_n m l <> [].
Proof.
  intros Hm Hl Hnil. apply (f_equal length) in Hnil.
  rewrite last_n_length in Hnil. destruct l; [done |]. cbn [length] in Hnil. lia.
Qed.

Lemma last_n_last {A} (m : nat) (l : list A) (x : A) :
  (0 < m)%nat -> last (Collab.last_n m (l ++ [x])) = Some x.
Proof.
  intros Hm. unfold Collab.last_n.
  rewrite drop_app_le by (rewrite length_app; simpl; lia).
  apply last_snoc.
Qed.

Lemma handle_chat_message_stored stamp data sid sv k s :
  Collab.cd_session_id data = Some k -> k <> "" ->
  Collab.get k (Collab.sessions sv) = Some s ->
  Collab.mem sid (Collab.participants s) = true ->
  blank (Collab.cd_message data) = false ->
  let m := chat_of stamp (Collab.cd_message data) sid s in
  Collab.handle_chat_message stamp data sid sv
  = Collab.emit (Collab.new_chat_message m) sid (Collab.to_room k true)
                (Collab.store k (posted m s) sv).
Proof.
  intros Hk Hne Hs Hm Hb m. subst m.
  unfold Collab.handle_chat_message, Collab.lookup. rewrite Hk, Hs.
  cbn [truthy_opt]. apply nonempty_true in Hne. rewrite Hne. cbn [negb].
  assert (Hst : Str.nonempty (Collab.strip (Collab.cd_message data)) = true).
  { apply nonempty_true. intros H%strip_empty. congruence. }
  rewrite Hst. cbn [negb].
  unfold Collab.mem in Hm. unfold chat_of, posted.
  destruct (Collab.get sid (Collab.participants s)) as [p|]; [| done]. simpl.
  destruct (100 <? _)%nat eqn:Hlen; [done |].
  apply Nat.ltb_ge in Hlen. by rewrite last_n_all.
Qed.

(** X8: a chat message is dropped, with nothing stored and nothing sent,
  when its text is blank, when it names no session or an unknown one, or
  when the sender is no participant of the session.  Any other message is
  stored last in the history of its session, which keeps the 100 most
  recent messages, and is sent once to the room; its text is the
  submitted text without the whitespace around it, and it carries the
  sender's sid and the name the sender joined with. *)
Theorem chat_message_filter (stamp : Collab.chat_stamp) (data : Collab.chat_data)
    (sid : string) (sv : Collab.server) :
  let sv' := Collab.handle_chat_message stamp data sid sv in
  (blank (Collab.cd_message data) = true -> sv' = sv)
  /\ (truthy_opt (Collab.cd_session_id data) = false -> sv' = sv)
  /\ (Collab.lookup (Collab.cd_session_id data) sv = None -> sv' = sv)
  /\ (forall k s,
        Collab.lookup (Collab.cd_session_id data) sv = Some (k, s) ->
        (Collab.mem sid (Collab.participants s) = false -> sv' = sv)
        /\ (k <> "" -> Collab.mem sid (Collab.participants s) = true ->
            blank (Collab.cd_message data) = false ->
            exists m,
              Collab.sessions sv'
              = Collab.set k (Collab.with_chat_messages
                                (Collab.last_n 100 (Collab.chat_messages s ++ [m])) s)
                           (Collab.sessions sv)
              /\ Collab.sent sv'
                 = Collab.sent sv
                   ++ [Collab.Deliver (Collab.new_chat_message m) sid
                                      (Collab.to_room k true)]
              /\ last (Collab.last_n 100 (Collab.chat_messages s ++ [m])) = Some m
              /\ (length (Collab.last_n 100 (Collab.chat_messages s ++ [m])) <= 100)%nat
              /\ Collab.message m = Collab.strip (Collab.cd_message data)
              /\ Collab.message m <> ""
              /\ (forall c t, Collab.message m = String c t ->
                    Chars.re_space c = false)
              /\ (forall c, last_char (Collab.message m) = Some c ->
                    Chars.re_space c = false)
              /\ Collab.sender_sid m = sid
              /\ Collab.name <$> Collab.get sid (Collab.participants s)
                 = Some (Collab.sender_name m))).
Proof.
  intros sv'. subst sv'. split_and!.
  - intros Hb%strip_empty. unfold Collab.handle_chat_message. rewrite Hb. simpl.
    destruct (truthy_opt _); [| done]. simpl.
    by destruct (Collab.lookup _ sv) as [[k s]|].
  - intros Ht. unfold Collab.handle_chat_message. by rewrite Ht.
  - intros Hl. unfold Collab.handle_chat_message. rewrite Hl.
    by destruct (truthy_opt _).
  - intros k s Hl. apply lookup_Some in Hl as [Hk Hs]. split.
    + intros Hm. unfold Collab.handle_chat_message, Collab.lookup.
      rewrite Hk, Hs. unfold Collab.mem in Hm.
      destruct (Collab.get sid (Collab.participants s)); [done |].
      destruct (truthy_opt _); [| done]. simpl.
      by destruct (Str.nonempty _).
    + intros Hne Hm Hb.
      rewrite (handle_chat_message_stored stamp data sid sv k s) by done.
      exists (chat_of stamp (Collab.cd_message data) sid s).
      split; [reflexivity |]. split; [reflexivity |].
      split.
      { apply last_n_last. lia. }
      split; [rewrite last_n_length; lia |].
      split; [reflexivity |].
      split; [simpl; intros H%strip_empty; congruence |].
      split; [apply strip_trimmed |]. split; [apply strip_trimmed |].
      split; [reflexivity |].
      unfold chat_of, Collab.mem in *. simpl.
      by destruct (Collab.get sid (Collab.participants s)).
Qed.

(** the [send_chat_message] events [posts], each with what its handler
  reads from outside, its text and the sid of its sender, for the session
  [k] *)
Definition posts_to (k : string) (posts : list (Collab.chat_stamp * string * string))
  : list Collab.request :=
  (fun '(stamp, text, sid) =>
     Collab.SendChatMessage stamp (Collab.ChatData (Some k) text) sid) <$> posts.

Definition post_all (s : Collab.session)
    (posts : list (Collab.chat_stamp * string * string)) (s1 : Collab.session)
  : Collab.session :=
  foldl (fun s1 '(stamp, text, sid) => posted (chat_of stamp text sid s) s1) s1 posts.

Definition accepted (s : Collab.session)
    (post : Collab.chat_stamp * string * string) : Prop :=
  Collab.mem post.2 (Collab.participants s) = true /\ blank post.1.2 = false.

Lemma chat_of_participants stamp text sid s s1 :
  Collab.participants s1 = Collab.participants s ->
  chat_of stamp text sid s1 = chat_of stamp text sid s.
Proof. intros H. unfold chat_of. by rewrite H. Qed.

Lemma serve_posts k posts s : k <> "" -> forall sv s1,
  Collab.get k (Collab.sessions sv) = Some s1 ->
  Collab.participants s1 = Collab.participants s ->
  Forall (accepted s) posts ->
  Collab.sessions (Collab.serve_all (posts_to k posts) sv)
  = Collab.set k (post_all s posts s1) (Collab.sessions sv)
  /\ Collab.participants (post_all s posts s1) = Collab.participants s
  /\ Collab.content (post_all s posts s1) = Collab.content s1.
Proof.
  intros Hne. unfold Collab.serve_all, posts_to, post_all.
  induction posts as [|[[stamp text] sid] posts IH]; intros sv s1 Hs Hp Hacc; csimpl.
  - by rewrite odict_set_id.
  - apply Forall_cons in Hacc as [[Hm Hb] Hacc]. simpl in Hm, Hb.
    rewrite (handle_chat_message_stored stamp _ sid sv k s1)
      by (simpl; rewrite ?Hp; done).
    cbn [Collab.cd_message].
    rewrite (chat_of_participants _ _ _ s s1) by done.
    set (s2 := posted (chat_of stamp text sid s) s1).
    destruct (IH (Collab.emit (Collab.new_chat_message (chat_of stamp text sid s))
                    sid (Collab.to_room k true) (Collab.store k s2 sv)) s2)
      as (Hsess & Hpart & Hcont); [apply odict_get_set_eq | done | done |].
    rewrite Hsess. simpl. by rewrite odict_set_set.
Qed.

Lemma post_all_chat posts s : forall s1,
  Collab.chat_messages (post_all s posts s1)
  = match posts with
    | [] => Collab.chat_messages s1
    | _ => Collab.last_n 100
             (Collab.chat_messages s1
              ++ ((fun '(stamp, text, sid) => chat_of stamp text sid s) <$> posts))
    end.
Proof.
  unfold post_all. induction posts as [|[[stamp text] sid] posts IH];
    intros s1; csimpl; [done |].
  rewrite IH. destruct posts as [|post posts]; csimpl.
  - done.
  - rewrite last_n_app, <- app_assoc. done.
Qed.

(** X9: after chat messages have been accepted for a session, a client
  that joins it, or asks for the chat history, is sent the most recent
  messages, at most 50, oldest first: the tail of the messages the
  session had followed by the accepted ones in the order they came. *)
Theorem recent_chat_history (sv : Collab.server) (k : string)
    (s : Collab.session) (posts : list (Collab.chat_stamp * string * string))
    (data : Collab.join_data) (sid' : string) :
  k <> "" ->
  Collab.get k (Collab.sessions sv) = Some s ->
  (length (Collab.chat_messages s) <= 100)%nat ->
  Forall (accepted s) posts ->
  Collab.jd_session_id data = Some k ->
  let all := Collab.chat_messages s
             ++ ((fun '(stamp, text, sid) => chat_of stamp text sid s) <$> posts) in
  let sv1 := Collab.serve_all (posts_to k posts) sv in
  all <> [] ->
  (Collab.chat_messages <$> Collab.get k (Collab.sessions sv1))
  = Some (Collab.last_n 100 all)
  /\ (length (Collab.last_n 50 all) <= 50)%nat
  /\ Collab.sent (Collab.handle_get_chat_history (Some k) sid' sv1)
     = Collab.sent sv1
       ++ [Collab.Deliver (Collab.chat_history (Collab.last_n 50 all)) sid'
                          Collab.to_caller]
  /\ exists update,
       Collab.sent (Collab.handle_join data sid' sv1)
       = Collab.sent sv1
         ++ [Collab.Deliver (Collab.code_update (Collab.content s)) sid'
                            Collab.to_caller;
             Collab.Deliver (Collab.chat_history (Collab.last_n 50 all)) sid'
                            Collab.to_caller;
             Collab.Deliver update sid' (Collab.to_room k true)].
Proof.
  intros Hne Hs Hlen Hacc Hk all sv1 Hall.
  destruct (serve_posts k posts s Hne sv s Hs eq_refl Hacc) as (Hsess & Hpart & Hcont).
  set (s1 := post_all s posts s) in *.
  assert (Hchat : Collab.chat_messages s1 = Collab.last_n 100 all).
  { subst s1 all. rewrite (post_all_chat posts s s).
    destruct posts; [| done]. csimpl. rewrite app_nil_r. by rewrite last_n_all. }
  assert (Hg : Collab.get k (Collab.sessions sv1) = Some s1)
    by (subst sv1; rewrite Hsess; apply odict_get_set_eq).
  assert (H50 : Collab.last_n 50 (Collab.chat_messages s1) = Collab.last_n 50 all)
    by (rewrite Hchat; apply last_n_last_n; lia).
  assert (Hnil : Collab.chat_messages s1 <> [])
    by (rewrite Hchat; apply last_n_nonempty; [lia | done]).
  split; [by rewrite Hg; simpl; rewrite Hchat |].
  split; [rewrite last_n_length; lia |].
  split.
  - unfold Collab.handle_get_chat_history, Collab.lookup. rewrite Hg.
    destruct (Collab.chat_messages s1) eqn:Hc; [done |]. simpl. by rewrite H50.
  - unfold Collab.handle_join, Collab.lookup. rewrite Hk, Hg.
    set (s2 := Collab.with_participants _ _).
    assert (Hc2 : Collab.content s2 = Collab.content s).
    { subst s2. rewrite <- Hcont. by destruct (Collab.participants s1). }
    assert (Hm2 : Collab.chat_messages s2 = Collab.chat_messages s1).
    { subst s2. by destruct (Collab.participants s1). }
    clearbody s2. rewrite Hm2, Hc2.
    destruct (Collab.chat_messages s1) eqn:Hc; [done |].
    unfold Collab.emit_participants_update. simpl.
    rewrite odict_get_set_eq. simpl. rewrite H50, <- !app_assoc. simpl.
    eexists. reflexivity.
Qed.

(** *** A server with two sessions *)

Definition uuid_1 : string := "1b9d6bcd-bbfd-4b2d-9b5d-ab8dfbbd4bed".
Definition uuid_2 : string := "6ec0bd7f-11c0-43da-975e-2a8ad9ebae0b".

(** Ada creates a session and joins it, then Bob and a client without a
  name join; Ada also joins a second session *)
Definition demo_server : Collab.server :=
  Collab.serve_all
    [Collab.CreateSession uuid_1;
     Collab.JoinSession (Collab.JoinData (Some "1b9d6bcd") (Some "Ada")) "sid-a";
     Collab.JoinSession (Collab.JoinData (Some "1b9d6bcd") (Some "Bob")) "sid-b";
     Collab.JoinSession (Collab.JoinData (Some "1b9d6bcd") None) "sid-c";
     Collab.CreateSession uuid_2;
     Collab.JoinSession (Collab.JoinData (Some "6ec0bd7f") (Some "Ada")) "sid-a"]
    Collab.empty_server.

Lemma demo_server_ok : server_ok demo_server.
Proof. apply serve_all_keeps_ok, empty_server_ok. Qed.

(** the session [k] of a server, for a [k] that names one *)
Definition session_at (k : string) (sv : Collab.server) : Collab.session :=
  default fresh_session (Collab.get k (Collab.sessions sv)).

Lemma host_and_writer_set_by_host_witness :
  let rq := Collab.GrantWrite (Collab.GrantData (Some "1b9d6bcd") (Some "sid-b"))
                              "sid-a" in
  let s := session_at "1b9d6bcd" demo_server in
  let s' := session_at "1b9d6bcd" (snd (Collab.serve rq demo_server)) in
  Collab.writer_id s = Some "sid-a" /\ Collab.writer_id s' = Some "sid-b"
  /\ (Some "1b9d6bcd" = Some "1b9d6bcd" /\ Collab.host_id s = Some "sid-a").
Proof.
  intros rq s s'. split; [reflexivity |]. split; [reflexivity |].
  apply (host_and_writer_set_by_host rq demo_server "1b9d6bcd" s s').
  - apply demo_server_ok.
  - reflexivity.
  - reflexivity.
  - right. discriminate.
Defined.

Lemma content_set_by_writer_witness :
  let rq := Collab.CodeChange (Collab.CodeChangeData (Some "1b9d6bcd") "x = 1")
                              "sid-a" in
  let s := session_at "1b9d6bcd" demo_server in
  let s' := session_at "1b9d6bcd" (snd (Collab.serve rq demo_server)) in
  Collab.content s = Collab.welcome
  /\ (Some "1b9d6bcd" = Some "1b9d6bcd" /\ Collab.writer_id s = Some "sid-a"
      /\ Collab.content s' = "x = 1").
Proof.
  intros rq s s'. split; [reflexivity |].
  apply (content_set_by_writer rq demo_server "1b9d6bcd" s s').
  - apply demo_server_ok.
  - reflexivity.
  - reflexivity.
  - discriminate.
Defined.

Lemma code_change_then_join_witness :
  let sv1 := snd (Collab.handle_code_change
                    (Collab.CodeChangeData (Some "1b9d6bcd") "x = 1") "sid-a"
                    demo_server) in
  let sv2 := Collab.handle_join (Collab.JoinData (Some "1b9d6bcd") (Some "Dan"))
                                "sid-d" sv1 in
  (Collab.content <$> Collab.get "1b9d6bcd" (Collab.sessions sv1)) = Some "x = 1"
  /\ (Collab.content <$> Collab.get "1b9d6bcd" (Collab.sessions sv2)) = Some "x = 1"
  /\ exists rest,
       Collab.sent sv2
       = Collab.sent demo_server
         ++ [Collab.Deliver (Collab.code_update "x = 1") "sid-a"
                            (Collab.to_room "1b9d6bcd" false);
             Collab.Deliver (Collab.code_update "x = 1") "sid-d" Collab.to_caller]
         ++ rest.
Proof.
  apply (code_change_then_join demo_server "1b9d6bcd"
           (session_at "1b9d6bcd" demo_server) "x = 1" "sid-a"
           (Collab.JoinData (Some "1b9d6bcd") (Some "Dan")) "sid-d");
    reflexivity.
Defined.

Lemma host_succession_witness :
  let sv1 := Collab.serve_all
               (Collab.CreateSession uuid_1
                :: joins "1b9d6bcd" [("sid-a", Some "Ada"); ("sid-b", Some "Bob");
                                     ("sid-c", None)])
               Collab.empty_server in
  let sv2 := Collab.handle_disconnect "sid-a" sv1 in
  exists s1 s2,
    Collab.get "1b9d6bcd" (Collab.sessions sv1) = Some s1
    /\ Collab.keys (Collab.participants s1) = ["sid-a"; "sid-b"; "sid-c"]
    /\ Collab.host_id s1 = Some "sid-a" /\ Collab.writer_id s1 = Some "sid-a"
    /\ Collab.content s1 = Collab.welcome
    /\ Collab.get "1b9d6bcd" (Collab.sessions sv2) = Some s2
    /\ Collab.keys (Collab.participants s2) = ["sid-b"; "sid-c"]
    /\ Collab.host_id s2 = Some "sid-b" /\ Collab.writer_id s2 = Some "sid-b".
Proof.
  apply (host_succession uuid_1 "sid-a" (Some "Ada")
           [("sid-b", Some "Bob"); ("sid-c", None)] Collab.empty_server).
  - apply (bool_decide_unpack _). vm_compute. exact I.
  - reflexivity.
Defined.

Lemma disconnect_leaves_later_sessions_witness :
  let sv' := Collab.handle_disconnect "sid-a" demo_server in
  Collab.mem "sid-a" (Collab.participants (session_at "1b9d6bcd" sv')) = false
  /\ Collab.mem "sid-a" (Collab.participants (session_at "6ec0bd7f" sv')) = true
  /\ exists k0 s0,
       Collab.session_of "sid-a" (Collab.sessions demo_server) = Some (k0, s0)
       /\ Collab.get k0 (Collab.sessions sv') = Some (departed "sid-a" s0)
       /\ Collab.mem "sid-a" (Collab.participants (departed "sid-a" s0)) = false
       /\ (forall k, k <> k0 ->
             Collab.get k (Collab.sessions sv')
             = Collab.get k (Collab.sessions demo_server))
       /\ exists k s, (k = "1b9d6bcd" \/ k = "6ec0bd7f")
            /\ Collab.get k (Collab.sessions sv') = Some s
            /\ Collab.mem "sid-a" (Collab.participants s) = true.
Proof.
  intros sv'. split; [reflexivity |]. split; [reflexivity |].
  apply (disconnect_leaves_later_sessions demo_server "sid-a" "1b9d6bcd" "6ec0bd7f"
           (session_at "1b9d6bcd" demo_server) (session_at "6ec0bd7f" demo_server)).
  - apply demo_server_ok.
  - discriminate.
  - reflexivity.
  - reflexivity.
  - reflexivity.
  - reflexivity.
Defined.

(** the first session after Ada has granted write access to Bob *)
Definition demo_granted : Collab.server :=
  snd (Collab.serve
         (Collab.GrantWrite (Collab.GrantData (Some "1b9d6bcd") (Some "sid-b"))
                            "sid-a")
         demo_server).

Lemma writer_left_behind_witness :
  let sv1 := Collab.handle_disconnect "sid-b" demo_granted in
  Collab.keys (Collab.participants (session_at "1b9d6bcd" sv1)) = ["sid-a"; "sid-c"]
  /\ exists s1,
       Collab.get "1b9d6bcd" (Collab.sessions sv1) = Some s1
       /\ Collab.writer_id s1 = Some "sid-b"
       /\ Collab.host_id s1 = Some "sid-a"
       /\ Collab.mem "sid-b" (Collab.participants s1) = false
       /\ Collab.mem "sid-a" (Collab.participants s1) = true
       /\ (forall c sid, sid <> "sid-b" ->
             Collab.handle_code_change (Collab.CodeChangeData (Some "1b9d6bcd") c)
                                       sid sv1
             = (Collab.Returned, sv1))
       /\ Collab.writer_id
            <$> Collab.get "1b9d6bcd" (Collab.sessions
                  (snd (Collab.handle_revoke_write (Some "1b9d6bcd") "sid-a" sv1)))
          = Some (Some "sid-a").
Proof.
  intros sv1. split; [reflexivity |].
  apply (writer_left_behind demo_granted "1b9d6bcd"
           (session_at "1b9d6bcd" demo_granted) "sid-b" "sid-a").
  - apply serve_keeps_ok, demo_server_ok.
  - reflexivity.
  - reflexivity.
  - reflexivity.
  - discriminate.
Defined.

Definition stamp_1 : Collab.chat_stamp :=
  Collab.ChatStamp "0a1b2c3d-0000-4000-8000-000000000001" 1700000000000 "09:15".
Definition stamp_2 : Collab.chat_stamp :=
  Collab.ChatStamp "0a1b2c3e-0000-4000-8000-000000000002" 1700000060000 "09:16".

Lemma chat_message_filter_witness :
  let blank_data := Collab.ChatData (Some "1b9d6bcd") ("  " +:+ nl) in
  let data := Collab.ChatData (Some "1b9d6bcd") ("  hello there " +:+ nl) in
  Collab.handle_chat_message stamp_1 blank_data "sid-a" demo_server = demo_server
  /\ Collab.handle_chat_message stamp_1 data "sid-z" demo_server = demo_server
  /\ exists m,
       Collab.sent (Collab.handle_chat_message stamp_1 data "sid-b" demo_server)
       = Collab.sent demo_server
         ++ [Collab.Deliver (Collab.new_chat_message m) "sid-b"
                            (Collab.to_room "1b9d6bcd" true)]
       /\ Collab.message m = "hello there" /\ Collab.sender_name m = "Bob".
Proof.
  intros blank_data data.
  split.
  { destruct (chat_message_filter stamp_1 blank_data "sid-a" demo_server)
      as (Hblank & _).
    apply Hblank. reflexivity. }
  split.
  - destruct (chat_message_filter stamp_1 data "sid-z" demo_server)
      as (_ & _ & _ & H).
    destruct (H "1b9d6bcd" (session_at "1b9d6bcd" demo_server) eq_refl) as [Hno _].
    apply Hno. reflexivity.
  - destruct (chat_message_filter stamp_1 data "sid-b" demo_server)
      as (_ & _ & _ & H).
    destruct (H "1b9d6bcd" (session_at "1b9d6bcd" demo_server) eq_refl) as [_ Hacc].
    destruct (Hacc ltac:(discriminate) eq_refl eq_refl)
      as (m & _ & Hsent & _ & _ & Hmsg & _ & _ & _ & _ & Hname).
    exists m. split; [exact Hsent |]. split; [exact Hmsg |].
    by injection Hname as <-.
Defined.

Lemma recent_chat_history_witness :
  let posts := [(stamp_1, "first", "sid-a"); (stamp_2, " second ", "sid-b")] in
  let sv1 := Collab.serve_all (posts_to "1b9d6bcd" posts) demo_server in
  let m1 := Collab.ChatMessage "0a1b2c3d" "sid-a" "Ada" "first" 1700000000000 "09:15" in
  let m2 := Collab.ChatMessage "0a1b2c3e" "sid-b" "Bob" "second" 1700000060000 "09:16" in
  Collab.sent (Collab.handle_get_chat_history (Some "1b9d6bcd") "sid-c" sv1)
  = Collab.sent sv1
    ++ [Collab.Deliver (Collab.chat_history [m1; m2]) "sid-c" Collab.to_caller].
Proof.
  intros posts sv1 m1 m2.
  destruct (recent_chat_history demo_server "1b9d6bcd"
              (session_at "1b9d6bcd" demo_server) posts
              (Collab.JoinData (Some "1b9d6bcd") None) "sid-c")
    as (_ & _ & Hhist & _).
  - discriminate.
  - reflexivity.
  - vm_compute. lia.
  - repeat constructor.
  - reflexivity.
  - discriminate.
  - exact Hhist.
Defined.
